(** * Bitbucket MCP server: diff retrieval, cache and retry layer

    A shallow embedding of the diff subsystem of [src/client/bitbucket.ts]
    and of [utils/cache.ts], with the properties of the specification
    stated over it.

    Conventions of the embedding.
    - A JavaScript string is a [string] with one character for each UTF-16
      code unit, so that [String.length] is [s.length].  The code units
      modelled are U+0000..U+00FF; diff text outside that range is not
      modelled.  Each code unit above U+00FF in the fixed messages of the
      code (the emoji and the arrow of the two reports) is held as the
      unit [Text.wide].
    - A JavaScript number that the code uses as a counter, a timestamp or a
      size is a [Z]; the pacing delay of the transport layer, which can be
      NaN, is a [Transport.JsNumber].
    - [await]ed calls are modelled by their outcome: a value or a thrown
      error. *)

From Stdlib Require Import ZArith Ascii String List Lia Bool DecimalString Sorted Permutation.
From stdpp Require Import base option list strings gmap.

Local Open Scope string_scope.
Local Open Scope list_scope.
Local Open Scope Z_scope.

(** ** Text primitives *)

Module Text.

Definition nl : ascii := "010"%char.

(** [s.startsWith(p)] *)
Fixpoint startsWith (s p : string) : bool :=
  match p with
  | EmptyString => true
  | String a p' =>
      match s with
      | EmptyString => false
      | String b s' => Ascii.eqb a b && startsWith s' p'
      end
  end.

(** [s.endsWith(p)] *)
Fixpoint endsWith (s p : string) : bool :=
  String.eqb s p ||
  match s with
  | EmptyString => false
  | String _ r => endsWith r p
  end.

(** [s.includes(p)] *)
Fixpoint includes (s p : string) : bool :=
  startsWith s p ||
  match s with
  | EmptyString => false
  | String _ r => includes r p
  end.

(** [s.split('\n')]: never empty, the empty string gives one empty line. *)
Fixpoint split (s : string) : list string :=
  match s with
  | EmptyString => [EmptyString]
  | String c r =>
      if Ascii.eqb c nl then EmptyString :: split r
      else match split r with
           | h :: t => String c h :: t
           | [] => [String c EmptyString]
           end
  end.

(** The separator ["\n"]. *)
Definition LF : string := String nl EmptyString.

(** [ls.join(sep)] *)
Definition join (sep : string) (ls : list string) : string := String.concat sep ls.

(** White space and line terminators of ECMAScript in U+0000..U+00FF:
    TAB, LF, VT, FF, CR, SP and NBSP. *)
Definition isSpace (c : ascii) : bool :=
  let n := nat_of_ascii c in
  ((9 <=? n)%nat && (n <=? 13)%nat) || (n =? 32)%nat || (n =? 160)%nat.

Fixpoint trimStart (s : string) : string :=
  match s with
  | EmptyString => EmptyString
  | String c r => if isSpace c then trimStart r else s
  end.

Fixpoint trimEnd (s : string) : string :=
  match s with
  | EmptyString => EmptyString
  | String c r =>
      match trimEnd r with
      | EmptyString => if isSpace c then EmptyString else String c EmptyString
      | r' => String c r'
      end
  end.

(** [s.trim()] *)
Definition trim (s : string) : string := trimEnd (trimStart s).

(** [s.substring(1)] *)
Definition substring1 (s : string) : string :=
  match s with
  | EmptyString => EmptyString
  | String _ r => r
  end.

(** [s.toLowerCase()] on U+0000..U+00FF: A-Z and the Latin-1 capitals
    U+00C0..U+00DE except the multiplication sign U+00D7. *)
Definition lowerChar (c : ascii) : ascii :=
  let n := nat_of_ascii c in
  if ((65 <=? n)%nat && (n <=? 90)%nat)
     || ((192 <=? n)%nat && (n <=? 222)%nat && negb (n =? 215)%nat)
  then ascii_of_nat (n + 32) else c.

Fixpoint toLowerCase (s : string) : string :=
  match s with
  | EmptyString => EmptyString
  | String c r => String (lowerChar c) (toLowerCase r)
  end.

(** The code unit that stands for a code unit above U+00FF (it is U+001A,
    SUBSTITUTE).  No operation of the code tells it apart from the unit it
    stands for: it is no white space and no line terminator, it has no
    lower case, and it occurs in no text the code searches for. *)
Definition wide : string := String "026"%char EmptyString.

(** A string without a line feed: what every element of [split] is. *)
Fixpoint noNewline (s : string) : bool :=
  match s with
  | EmptyString => true
  | String c r => negb (Ascii.eqb c nl) && noNewline r
  end.

End Text.

Import Text.

(** ** Diff post-filters ([applyDiffFilters]) *)

Record DiffOptions := {
  file_path : option string;
  context_lines : option Z;
  ignore_whitespace : option bool;
  max_size : option Z
}.

(** Truthiness of an optional boolean ([if (options.ignore_whitespace)]). *)
Definition truthyBool (b : option bool) : bool :=
  match b with Some true => true | _ => false end.

(** The callback of [lines.filter] in the white-space branch. *)
Definition keepLine (line : string) : bool :=
  if startsWith line "diff --git" || startsWith line "---"
     || startsWith line "+++" || startsWith line "@@"
  then true
  else if (startsWith line "+" || startsWith line "-")
          && String.eqb (trim (substring1 line)) ""
  then false
  else true.

Definition filterWhitespace (diff : string) : string :=
  join LF (List.filter keepLine (split diff)).

(** The loop state of the context-lines branch. *)
Record TrimState := {
  inHunk : bool;
  contextCount : Z;
  filteredLines : list string
}.

Definition trimInit : TrimState :=
  {| inHunk := false; contextCount := 0; filteredLines := [] |}.

(** One iteration of [for (const line of lines)]. *)
Definition trimStep (n : Z) (st : TrimState) (line : string) : TrimState :=
  if startsWith line "@@" then
    {| inHunk := true; contextCount := 0;
       filteredLines := filteredLines st ++ [line] |}
  else if negb (inHunk st) || startsWith line "diff --git"
          || startsWith line "---" || startsWith line "+++" then
    {| inHunk := inHunk st; contextCount := contextCount st;
       filteredLines := filteredLines st ++ [line] |}
  else if startsWith line "+" || startsWith line "-" then
    {| inHunk := inHunk st; contextCount := 0;
       filteredLines := filteredLines st ++ [line] |}
  else if contextCount st <? n then
    {| inHunk := inHunk st; contextCount := contextCount st + 1;
       filteredLines := filteredLines st ++ [line] |}
  else st.

Definition trimLines (n : Z) (lines : list string) : list string :=
  filteredLines (fold_left (trimStep n) lines trimInit).

Definition trimContext (n : Z) (diff : string) : string :=
  join LF (trimLines n (split diff)).

Definition applyDiffFilters (diff : string) (options : DiffOptions) : string :=
  let filteredDiff :=
    if truthyBool (ignore_whitespace options) then filterWhitespace diff
    else diff in
  match context_lines options with
  | Some n => if 0 <=? n then trimContext n filteredDiff else filteredDiff
  | None => filteredDiff
  end.

(** ** Properties of the text primitives *)

Section TextFacts.

Lemma split_nonempty (s : string) : split s <> [].
Proof.
  destruct s as [|c r]; simpl; [discriminate|].
  destruct (Ascii.eqb c nl); [discriminate|].
  destruct (split r); discriminate.
Qed.

Lemma split_noNewline (s : string) : Forall (fun l => noNewline l = true) (split s).
Proof.
  induction s as [|c r IH]; simpl.
  - repeat constructor.
  - destruct (Ascii.eqb c nl) eqn:E.
    + constructor; [reflexivity|exact IH].
    + destruct (split r) as [|h t] eqn:Er.
      * repeat constructor. simpl. rewrite E. reflexivity.
      * inversion IH; subst. constructor; [|assumption].
        simpl. rewrite E. simpl. assumption.
Qed.

Lemma split_line_app (l rest : string) :
  noNewline l = true ->
  split (String.append l (String nl rest)) = l :: split rest.
Proof.
  induction l as [|c r IH]; simpl; intros H.
  - reflexivity.
  - apply andb_true_iff in H as [Hc Hr].
    apply negb_true_iff in Hc. rewrite Hc.
    rewrite (IH Hr). reflexivity.
Qed.

Lemma split_line (l : string) : noNewline l = true -> split l = [l].
Proof.
  induction l as [|c r IH]; simpl; intros H.
  - reflexivity.
  - apply andb_true_iff in H as [Hc Hr].
    apply negb_true_iff in Hc. rewrite Hc.
    rewrite (IH Hr). reflexivity.
Qed.

(** Splitting what [join] built gives the lines back, unless there were none. *)
Lemma split_join (ls : list string) :
  ls <> [] ->
  Forall (fun l => noNewline l = true) ls ->
  split (join LF ls) = ls.
Proof.
  induction ls as [|l ls IH]; intros Hne Hall; [congruence|].
  inversion Hall as [|? ? Hl Hls]; subst.
  destruct ls as [|l' ls'].
  - simpl. apply split_line; assumption.
  - change (join LF (l :: l' :: ls')) with (String.append l (String nl (join LF (l' :: ls')))).
    rewrite split_line_app by assumption.
    rewrite IH; [reflexivity|discriminate|assumption].
Qed.

Lemma join_nil_split : split (join LF []) = [EmptyString].
Proof. reflexivity. Qed.

Lemma join_split (s : string) : join LF (split s) = s.
Proof.
  induction s as [|c r IH]; simpl; [reflexivity|].
  destruct (Ascii.eqb c nl) eqn:E.
  - apply Ascii.eqb_eq in E; subst c.
    pose proof (split_nonempty r) as Hne.
    destruct (split r) as [|h t] eqn:Er; [congruence|].
    change (join LF (EmptyString :: h :: t)) with (String nl (join LF (h :: t))).
    rewrite IH. reflexivity.
  - pose proof (split_nonempty r) as Hne.
    destruct (split r) as [|h t] eqn:Er; [congruence|].
    destruct t as [|h' t'].
    + simpl in *. rewrite IH. reflexivity.
    + change (join LF (String c h :: h' :: t')) with (String c (join LF (h :: h' :: t'))).
      rewrite IH. reflexivity.
Qed.

Lemma append_assoc (a b c : string) :
  String.append (String.append a b) c = String.append a (String.append b c).
Proof.
  induction a as [|x a IH]; [reflexivity|].
  change (String x (String.append (String.append a b) c)
          = String x (String.append a (String.append b c))).
  by rewrite IH.
Qed.

Lemma join_cons_cons (sep x y : string) (r : list string) :
  join sep (x :: y :: r) = String.append x (String.append sep (join sep (y :: r))).
Proof. reflexivity. Qed.

Lemma join_app (sep : string) (l1 l2 : list string) :
  l1 <> [] -> l2 <> [] ->
  join sep (l1 ++ l2)
  = String.append (join sep l1) (String.append sep (join sep l2)).
Proof.
  intros H1 H2. induction l1 as [|x l1 IH]; [congruence|].
  destruct l1 as [|y l1].
  - destruct l2 as [|z l2]; [congruence|]. reflexivity.
  - change ((x :: y :: l1) ++ l2) with (x :: y :: (l1 ++ l2)).
    rewrite !join_cons_cons.
    change (y :: (l1 ++ l2)) with ((y :: l1) ++ l2).
    rewrite IH by discriminate. by rewrite !append_assoc.
Qed.

Lemma append_cancel (a x y : string) :
  String.append a x = String.append a y -> x = y.
Proof.
  induction a as [|c a IH]; [trivial|].
  change (String c (String.append a x) = String c (String.append a y) -> x = y).
  intros [= H]. by apply IH.
Qed.

Lemma append_nil_r (a : string) : String.append a EmptyString = a.
Proof.
  induction a as [|x a IH]; [reflexivity|].
  change (String x (String.append a EmptyString) = String x a). by rewrite IH.
Qed.

Lemma noNewline_append (a b : string) :
  noNewline (String.append a b) = noNewline a && noNewline b.
Proof.
  induction a as [|x a IH]; [reflexivity|].
  change (noNewline (String x (String.append a b))
          = noNewline (String x a) && noNewline b).
  cbn [noNewline]. rewrite IH. by rewrite andb_assoc.
Qed.

Lemma startsWith_append (p s : string) : startsWith (String.append p s) p = true.
Proof.
  induction p as [|c p IH]; [destruct s; reflexivity|].
  change (startsWith (String c (String.append p s)) (String c p) = true).
  cbn [startsWith]. rewrite Ascii.eqb_refl. exact IH.
Qed.

End TextFacts.

(** ** Claims on [applyDiffFilters] *)

(** C10. With [ignore_whitespace] absent or false and [context_lines]
    undefined, [applyDiffFilters] returns its input unchanged, whatever the
    other options are. *)
Theorem applyDiffFilters_identity :
  forall (diff : string) (fp : option string) (ms : option Z),
    applyDiffFilters diff
      {| file_path := fp; context_lines := None;
         ignore_whitespace := None; max_size := ms |} = diff
    /\ applyDiffFilters diff
      {| file_path := fp; context_lines := None;
         ignore_whitespace := Some false; max_size := ms |} = diff.
Proof. intros; split; reflexivity. Qed.

(** *** The two filters keep a subsequence of the lines *)

Section FilterFacts.

Lemma filter_keeps_sublist (f : string -> bool) (ls : list string) :
  sublist (List.filter f ls) ls.
Proof.
  induction ls as [|l ls IH]; simpl; [constructor|].
  destruct (f l); by constructor.
Qed.

Lemma filter_Forall (P : string -> Prop) (f : string -> bool) (ls : list string) :
  Forall P ls -> Forall P (List.filter f ls).
Proof.
  induction 1 as [|l ls Hl Hls IH]; simpl; [constructor|].
  destruct (f l); [by constructor | assumption].
Qed.

(** The loop only appends to [filteredLines], and what it appends is a
    subsequence of the lines it reads. *)
Lemma trimStep_fold_sublist (n : Z) (lines : list string) :
  forall st, exists kept,
    filteredLines (fold_left (trimStep n) lines st) = filteredLines st ++ kept
    /\ sublist kept lines.
Proof.
  induction lines as [|l lines IH]; intros st; simpl.
  - exists []. rewrite app_nil_r. split; [reflexivity|constructor].
  - destruct (IH (trimStep n st l)) as (kept & Hk & Hs). rewrite Hk.
    unfold trimStep.
    repeat match goal with
           | |- context [if ?b then _ else _] => destruct b
           end; simpl;
      try (exists (l :: kept); rewrite <- app_assoc; split;
           [reflexivity | by constructor]).
    exists kept. split; [reflexivity | by constructor].
Qed.

Lemma trimLines_sublist (n : Z) (lines : list string) :
  sublist (trimLines n lines) lines.
Proof.
  unfold trimLines.
  destruct (trimStep_fold_sublist n lines trimInit) as (kept & Hk & Hs).
  rewrite Hk. exact Hs.
Qed.

Lemma sublist_Forall (P : string -> Prop) (k l : list string) :
  sublist k l -> Forall P l -> Forall P k.
Proof.
  induction 1; intros HF; [constructor| |].
  - inversion HF; subst. constructor; auto.
  - inversion HF; subst. auto.
Qed.

Lemma trimLines_single_empty (n : Z) : trimLines n [EmptyString] = [EmptyString].
Proof. reflexivity. Qed.

(** The first line read is always kept: [inHunk] is still false. *)
Lemma trimLines_cons (n : Z) (l : string) (lines : list string) :
  trimLines n (l :: lines) <> [].
Proof.
  unfold trimLines. cbn [fold_left].
  destruct (trimStep_fold_sublist n lines (trimStep n trimInit l)) as (kept & Hk & _).
  rewrite Hk. unfold trimStep.
  destruct (startsWith l "@@"); [cbn [filteredLines trimInit app]; discriminate|].
  change (negb (inHunk trimInit)) with true.
  cbn [orb filteredLines trimInit app]. discriminate.
Qed.

End FilterFacts.

(** C9 as stated: the lines of the output are a subsequence of the lines of
    the input. *)
Definition linesAreSubsequence (diff : string) (options : DiffOptions) : Prop :=
  sublist (split (applyDiffFilters diff options)) (split diff).

(** C9, as stated, fails when every line is deleted: the one line ["+ "] is
    a white-space-only change, the output is the empty string, and the line
    sequence of the empty string is one empty line, which is no line of the
    input. *)
Lemma applyDiffFilters_all_lines_deleted :
  applyDiffFilters "+ " {| file_path := None; context_lines := None;
                           ignore_whitespace := Some true; max_size := None |}
  = EmptyString
  /\ ~ linesAreSubsequence "+ " {| file_path := None; context_lines := None;
                                   ignore_whitespace := Some true; max_size := None |}.
Proof.
  split; [reflexivity|]. unfold linesAreSubsequence.
  change (~ sublist [EmptyString] ["+ "]). intros H.
  inversion H as [| ? ? ? Hs | ? ? ? Hs]; subst; inversion Hs.
Qed.

(** C9, amended.  Whatever the options, the output of [applyDiffFilters] is
    the newline-joining of a subsequence [ls] of the input's lines: lines
    are only deleted, never changed, repeated or reordered.  Unless every
    line was deleted, splitting the output at newlines gives [ls] back.
    Every line is deleted only by white-space suppression, when it keeps no
    line of the input, and the output is then the empty string. *)
Theorem applyDiffFilters_subsequence :
  forall (diff : string) (options : DiffOptions),
  exists ls : list string,
    sublist ls (split diff)
    /\ applyDiffFilters diff options = join LF ls
    /\ (ls <> [] -> split (applyDiffFilters diff options) = ls)
    /\ (ls = [] ->
        applyDiffFilters diff options = EmptyString
        /\ truthyBool (ignore_whitespace options) = true
        /\ List.filter keepLine (split diff) = []).
Proof.
  intros diff options.
  assert (Hback : forall ls, sublist ls (split diff) -> ls <> [] ->
                             split (join LF ls) = ls).
  { intros ls Hs Hne. apply split_join; [exact Hne|].
    eapply sublist_Forall; [exact Hs | apply split_noNewline]. }
  assert (Hsplit : split diff <> []) by apply split_nonempty.
  unfold applyDiffFilters.
  destruct (truthyBool (ignore_whitespace options)) eqn:Hw.
  - (* white-space suppression first *)
    pose proof (filter_keeps_sublist keepLine (split diff)) as Hs1.
    assert (Hempty : List.filter keepLine (split diff) = [] ->
                     join LF (List.filter keepLine (split diff)) = EmptyString
                     /\ true = true /\ List.filter keepLine (split diff) = []).
    { intros He. rewrite He. repeat split. }
    destruct (context_lines options) as [n|];
      [destruct (0 <=? n) eqn:Hn|].
    + unfold trimContext, filterWhitespace.
      destruct (List.filter keepLine (split diff)) as [|k ks] eqn:Hf.
      * exists []. split; [apply sublist_nil_l|]. split; [reflexivity|].
        split; [congruence|]. intros _. repeat split.
      * rewrite (Hback (k :: ks) Hs1) by discriminate.
        exists (trimLines n (k :: ks)).
        assert (Hs2 : sublist (trimLines n (k :: ks)) (split diff)).
        { etransitivity; [apply trimLines_sublist | exact Hs1]. }
        split; [exact Hs2|]. split; [reflexivity|].
        split; [intros Hne; by apply Hback|].
        intros He. by apply trimLines_cons in He.
    + exists (List.filter keepLine (split diff)).
      split; [exact Hs1|]. split; [reflexivity|].
      split; [intros Hne; by apply Hback | exact Hempty].
    + exists (List.filter keepLine (split diff)).
      split; [exact Hs1|]. split; [reflexivity|].
      split; [intros Hne; by apply Hback | exact Hempty].
  - destruct (context_lines options) as [n|];
      [destruct (0 <=? n) eqn:Hn|].
    + exists (trimLines n (split diff)).
      pose proof (trimLines_sublist n (split diff)) as Hs.
      split; [exact Hs|]. split; [reflexivity|].
      split; [intros Hne; unfold trimContext; by apply Hback|].
      intros He. destruct (split diff) as [|l ls]; [congruence|].
      by apply trimLines_cons in He.
    + exists (split diff). split; [reflexivity|].
      rewrite join_split. split; [reflexivity|].
      split; [reflexivity | congruence].
    + exists (split diff). split; [reflexivity|].
      rewrite join_split. split; [reflexivity|].
      split; [reflexivity | congruence].
Qed.

(** *** White-space suppression *)

(** A file-pair header, a [---]/[+++] file line or a hunk header. *)
Definition isHeaderLine (line : string) : bool :=
  startsWith line "diff --git" || startsWith line "---"
  || startsWith line "+++" || startsWith line "@@".

Definition whitespaceOnly (fp : option string) (ms : option Z) : DiffOptions :=
  {| file_path := fp; context_lines := None;
     ignore_whitespace := Some true; max_size := ms |}.

Section WhitespaceFacts.

Lemma keepLine_header (line : string) : isHeaderLine line = true -> keepLine line = true.
Proof. unfold isHeaderLine, keepLine. intros ->. reflexivity. Qed.

Lemma filter_twice (f : string -> bool) (ls : list string) :
  List.filter f (List.filter f ls) = List.filter f ls.
Proof.
  induction ls as [|l ls IH]; simpl; [reflexivity|].
  destruct (f l) eqn:E; simpl; [rewrite E, IH|]; auto.
Qed.

Lemma filter_header_keep (ls : list string) :
  List.filter isHeaderLine (List.filter keepLine ls) = List.filter isHeaderLine ls.
Proof.
  induction ls as [|l ls IH]; simpl; [reflexivity|].
  destruct (keepLine l) eqn:Ek; simpl.
  - rewrite IH. reflexivity.
  - destruct (isHeaderLine l) eqn:Eh; [|exact IH].
    apply keepLine_header in Eh. congruence.
Qed.

Lemma filterWhitespace_lines (diff : string) :
  List.filter keepLine (split diff) <> [] ->
  split (filterWhitespace diff) = List.filter keepLine (split diff).
Proof.
  intros Hne. unfold filterWhitespace. apply split_join; [exact Hne|].
  apply filter_Forall, split_noNewline.
Qed.

Lemma filterWhitespace_idempotent (diff : string) :
  filterWhitespace (filterWhitespace diff) = filterWhitespace diff.
Proof.
  destruct (List.filter keepLine (split diff)) as [|k ks] eqn:Hf.
  - assert (He : filterWhitespace diff = EmptyString)
      by (unfold filterWhitespace; rewrite Hf; reflexivity).
    rewrite He. reflexivity.
  - assert (Hl : split (filterWhitespace diff) = List.filter keepLine (split diff))
      by (apply filterWhitespace_lines; rewrite Hf; discriminate).
    unfold filterWhitespace at 1. rewrite Hl, filter_twice. reflexivity.
Qed.

End WhitespaceFacts.

(** C6. White-space suppression applied twice gives what it gives once, and
    the header lines of the output (file-pair, [---], [+++] and [@@] lines)
    are those of the input, each of them and in the same order. *)
Theorem whitespace_filter_idempotent_keeps_headers :
  forall (diff : string) (fp : option string) (ms : option Z),
    applyDiffFilters (applyDiffFilters diff (whitespaceOnly fp ms)) (whitespaceOnly fp ms)
    = applyDiffFilters diff (whitespaceOnly fp ms)
    /\ List.filter isHeaderLine (split (applyDiffFilters diff (whitespaceOnly fp ms)))
       = List.filter isHeaderLine (split diff).
Proof.
  intros diff fp ms. unfold applyDiffFilters, whitespaceOnly; simpl. split.
  - apply filterWhitespace_idempotent.
  - destruct (List.filter keepLine (split diff)) as [|k ks] eqn:Hf.
    + unfold filterWhitespace. rewrite Hf. simpl.
      rewrite <- filter_header_keep, Hf. reflexivity.
    + rewrite filterWhitespace_lines by (rewrite Hf; discriminate).
      apply filter_header_keep.
Qed.

(** *** Context trimming *)

(** The classes of lines the loop of the context branch tells apart, in
    the order of its tests. *)
Definition isHunkHeader (line : string) : bool := startsWith line "@@".

Definition isFileHeader (line : string) : bool :=
  negb (isHunkHeader line)
  && (startsWith line "diff --git" || startsWith line "---" || startsWith line "+++").

Definition isChange (line : string) : bool :=
  negb (isHunkHeader line) && negb (isFileHeader line)
  && (startsWith line "+" || startsWith line "-").

Definition isContext (line : string) : bool :=
  negb (isHunkHeader line) && negb (isFileHeader line) && negb (isChange line).

(** The lines read so far hold a hunk header. *)
Definition afterHunkHeader (pre : list string) : bool := existsb isHunkHeader pre.

(** The context lines among the lines read since the most recent hunk
    header or change line; [rpre] is the lines read so far, latest first. *)
Fixpoint contextRunRev (rpre : list string) : Z :=
  match rpre with
  | [] => 0
  | l :: r =>
      if isHunkHeader l || isChange l then 0
      else (if isContext l then 1 else 0) + contextRunRev r
  end.

Definition contextRun (pre : list string) : Z := contextRunRev (rev pre).

(** What the specification of context trimming removes: a context line
    that follows a hunk header and has at least [n] context lines between
    it and the most recent hunk header or change line. *)
Definition trimmed (n : Z) (pre : list string) (line : string) : bool :=
  afterHunkHeader pre && isContext line && (n <=? contextRun pre).

Fixpoint keptFrom (n : Z) (pre rest : list string) : list string :=
  match rest with
  | [] => []
  | l :: r =>
      (if trimmed n pre l then [] else [l]) ++ keptFrom n (pre ++ [l]) r
  end.

Definition trimSpec (n : Z) (lines : list string) : list string := keptFrom n [] lines.

(** A hunk of the unified-diff format: the lines from a hunk header up to
    the next file-pair header.  [rpre] is the lines read so far, latest
    first. *)
Fixpoint insideHunkRev (rpre : list string) : bool :=
  match rpre with
  | [] => false
  | l :: r =>
      if startsWith l "@@" then true
      else if startsWith l "diff --git" then false
      else insideHunkRev r
  end.

Definition insideHunk (pre : list string) : bool := insideHunkRev (rev pre).

Definition contextOnly (n : Z) : DiffOptions :=
  {| file_path := None; context_lines := Some n;
     ignore_whitespace := None; max_size := None |}.

(** The claim on lines outside hunks, with hunks as the diff format has
    them: a line that is in no hunk is in the output. *)
Definition passesLinesOutsideHunks (n : Z) (diff : string) : Prop :=
  forall pre line post,
    split diff = pre ++ line :: post ->
    insideHunk (pre ++ [line]) = false ->
    In line (split (applyDiffFilters diff (contextOnly n))).

Section TrimFacts.

Variable n : Z.
Hypothesis n_nonneg : 0 <= n.

(** The loop state after reading [pre]. *)
Definition trimAfter (pre : list string) : TrimState :=
  fold_left (trimStep n) pre trimInit.

Lemma contextRun_nonneg (pre : list string) : 0 <= contextRun pre.
Proof.
  unfold contextRun. induction (rev pre) as [|l r IH]; simpl; [lia|].
  destruct (isHunkHeader l || isChange l); [lia|].
  destruct (isContext l); lia.
Qed.

Lemma contextRun_snoc (pre : list string) (l : string) :
  contextRun (pre ++ [l]) =
  if isHunkHeader l || isChange l then 0
  else (if isContext l then 1 else 0) + contextRun pre.
Proof. unfold contextRun. rewrite rev_unit. reflexivity. Qed.

Lemma afterHunkHeader_snoc (pre : list string) (l : string) :
  afterHunkHeader (pre ++ [l]) = afterHunkHeader pre || isHunkHeader l.
Proof. unfold afterHunkHeader. rewrite existsb_app. simpl. by rewrite orb_false_r. Qed.

(** The loop variables in terms of the lines read. *)
Lemma trimAfter_state (pre : list string) :
  inHunk (trimAfter pre) = afterHunkHeader pre
  /\ (afterHunkHeader pre = false -> contextCount (trimAfter pre) = 0)
  /\ (afterHunkHeader pre = true ->
      contextCount (trimAfter pre) = Z.min n (contextRun pre)).
Proof.
  induction pre as [|l pre IH] using rev_ind.
  - cbn. repeat split; try reflexivity; discriminate.
  - unfold trimAfter in *. rewrite fold_left_app. simpl.
    set (st := fold_left (trimStep n) pre trimInit) in *.
    destruct IH as (Hin & H0 & H1). clearbody st.
    rewrite afterHunkHeader_snoc, contextRun_snoc.
    pose proof (contextRun_nonneg pre) as Hge.
    unfold trimStep, isContext, isChange, isFileHeader, isHunkHeader.
    destruct (startsWith l "@@") eqn:Ehh; simpl.
    { rewrite orb_true_r. repeat split; try discriminate; intros; lia. }
    rewrite orb_false_r, Hin.
    destruct (afterHunkHeader pre) eqn:Eah; simpl.
    2:{ repeat split; auto; discriminate. }
    specialize (H1 eq_refl).
    destruct (startsWith l "diff --git" || startsWith l "---" || startsWith l "+++")
      eqn:Efh; simpl.
    { repeat split; try discriminate. intros _. rewrite H1. lia. }
    destruct (startsWith l "+" || startsWith l "-") eqn:Ech; simpl.
    { repeat split; try discriminate; intros; lia. }
    destruct (contextCount st <? n) eqn:Elt; simpl.
    + apply Z.ltb_lt in Elt. repeat split; try discriminate; intros; lia.
    + apply Z.ltb_ge in Elt. repeat split; try discriminate; try assumption; intros; lia.
Qed.

(** One iteration drops the line exactly when the specification trims it. *)
Lemma trimStep_trimmed (pre : list string) (l : string) :
  filteredLines (trimStep n (trimAfter pre) l) =
  filteredLines (trimAfter pre) ++ (if trimmed n pre l then [] else [l]).
Proof.
  destruct (trimAfter_state pre) as (Hin & H0 & H1).
  pose proof (contextRun_nonneg pre) as Hge.
  unfold trimStep, trimmed, isContext, isChange, isFileHeader, isHunkHeader.
  rewrite Hin.
  destruct (startsWith l "@@"); simpl.
  { by rewrite andb_false_r. }
  destruct (afterHunkHeader pre) eqn:Eah; simpl; [|reflexivity].
  destruct (startsWith l "diff --git" || startsWith l "---" || startsWith l "+++");
    simpl; [reflexivity|].
  destruct (startsWith l "+" || startsWith l "-"); simpl; [reflexivity|].
  rewrite (H1 eq_refl).
  destruct (Z.min n (contextRun pre) <? n) eqn:Elt.
  - apply Z.ltb_lt in Elt.
    replace (n <=? contextRun pre) with false by (symmetry; apply Z.leb_gt; lia).
    reflexivity.
  - apply Z.ltb_ge in Elt.
    replace (n <=? contextRun pre) with true by (symmetry; apply Z.leb_le; lia).
    by rewrite app_nil_r.
Qed.

Lemma trim_fold_keptFrom (rest : list string) :
  forall pre,
    filteredLines (fold_left (trimStep n) rest (trimAfter pre)) =
    filteredLines (trimAfter pre) ++ keptFrom n pre rest.
Proof.
  induction rest as [|l rest IH]; intros pre; simpl.
  - by rewrite app_nil_r.
  - replace (trimStep n (trimAfter pre) l) with (trimAfter (pre ++ [l]))
      by (unfold trimAfter; rewrite fold_left_app; reflexivity).
    rewrite IH. unfold trimAfter at 1. rewrite fold_left_app. simpl.
    fold (trimAfter pre). rewrite trimStep_trimmed, <- app_assoc. reflexivity.
Qed.

Lemma trimLines_trimSpec (lines : list string) : trimLines n lines = trimSpec n lines.
Proof. exact (trim_fold_keptFrom lines []). Qed.

End TrimFacts.

(** A diff of two files; the second file has an [index] line between its
    file-pair header and its [---] line. *)
Definition twoFileDiff : string :=
  join LF
    [ "diff --git a/x.ts b/x.ts"; "--- a/x.ts"; "+++ b/x.ts";
      "@@ -1 +1 @@"; "-old"; "+new";
      "diff --git a/y.ts b/y.ts"; "index 1111111..2222222 100644";
      "--- a/y.ts"; "+++ b/y.ts"; "@@ -1 +1 @@"; "-left"; "+right" ].

(** A diff of two files, each with its [index] line; the second file is
    new.  The hunk of the first file ends with three unchanged lines. *)
Definition metadataDiff : string :=
  join LF
    [ "diff --git a/x.ts b/x.ts"; "index 1111111..2222222 100644";
      "--- a/x.ts"; "+++ b/x.ts"; "@@ -1,4 +1,4 @@"; "-old"; "+new";
      " one"; " two"; " three";
      "diff --git a/y.ts b/y.ts"; "new file mode 100644"; "index 0000000..3333333";
      "--- /dev/null"; "+++ b/y.ts"; "@@ -0,0 +1 @@"; "+right" ].

(** C5 at [metadataDiff] with [context_lines = 3]: no unchanged line of a
    hunk is beyond the first three after a change, so the claim has the
    text returned as it is.  The loop never clears [inHunk] at a file-pair
    header: it keeps the [index] line of the first file, read before any
    hunk header, and drops the [new file mode] and [index] lines of the
    second file, which lie between a file-pair header and the next hunk
    header and so in no hunk, as the fourth and fifth unchanged lines since
    the last change. *)
Theorem trimContext_drops_file_metadata :
  split (applyDiffFilters metadataDiff (contextOnly 3))
  = [ "diff --git a/x.ts b/x.ts"; "index 1111111..2222222 100644";
      "--- a/x.ts"; "+++ b/x.ts"; "@@ -1,4 +1,4 @@"; "-old"; "+new";
      " one"; " two"; " three";
      "diff --git a/y.ts b/y.ts";
      "--- /dev/null"; "+++ b/y.ts"; "@@ -0,0 +1 @@"; "+right" ]
  /\ insideHunk [ "diff --git a/x.ts b/x.ts"; "index 1111111..2222222 100644" ] = false
  /\ insideHunk [ "diff --git a/x.ts b/x.ts"; "index 1111111..2222222 100644";
                  "--- a/x.ts"; "+++ b/x.ts"; "@@ -1,4 +1,4 @@"; "-old"; "+new";
                  " one"; " two"; " three";
                  "diff --git a/y.ts b/y.ts"; "new file mode 100644" ] = false
  /\ ~ passesLinesOutsideHunks 3 metadataDiff
  /\ ~ passesLinesOutsideHunks 0 twoFileDiff.
Proof.
  split; [vm_compute; reflexivity|]. split; [reflexivity|]. split; [reflexivity|].
  split; intros H.
  - specialize (H [ "diff --git a/x.ts b/x.ts"; "index 1111111..2222222 100644";
                    "--- a/x.ts"; "+++ b/x.ts"; "@@ -1,4 +1,4 @@"; "-old"; "+new";
                    " one"; " two"; " three"; "diff --git a/y.ts b/y.ts" ]
                  "new file mode 100644"
                  [ "index 0000000..3333333"; "--- /dev/null"; "+++ b/y.ts";
                    "@@ -0,0 +1 @@"; "+right" ]
                  eq_refl eq_refl).
    vm_compute in H.
    repeat (destruct H as [H|H]; [discriminate H|]). exact H.
  - specialize (H [ "diff --git a/x.ts b/x.ts"; "--- a/x.ts"; "+++ b/x.ts";
                    "@@ -1 +1 @@"; "-old"; "+new"; "diff --git a/y.ts b/y.ts" ]
                  "index 1111111..2222222 100644"
                  [ "--- a/y.ts"; "+++ b/y.ts"; "@@ -1 +1 @@"; "-left"; "+right" ]
                  eq_refl eq_refl).
    vm_compute in H.
    repeat (destruct H as [H|H]; [discriminate H|]). exact H.
Qed.

(** X30. What the context filter does.  For [0 <= n] it returns the lines
    that [trimmed] does not remove, joined by newlines.  [trimmed] removes no
    line read before the first hunk header, no header line (file-pair,
    [---], [+++], [@@]) and no [+]/[-] line; after the first hunk header it
    removes exactly the other lines that have at least [n] such lines
    between them and the most recent hunk header or [+]/[-] line.  A
    file-pair header does not end that region. *)
Theorem trimContext_spec :
  forall (n : Z) (diff : string),
    0 <= n ->
    applyDiffFilters diff (contextOnly n) = join LF (trimSpec n (split diff))
    /\ (forall pre line, afterHunkHeader pre = false -> trimmed n pre line = false)
    /\ (forall pre line, isHeaderLine line = true -> trimmed n pre line = false)
    /\ (forall pre line,
          (startsWith line "+" || startsWith line "-") = true ->
          trimmed n pre line = false)
    /\ (forall pre line,
          trimmed n pre line = true <->
          afterHunkHeader pre = true /\ n <= contextRun pre
          /\ isHeaderLine line = false
          /\ (startsWith line "+" || startsWith line "-") = false).
Proof.
  intros n diff Hn. split; [|split; [|split; [|split]]].
  - unfold applyDiffFilters, contextOnly; simpl.
    apply Z.leb_le in Hn. rewrite Hn. unfold trimContext.
    rewrite trimLines_trimSpec by (by apply Z.leb_le). reflexivity.
  - intros pre line H. unfold trimmed. rewrite H. reflexivity.
  - intros pre line H. unfold trimmed, isContext, isChange, isFileHeader, isHunkHeader.
    unfold isHeaderLine in H.
    destruct (startsWith line "@@"); simpl; [by rewrite andb_false_r|].
    rewrite orb_false_r in H. rewrite H. simpl. by rewrite andb_false_r.
  - intros pre line H. unfold trimmed, isContext, isChange, isFileHeader, isHunkHeader.
    rewrite H.
    destruct (startsWith line "@@"); simpl; [by rewrite andb_false_r|].
    destruct (startsWith line "diff --git" || startsWith line "---"
              || startsWith line "+++"); simpl; by rewrite andb_false_r.
  - intros pre line.
    unfold trimmed, isContext, isChange, isFileHeader, isHunkHeader, isHeaderLine.
    destruct (afterHunkHeader pre); simpl; [|split; [discriminate|intros [? _]; discriminate]].
    destruct (startsWith line "@@"); simpl.
    { rewrite orb_true_r. split; [discriminate|]. intros (_ & _ & ? & _). discriminate. }
    rewrite orb_false_r.
    destruct (startsWith line "diff --git" || startsWith line "---"
              || startsWith line "+++"); simpl.
    { split; [discriminate|]. intros (_ & _ & ? & _). discriminate. }
    destruct (startsWith line "+" || startsWith line "-"); simpl.
    { split; [discriminate|]. intros (_ & _ & _ & ?). discriminate. }
    rewrite Z.leb_le. tauto.
Qed.

Lemma trimContext_spec_witness :
  0 <= 0
  /\ applyDiffFilters twoFileDiff (contextOnly 0)
     = join LF (trimSpec 0 (split twoFileDiff)).
Proof.
  split; [lia|]. apply (trimContext_spec 0 twoFileDiff). lia.
Defined.

(** ** The TTL cache ([SimpleCache]) *)

Module Cache.

Record CacheEntry (T : Type) := {
  data : T;
  timestamp : Z;
  ttl : Z
}.
Arguments data {T} _.
Arguments timestamp {T} _.
Arguments ttl {T} _.

Section SimpleCache.

Context {T : Type}.

(** The test of [get], [has] and [cleanup]: [now - entry.timestamp > entry.ttl]. *)
Definition expired (now : Z) (entry : CacheEntry T) : bool :=
  ttl entry <? now - timestamp entry.

(** [set(key, data, ttlMs)] at time [now = Date.now()]. *)
Definition set (now : Z) (key : string) (d : T) (ttlMs : Z)
    (cache : gmap string (CacheEntry T)) : gmap string (CacheEntry T) :=
  <[key := {| data := d; timestamp := now; ttl := ttlMs |}]> cache.

(** [get(key)] at time [now]: the value returned and the map left behind. *)
Definition get (now : Z) (key : string) (cache : gmap string (CacheEntry T))
    : option T * gmap string (CacheEntry T) :=
  match cache !! key with
  | None => (None, cache)
  | Some entry =>
      if expired now entry then (None, delete key cache)
      else (Some (data entry), cache)
  end.

(** [has(key)] at time [now]. *)
Definition has (now : Z) (key : string) (cache : gmap string (CacheEntry T))
    : bool * gmap string (CacheEntry T) :=
  match cache !! key with
  | None => (false, cache)
  | Some entry =>
      if expired now entry then (false, delete key cache) else (true, cache)
  end.

(** [cleanup()] at time [now]: collect the expired keys, then delete them. *)
Definition expiredKeys (now : Z) (cache : gmap string (CacheEntry T)) : list string :=
  (List.filter (fun kv => expired now (snd kv)) (map_to_list cache)).*1.

Definition cleanup (now : Z) (cache : gmap string (CacheEntry T))
    : gmap string (CacheEntry T) :=
  foldr delete cache (expiredKeys now cache).

Lemma lookup_foldr_delete (ks : list string) (cache : gmap string (CacheEntry T)) (k : string) :
  foldr delete cache ks !! k = if decide (k ∈ ks) then None else cache !! k.
Proof.
  induction ks as [|k' ks IH]; simpl.
  - destruct (decide (k ∈ [])) as [H|H]; [by apply elem_of_nil in H | reflexivity].
  - destruct (decide (k' = k)) as [->|Hne].
    + rewrite lookup_delete_eq. rewrite decide_True; [reflexivity | by left].
    + rewrite lookup_delete_ne by exact Hne. rewrite IH.
      destruct (decide (k ∈ ks)) as [Hin|Hnin].
      * rewrite decide_True; [reflexivity | by right].
      * rewrite decide_False; [reflexivity|].
        intros [?|?]%elem_of_cons; [congruence|contradiction].
Qed.

Lemma elem_of_expiredKeys (now : Z) (cache : gmap string (CacheEntry T)) (k : string) :
  k ∈ expiredKeys now cache <->
  exists entry, cache !! k = Some entry /\ expired now entry = true.
Proof.
  unfold expiredKeys. rewrite list_elem_of_fmap. split.
  - intros ([k' e] & -> & Hin). simpl.
    apply list_elem_of_In, filter_In in Hin as [Hin Hex].
    apply list_elem_of_In, elem_of_map_to_list in Hin. eauto.
  - intros (e & Hl & Hex). exists (k, e). split; [reflexivity|].
    apply list_elem_of_In, filter_In. split; [|exact Hex].
    apply list_elem_of_In, elem_of_map_to_list. exact Hl.
Qed.

(** The sweep leaves exactly the entries that [get] would still return. *)
Lemma lookup_cleanup (now : Z) (cache : gmap string (CacheEntry T)) (k : string) :
  cleanup now cache !! k =
  match cache !! k with
  | Some entry => if expired now entry then None else Some entry
  | None => None
  end.
Proof.
  unfold cleanup. rewrite lookup_foldr_delete.
  destruct (decide (k ∈ expiredKeys now cache)) as [H|H].
  - apply elem_of_expiredKeys in H as (e & -> & ->). reflexivity.
  - destruct (cache !! k) as [e|] eqn:Hl; [|reflexivity].
    destruct (expired now e) eqn:He; [|reflexivity].
    exfalso. apply H, elem_of_expiredKeys. eauto.
Qed.

(** Sweep and lazy expiry agree: a sweep at the time of the read does not
    change what [get] returns. *)
Lemma get_after_cleanup (now : Z) (cache : gmap string (CacheEntry T)) (k : string) :
  fst (get now k (cleanup now cache)) = fst (get now k cache).
Proof.
  unfold get. rewrite lookup_cleanup.
  destruct (cache !! k) as [e|]; [|reflexivity].
  destruct (expired now e) eqn:He; [reflexivity|]. rewrite He. reflexivity.
Qed.

End SimpleCache.

(** C7. [get] returns a value exactly when the key has an entry whose age
    [now - timestamp] is at most its TTL, and then it is the stored value
    and the map is unchanged; otherwise it returns nothing and the map left
    behind is the map without the key.  So no value older than its TTL is
    returned, and a value set with a TTL of 100 ms is absent 150 ms later. *)
Theorem get_spec :
  forall (T : Type) (now : Z) (key : string) (cache : gmap string (CacheEntry T)),
    (forall v : T,
        fst (get now key cache) = Some v <->
        exists entry, cache !! key = Some entry
                      /\ now - timestamp entry <= ttl entry
                      /\ data entry = v)
    /\ (fst (get now key cache) = None -> snd (get now key cache) = delete key cache)
    /\ (fst (get now key cache) <> None -> snd (get now key cache) = cache)
    /\ (forall (t : Z) (v : T),
          fst (get (t + 150) key (set t key v 100 cache)) = None).
Proof.
  intros T now key cache. unfold get, expired. repeat split.
  - destruct (cache !! key) as [e|] eqn:Hl; [|discriminate].
    destruct (ttl e <? now - timestamp e) eqn:He; [discriminate|].
    simpl. intros [= <-]. exists e. apply Z.ltb_ge in He. auto.
  - intros (e & -> & Hage & <-).
    replace (ttl e <? now - timestamp e) with false
      by (symmetry; apply Z.ltb_ge; lia).
    reflexivity.
  - destruct (cache !! key) as [e|] eqn:Hl.
    + destruct (ttl e <? now - timestamp e); [reflexivity|discriminate].
    + intros _. simpl. symmetry. by apply delete_id.
  - destruct (cache !! key) as [e|] eqn:Hl; [|simpl; congruence].
    destruct (ttl e <? now - timestamp e); [simpl; congruence|reflexivity].
  - intros t v. unfold set. rewrite lookup_insert_eq. simpl.
    replace (100 <? t + 150 - t) with true by (symmetry; apply Z.ltb_lt; lia).
    reflexivity.
Qed.

End Cache.

(** ** The transport layer ([setupInterceptors]) *)

Module Transport.

(** The numbers of the pacing arithmetic: an integer, or the NaN that
    [parseInt] gives for a text that does not start with a number. *)
Inductive JsNumber :=
| Int (z : Z)
| NaN.

Coercion Int : Z >-> JsNumber.

(** [x > 0], false of NaN. *)
Definition positive (x : JsNumber) : bool :=
  match x with Int z => 0 <? z | NaN => false end.

(** [x * k] and [x - k] for an integer [k]. *)
Definition times (x : JsNumber) (k : Z) : JsNumber :=
  match x with Int z => Int (z * k) | NaN => NaN end.

Definition minus (x : JsNumber) (k : Z) : JsNumber :=
  match x with Int z => Int (z - k) | NaN => NaN end.

(** [Math.min(x, k)] and [Math.max(k, x)]: NaN when [x] is. *)
Definition mathMin (x : JsNumber) (k : Z) : JsNumber :=
  match x with Int z => Int (Z.min z k) | NaN => NaN end.

Definition mathMax (k : Z) (x : JsNumber) : JsNumber :=
  match x with Int z => Int (Z.max k z) | NaN => NaN end.

(** What the server answers to one attempt.  [retryAfter] is
    [parseInt(error.response.headers['retry-after'])] for an error response
    whose [retry-after] header is there and not empty: the number of
    seconds, or NaN for a header in the HTTP-date form. *)
Inductive Response :=
| Success (body : string)
| HttpError (status : Z) (retryAfter : option JsNumber)
| NetworkError.

(** The two marks the response interceptor leaves on the request
    configuration.  The interceptor is given the configuration of the
    request that failed ([error.config], taken as present), and a retry is
    sent with that configuration. *)
Record RequestConfig := {
  _retry : bool;
  _retryCount : Z
}.

Definition freshConfig : RequestConfig := {| _retry := false; _retryCount := 0 |}.

Definition maxRetries : Z := 3.

(** What the layer does, in order. *)
Inductive Event :=
| Pace (ms : Z)                       (* the wait of the request interceptor *)
| Send                                (* one attempt on the wire *)
| RateLimitWait (ms : JsNumber)       (* the wait before the retry of a 429 *)
| Backoff (attempt : Z) (ms : Z).     (* the wait before the retry of a 5xx *)

Inductive Outcome :=
| Resolved (body : string)
| Rejected (error : Response).

Record Run := {
  outcome : option Outcome;    (* [None]: the server script ran out *)
  rateLimitDelay : JsNumber;
  events : list Event
}.

(** The request interceptor: [if (this.rateLimitDelay > 0) await ...]. *)
Definition pace (delay : JsNumber) : list Event :=
  match delay with
  | Int ms => if 0 <? ms then [Pace ms] else []
  | NaN => []
  end.

(** [this.client.request(config)]: the request interceptor, one attempt,
    the response interceptor, and the retries it starts.  [server] scripts
    the answers to the successive attempts. *)
Fixpoint request (server : list Response) (config : RequestConfig) (delay : JsNumber)
    (log : list Event) : Run :=
  match server with
  | [] => {| outcome := None; rateLimitDelay := delay; events := log ++ pace delay |}
  | response :: server' =>
      let log := log ++ pace delay ++ [Send] in
      match response with
      | Success body =>
          {| outcome := Some (Resolved body);
             rateLimitDelay := mathMax 100 (minus delay 50);
             events := log |}
      | NetworkError =>
          {| outcome := Some (Rejected response); rateLimitDelay := delay;
             events := log |}
      | HttpError status retryAfter =>
          let wait :=
            match retryAfter with
            | Some seconds => times seconds 1000
            | None => times delay 2
            end in
          let delay' := if status =? 429 then mathMin wait 10000 else delay in
          if (status =? 429) && negb (_retry config) then
            request server'
              {| _retry := true; _retryCount := _retryCount config |}
              delay' (log ++ [RateLimitWait wait])
          else if (500 <=? status) && (_retryCount config <? maxRetries) then
            request server'
              {| _retry := _retry config; _retryCount := _retryCount config + 1 |}
              delay'
              (log ++ [Backoff (_retryCount config) (2 ^ _retryCount config * 1000)])
          else
            {| outcome := Some (Rejected response); rateLimitDelay := delay';
               events := log |}
      end
  end.

(** The waits before the retries of 5xx responses, as (attempt, ms). *)
Definition backoffs (log : list Event) : list (Z * Z) :=
  omap (fun e => match e with Backoff a ms => Some (a, ms) | _ => None end) log.

Definition sends (log : list Event) : nat :=
  List.length (List.filter (fun e => match e with Send => true | _ => false end) log).

(** The schedule of [maxRetries] back-off waits starting at attempt [k]. *)
Fixpoint schedule (k : Z) (retries : nat) : list (Z * Z) :=
  match retries with
  | O => []
  | S r => (k, 2 ^ k * 1000) :: schedule (k + 1) r
  end.

(** An error response with a status of 500 or more, and one with the
    status 429. *)
Definition isServerError (r : Response) : bool :=
  match r with
  | HttpError status _ => 500 <=? status
  | _ => false
  end.

Definition isRateLimit (r : Response) : bool :=
  match r with
  | HttpError status _ => status =? 429
  | _ => false
  end.

Definition count (p : Response -> bool) (answers : list Response) : nat :=
  List.length (List.filter p answers).

(** How the request ends on an answer that is not retried. *)
Definition outcomeOf (r : Response) : Outcome :=
  match r with
  | Success body => Resolved body
  | _ => Rejected r
  end.

Section RetryFacts.

Lemma backoffs_app (l1 l2 : list Event) : backoffs (l1 ++ l2) = backoffs l1 ++ backoffs l2.
Proof. unfold backoffs. apply omap_app. Qed.

Lemma backoffs_pace (delay : JsNumber) : backoffs (pace delay) = [].
Proof. unfold pace. destruct delay as [ms|]; [destruct (0 <? ms)|]; reflexivity. Qed.

Lemma sends_app (l1 l2 : list Event) : sends (l1 ++ l2) = (sends l1 + sends l2)%nat.
Proof. unfold sends. rewrite List.filter_app, length_app. reflexivity. Qed.

Lemma sends_pace (delay : JsNumber) : sends (pace delay) = 0%nat.
Proof. unfold pace. destruct delay as [ms|]; [destruct (0 <? ms)|]; reflexivity. Qed.

(** With [k] retries already counted, the back-off waits that follow are
    the start of the schedule from attempt [k], at most [maxRetries - k]
    of them. *)
Lemma request_backoffs (server : list Response) :
  forall (config : RequestConfig) (delay : JsNumber) (log : list Event),
    0 <= _retryCount config <= maxRetries ->
    exists m : nat,
      (Z.of_nat m <= maxRetries - _retryCount config)
      /\ backoffs (events (request server config delay log))
         = backoffs log ++ schedule (_retryCount config) m.
Proof.
  induction server as [|r server IH]; intros config delay log Hk; simpl.
  - exists 0%nat. rewrite backoffs_app, backoffs_pace. simpl. split; [lia|reflexivity].
  - assert (Hlog : backoffs (log ++ pace delay ++ [Send]) = backoffs log).
    { rewrite !backoffs_app, backoffs_pace. simpl. by rewrite app_nil_r. }
    destruct r as [body|status ra|]; simpl.
    + exists 0%nat. rewrite Hlog, app_nil_r. split; [lia|reflexivity].
    + destruct ((status =? 429) && negb (_retry config)).
      * edestruct (IH {| _retry := true; _retryCount := _retryCount config |})
          as (m & Hm & ->); [exact Hk|].
        exists m. split; [exact Hm|].
        rewrite backoffs_app, Hlog. simpl. by rewrite app_nil_r.
      * destruct ((500 <=? status) && (_retryCount config <? maxRetries)) eqn:E.
        -- apply andb_true_iff in E as [_ Hlt]. apply Z.ltb_lt in Hlt.
           edestruct (IH {| _retry := _retry config;
                            _retryCount := _retryCount config + 1 |})
             as (m & Hm & ->); [simpl; lia|].
           simpl in *. exists (S m). split; [lia|].
           rewrite backoffs_app, Hlog. simpl. rewrite <- app_assoc. reflexivity.
        -- exists 0%nat. simpl. rewrite Hlog, app_nil_r. split; [lia|reflexivity].
    + exists 0%nat. rewrite Hlog, app_nil_r. split; [lia|reflexivity].
Qed.

(** Each attempt uses up one scripted answer, and at most
    [1 + (maxRetries - k)] answers (one more before the 429 retry) are
    needed: with that many the script does not run out. *)
Lemma request_returns (server : list Response) :
  forall (config : RequestConfig) (delay : JsNumber) (log : list Event),
    0 <= _retryCount config <= maxRetries ->
    (Z.of_nat (List.length server)
       >= 1 + (maxRetries - _retryCount config) + (if _retry config then 0 else 1)) ->
    outcome (request server config delay log) <> None.
Proof.
  induction server as [|r server IH]; intros config delay log Hk Hlen; simpl in *.
  - destruct (_retry config); lia.
  - destruct r as [body|status ra|]; simpl; try discriminate.
    destruct ((status =? 429) && negb (_retry config)) eqn:E429.
    + apply andb_true_iff in E429 as [_ Hr]. apply negb_true_iff in Hr.
      apply IH; simpl; [exact Hk|]. rewrite Hr in Hlen. lia.
    + destruct ((500 <=? status) && (_retryCount config <? maxRetries)) eqn:E.
      * apply andb_true_iff in E as [_ Hlt]. apply Z.ltb_lt in Hlt.
        apply IH; simpl; [lia|]. destruct (_retry config); lia.
      * simpl. discriminate.
Qed.

Lemma count_cons (p : Response -> bool) (r : Response) (answers : list Response) :
  count p (r :: answers) = ((if p r then 1 else 0) + count p answers)%nat.
Proof. unfold count. cbn [List.filter]. destruct (p r); reflexivity. Qed.

(** The answers a request uses up, from a configuration with [k] retries
    counted: the answers it retries, each a 5xx or a 429, and the answer it
    ends on.  A 5xx is the last answer only when [maxRetries] retries are
    counted, a 429 only when the request was already retried for one. *)
Lemma request_retried (server : list Response) :
  forall (config : RequestConfig) (delay : JsNumber) (log : list Event),
    0 <= _retryCount config <= maxRetries ->
    exists retried : list Response,
      Forall (fun r => isServerError r || isRateLimit r = true) retried
      /\ _retryCount config + Z.of_nat (count isServerError retried) <= maxRetries
      /\ (count isRateLimit retried <= (if _retry config then 0 else 1))%nat
      /\ backoffs (events (request server config delay log))
         = backoffs log ++ schedule (_retryCount config) (count isServerError retried)
      /\ match outcome (request server config delay log) with
         | Some o =>
             exists (last : Response) (rest : list Response),
               server = retried ++ last :: rest
               /\ o = outcomeOf last
               /\ sends (events (request server config delay log))
                  = (sends log + S (List.length retried))%nat
               /\ (isServerError last = true ->
                   _retryCount config + Z.of_nat (count isServerError retried)
                   = maxRetries)
               /\ (isRateLimit last = true ->
                   count isRateLimit retried = (if _retry config then 0 else 1)%nat)
         | None =>
             server = retried
             /\ sends (events (request server config delay log))
                = (sends log + List.length retried)%nat
         end.
Proof.
  induction server as [|r server IH]; intros config delay log Hk.
  - exists []. cbn [request outcome events]. unfold count. cbn [List.filter List.length].
    rewrite backoffs_app, backoffs_pace, sends_app, sends_pace.
    repeat split; try constructor; try (destruct (_retry config)); cbn [schedule]; lia.
  - assert (Hlog : backoffs (log ++ pace delay ++ [Send]) = backoffs log).
    { rewrite !backoffs_app, backoffs_pace. simpl. by rewrite app_nil_r. }
    assert (Hs : sends (log ++ pace delay ++ [Send]) = S (sends log)).
    { rewrite !sends_app, sends_pace. change (sends [Send]) with 1%nat. lia. }
    assert (Hfinal : forall delay',
               (isServerError r = true -> _retryCount config = maxRetries) ->
               (isRateLimit r = true -> _retry config = true) ->
               request (r :: server) config delay log
               = {| outcome := Some (outcomeOf r); rateLimitDelay := delay';
                    events := log ++ pace delay ++ [Send] |} ->
               exists retried : list Response,
                 Forall (fun r => isServerError r || isRateLimit r = true) retried
                 /\ _retryCount config + Z.of_nat (count isServerError retried)
                    <= maxRetries
                 /\ (count isRateLimit retried <= (if _retry config then 0 else 1))%nat
                 /\ backoffs (events (request (r :: server) config delay log))
                    = backoffs log
                      ++ schedule (_retryCount config) (count isServerError retried)
                 /\ match outcome (request (r :: server) config delay log) with
                    | Some o =>
                        exists (last : Response) (rest : list Response),
                          r :: server = retried ++ last :: rest
                          /\ o = outcomeOf last
                          /\ sends (events (request (r :: server) config delay log))
                             = (sends log + S (List.length retried))%nat
                          /\ (isServerError last = true ->
                              _retryCount config
                              + Z.of_nat (count isServerError retried) = maxRetries)
                          /\ (isRateLimit last = true ->
                              count isRateLimit retried
                              = (if _retry config then 0 else 1)%nat)
                    | None =>
                        r :: server = retried
                        /\ sends (events (request (r :: server) config delay log))
                           = (sends log + List.length retried)%nat
                    end).
    { intros delay' H5 H4 ->. exists []. cbn [outcome events].
      unfold count. cbn [List.filter List.length schedule].
      rewrite Hlog, Hs, app_nil_r.
      split; [constructor|]. split; [lia|]. split; [lia|]. split; [reflexivity|].
      exists r, server. split; [reflexivity|]. split; [reflexivity|].
      split; [lia|]. split; [intros H; rewrite (H5 H); lia|].
      intros H. rewrite (H4 H). reflexivity. }
    destruct r as [body|status ra|].
    + apply (Hfinal (mathMax 100 (minus delay 50))); [discriminate|discriminate|reflexivity].
    + destruct ((status =? 429) && negb (_retry config)) eqn:E429.
      * cbn [request]. rewrite E429. cbv iota.
        apply andb_true_iff in E429 as [H429 Hr]. apply negb_true_iff in Hr.
        assert (H5xx : (500 <=? status) = false).
        { apply Z.eqb_eq in H429. subst status. reflexivity. }
        set (wait := match ra with Some seconds => times seconds 1000
                              | None => times delay 2 end).
        set (delay' := if status =? 429 then mathMin wait 10000 else delay).
        destruct (IH {| _retry := true; _retryCount := _retryCount config |} delay'
                     ((log ++ pace delay ++ [Send]) ++ [RateLimitWait wait]) Hk)
          as (retried & Hall & Hcount & H429s & Hb & Hout).
        cbn [_retry _retryCount] in *.
        exists (HttpError status ra :: retried).
        rewrite !count_cons. cbn [isServerError isRateLimit]. rewrite H429, H5xx, Hr.
        split; [constructor; [cbn; by rewrite H429, orb_true_r | exact Hall]|].
        split; [lia|]. split; [lia|].
        split.
        { rewrite Hb, backoffs_app, Hlog. cbn. by rewrite app_nil_r. }
        destruct (outcome (request server {| _retry := true;
                                             _retryCount := _retryCount config |}
                             delay' ((log ++ pace delay ++ [Send]) ++ [RateLimitWait wait])))
          as [o|].
        -- destruct Hout as (last & rest & -> & -> & Hsends & H5 & H4).
           exists last, rest. split; [reflexivity|]. split; [reflexivity|].
           rewrite Hsends, sends_app, Hs. change (sends [RateLimitWait wait]) with 0%nat.
           cbn [List.length]. split; [lia|]. split; [intros H; specialize (H5 H); lia|].
           intros H. specialize (H4 H). lia.
        -- destruct Hout as (-> & Hsends). split; [reflexivity|].
           rewrite Hsends, sends_app, Hs. change (sends [RateLimitWait wait]) with 0%nat.
           cbn [List.length]. lia.
      * destruct ((500 <=? status) && (_retryCount config <? maxRetries)) eqn:E.
        -- cbn [request]. rewrite E429, E. cbv iota.
           apply andb_true_iff in E as [H5xx Hlt]. apply Z.ltb_lt in Hlt.
           assert (H429 : (status =? 429) = false).
           { apply Z.leb_le in H5xx. apply Z.eqb_neq. lia. }
           rewrite H429.
           destruct (IH {| _retry := _retry config;
                           _retryCount := _retryCount config + 1 |} delay
                        ((log ++ pace delay ++ [Send])
                           ++ [Backoff (_retryCount config)
                                       (2 ^ _retryCount config * 1000)]))
             as (retried & Hall & Hcount & H429s & Hb & Hout);
             [cbn [_retryCount]; lia|].
           cbn [_retry _retryCount] in *.
           exists (HttpError status ra :: retried).
           rewrite !count_cons. cbn [isServerError isRateLimit]. rewrite H429, H5xx.
           split; [constructor; [cbn; by rewrite H5xx | exact Hall]|].
           split; [lia|]. split; [lia|].
           split.
           { rewrite Hb, backoffs_app, Hlog. cbn [Nat.add schedule].
             rewrite <- app_assoc. reflexivity. }
           destruct (outcome (request server {| _retry := _retry config;
                                                _retryCount := _retryCount config + 1 |}
                                delay
                                ((log ++ pace delay ++ [Send])
                                   ++ [Backoff (_retryCount config)
                                               (2 ^ _retryCount config * 1000)])))
             as [o|].
           ++ destruct Hout as (last & rest & -> & -> & Hsends & H5 & H4).
              exists last, rest. split; [reflexivity|]. split; [reflexivity|].
              rewrite Hsends, sends_app, Hs.
              change (sends [Backoff (_retryCount config)
                                     (2 ^ _retryCount config * 1000)]) with 0%nat.
              cbn [List.length]. split; [lia|]. split; [intros H; specialize (H5 H); lia|].
              intros H. specialize (H4 H). lia.
           ++ destruct Hout as (-> & Hsends). split; [reflexivity|].
              rewrite Hsends, sends_app, Hs.
              change (sends [Backoff (_retryCount config)
                                     (2 ^ _retryCount config * 1000)]) with 0%nat.
              cbn [List.length]. lia.
        -- apply (Hfinal (if status =? 429
                          then mathMin match ra with Some seconds => times seconds 1000
                                                | None => times delay 2 end 10000
                          else delay)).
           ++ cbn [isServerError]. intros H5xx. rewrite H5xx in E. cbn [andb] in E.
              apply Z.ltb_ge in E. lia.
           ++ cbn [isRateLimit]. intros H429. rewrite H429 in E429. cbn [andb] in E429.
              by apply negb_false_iff in E429.
           ++ cbn [request]. rewrite E429, E. reflexivity.
    + apply (Hfinal delay); [discriminate|discriminate|reflexivity].
Qed.

End RetryFacts.

(** C8. For a request sent with a fresh configuration, whatever the server
    answers.  The answers the layer retries, [retried], are the answers
    before the one the request ends on, [last]; each of them is a 5xx or a
    429, so an answer that is neither ends the request wherever it comes;
    at most three of them are 5xx, and a 5xx is the last answer only after
    three such retries; at most one is a 429.  The waits before the retries
    of the 5xx answers are, in order, the first of 1 s, 2 s, 4 s: [2^attempt]
    seconds before retry [attempt = 0, 1, 2].  One attempt is made for each
    retried answer and one for the last.  With five scripted answers or
    more the request ends; and an error response whose status is below 500
    and not 429 is rejected after the one attempt, without any wait for a
    retry. *)
Theorem retry_policy :
  forall (server : list Response) (delay : JsNumber),
    (exists retried : list Response,
        Forall (fun r => isServerError r || isRateLimit r = true) retried
        /\ (count isServerError retried <= 3)%nat
        /\ (count isRateLimit retried <= 1)%nat
        /\ backoffs (events (request server freshConfig delay []))
           = firstn (count isServerError retried) [(0, 1000); (1, 2000); (2, 4000)]
        /\ match outcome (request server freshConfig delay []) with
           | Some o =>
               exists (last : Response) (rest : list Response),
                 server = retried ++ last :: rest
                 /\ o = outcomeOf last
                 /\ sends (events (request server freshConfig delay []))
                    = S (List.length retried)
                 /\ (isServerError last = true -> count isServerError retried = 3%nat)
                 /\ (isRateLimit last = true -> count isRateLimit retried = 1%nat)
           | None =>
               server = retried
               /\ sends (events (request server freshConfig delay []))
                  = List.length retried
           end)
    /\ ((5 <= List.length server)%nat ->
        outcome (request server freshConfig delay []) <> None)
    /\ (forall (status : Z) (retryAfter : option JsNumber),
          status < 500 -> status <> 429 ->
          request (HttpError status retryAfter :: server) freshConfig delay []
          = {| outcome := Some (Rejected (HttpError status retryAfter));
               rateLimitDelay := delay;
               events := pace delay ++ [Send] |}).
Proof.
  intros server delay. split; [|split].
  - destruct (request_retried server freshConfig delay [])
      as (retried & Hall & Hcount & H429 & Hb & Hout);
      [unfold maxRetries; simpl; lia|].
    unfold maxRetries in *. cbn [freshConfig _retry _retryCount] in *.
    exists retried. split; [exact Hall|]. split; [lia|]. split; [exact H429|].
    split.
    { rewrite Hb. cbn [backoffs omap app].
      destruct (count isServerError retried) as [|[|[|[|m]]]]; try reflexivity. lia. }
    change (sends []) with 0%nat in Hout.
    destruct (outcome (request server freshConfig delay [])) as [o|].
    + destruct Hout as (last & rest & Hsrv & Ho & Hsends & H5 & H4).
      exists last, rest. split; [exact Hsrv|]. split; [exact Ho|].
      split; [exact Hsends|]. split; [intros H; specialize (H5 H); lia | exact H4].
    + exact Hout.
  - intros Hlen. apply request_returns; unfold maxRetries; simpl; lia.
  - intros status ra Hlt Hne. simpl.
    replace (status =? 429) with false by (symmetry; apply Z.eqb_neq; exact Hne).
    replace (500 <=? status) with false by (symmetry; apply Z.leb_gt; exact Hlt).
    reflexivity.
Qed.

(** Two 503 answers and then a 404: the two 503 are retried after 1 s and
    2 s, the 404 ends the request, after a retry as well as on the first
    attempt. *)
Lemma retry_policy_witness :
  (5 <= List.length [HttpError 503 None; HttpError 503 None; HttpError 404 None;
                     HttpError 503 None; Success "ok"])%nat
  /\ 404 < 500 /\ 404 <> 429
  /\ outcome (request [HttpError 503 None; HttpError 503 None; HttpError 404 None;
                       HttpError 503 None; Success "ok"] freshConfig 100 [])
     = Some (Rejected (HttpError 404 None))
  /\ backoffs (events (request [HttpError 503 None; HttpError 503 None;
                                HttpError 404 None; HttpError 503 None; Success "ok"]
                         freshConfig 100 []))
     = [(0, 1000); (1, 2000)]
  /\ outcome (request [HttpError 503 None; HttpError 503 None; HttpError 404 None;
                       HttpError 503 None; Success "ok"] freshConfig 100 []) <> None
  /\ request (HttpError 404 None :: [HttpError 503 None; HttpError 503 None;
                HttpError 404 None; HttpError 503 None; Success "ok"])
       freshConfig 100 []
     = {| outcome := Some (Rejected (HttpError 404 None));
          rateLimitDelay := 100;
          events := pace 100 ++ [Send] |}.
Proof.
  pose proof (retry_policy [HttpError 503 None; HttpError 503 None; HttpError 404 None;
                            HttpError 503 None; Success "ok"] 100)
    as (_ & Hret & Hrej).
  assert (H5 : (5 <= List.length [HttpError 503 None; HttpError 503 None;
                   HttpError 404 None; HttpError 503 None; Success "ok"])%nat)
    by (simpl; lia).
  assert (H404 : 404 < 500) by lia.
  assert (Hne : 404 <> 429) by lia.
  split; [exact H5|]. split; [exact H404|]. split; [exact Hne|].
  split; [reflexivity|]. split; [reflexivity|].
  split; [exact (Hret H5) | exact (Hrej 404 None H404 Hne)].
Defined.

(** A server that keeps answering 503: four attempts, three retries after
    1 s, 2 s and 4 s, then the error is passed on. *)
Example always_503 :
  request [HttpError 503 None; HttpError 503 None; HttpError 503 None;
           HttpError 503 None; HttpError 503 None] freshConfig 100 []
  = {| outcome := Some (Rejected (HttpError 503 None));
       rateLimitDelay := 100;
       events := [Pace 100; Send; Backoff 0 1000; Pace 100; Send; Backoff 1 2000;
                  Pace 100; Send; Backoff 2 4000; Pace 100; Send] |}.
Proof. reflexivity. Qed.

(** A 429 whose [retry-after] header is an HTTP date: [parseInt] gives NaN,
    the wait before the retry and the pacing delay are NaN, the retry is
    sent without the wait of the request interceptor, and the delay is
    still NaN after the success. *)
Example retry_after_date :
  request [HttpError 429 (Some NaN); Success "ok"] freshConfig 100 []
  = {| outcome := Some (Resolved "ok");
       rateLimitDelay := NaN;
       events := [Pace 100; Send; RateLimitWait NaN; Send] |}.
Proof. reflexivity. Qed.

End Transport.

(** ** Header patterns *)

Module Pattern.

(** What [.] does not match: the line terminators LF and CR. *)
Definition isLineTerminator (c : ascii) : bool :=
  Ascii.eqb c "010"%char || Ascii.eqb c "013"%char.

Fixpoint drop (k : nat) (s : string) : string :=
  match k, s with
  | O, _ => s
  | S k', String _ r => drop k' r
  | S _, EmptyString => EmptyString
  end.

Definition snoc (s : string) (c : ascii) : string :=
  String.append s (String c EmptyString).

(** The longest run of [.] characters at the start of [s]: a greedy [(.+)]
    with nothing after it. *)
Fixpoint dots (s : string) : string :=
  match s with
  | EmptyString => EmptyString
  | String c r => if isLineTerminator c then EmptyString else String c (dots r)
  end.

(** [/diff --git a\/(.+?) b\/(.+)/], after the literal [diff --git a/]:
    the first group grows one character at a time until [ b/] and one more
    [.] character follow. *)
Fixpoint statsGroups (s : string) (g1 : string) : option (string * string) :=
  match s with
  | EmptyString => None
  | String c r =>
      if isLineTerminator c then None
      else if startsWith r " b/" && negb (String.eqb (dots (drop 3 r)) "")
      then Some (snoc g1 c, dots (drop 3 r))
      else statsGroups r (snoc g1 c)
  end.

(** [line.match(/diff --git a\/(.+?) b\/(.+)/)]: the leftmost match. *)
Fixpoint matchStatsHeader (line : string) : option (string * string) :=
  match (if startsWith line "diff --git a/"
         then statsGroups (drop 13 line) EmptyString else None) with
  | Some groups => Some groups
  | None =>
      match line with
      | EmptyString => None
      | String _ r => matchStatsHeader r
      end
  end.

(** A lazy [(.+?)] followed by [(?:\s|$)]: the shortest run of [.]
    characters that ends before a white-space character or at the end. *)
Fixpoint lazyUntilSpace (s : string) (g : string) : option string :=
  match s with
  | EmptyString => None
  | String c r =>
      if isLineTerminator c then None
      else match r with
           | EmptyString => Some (snoc g c)
           | String d _ =>
               if isSpace d then Some (snoc g c) else lazyUntilSpace r (snoc g c)
           end
  end.

(** [/diff --git a\/(.+?) b\/(.+?)(?:\s|$)/], after the literal
    [diff --git a/]. *)
Fixpoint extractGroups (s : string) (g1 : string) : option (string * string) :=
  match s with
  | EmptyString => None
  | String c r =>
      if isLineTerminator c then None
      else
        match (if startsWith r " b/" then lazyUntilSpace (drop 3 r) EmptyString
               else None) with
        | Some g2 => Some (snoc g1 c, g2)
        | None => extractGroups r (snoc g1 c)
        end
  end.

(** [line.match(/diff --git a\/(.+?) b\/(.+?)(?:\s|$)/)]: the leftmost match. *)
Fixpoint matchExtractHeader (line : string) : option (string * string) :=
  match (if startsWith line "diff --git a/"
         then extractGroups (drop 13 line) EmptyString else None) with
  | Some groups => Some groups
  | None =>
      match line with
      | EmptyString => None
      | String _ r => matchExtractHeader r
      end
  end.

Example stats_header_plain :
  matchStatsHeader "diff --git a/src/a.ts b/src/a.ts" = Some ("src/a.ts", "src/a.ts").
Proof. reflexivity. Qed.

Example stats_header_rename :
  matchStatsHeader "diff --git a/old name.txt b/new name.txt"
  = Some ("old name.txt", "new name.txt").
Proof. reflexivity. Qed.

Example stats_header_no_prefix : matchStatsHeader "diff --git x.ts x.ts" = None.
Proof. reflexivity. Qed.

Example extract_header_plain :
  matchExtractHeader "diff --git a/src/a.ts b/src/a.ts" = Some ("src/a.ts", "src/a.ts").
Proof. reflexivity. Qed.

Example extract_header_space :
  matchExtractHeader "diff --git a/old name.txt b/new name.txt"
  = Some ("old name.txt", "new").
Proof. reflexivity. Qed.

End Pattern.

Import Pattern.

(** ** The sections of a diff *)

(** A file-pair header line, as every loop over diff lines tests it. *)
Definition isFileHeaderLine (line : string) : bool := startsWith line "diff --git".

(** The lines up to the next file header. *)
Fixpoint bodyOf (lines : list string) : list string :=
  match lines with
  | [] => []
  | l :: r => if isFileHeaderLine l then [] else l :: bodyOf r
  end.

(** One section per file header line, in order: the header and the lines
    between it and the next header. *)
Fixpoint sections (lines : list string) : list (string * list string) :=
  match lines with
  | [] => []
  | l :: r => if isFileHeaderLine l then (l, bodyOf r) :: sections r else sections r
  end.

(** ** The diff parser ([parseDiffForFileStats]) *)

Module Parser.

Inductive Status := added | removed | modified | renamed.

(** [DiffStat]; [old] and [new] hold the path, or are [null]. *)
Record DiffStat := {
  old : option string;
  new : option string;
  status : Status;
  lines_added : Z;
  lines_removed : Z
}.

(** The loop keeps references to [DiffStat] objects: [currentFile] points at
    the object it updates and [files] at the objects pushed so far, so an
    object pushed twice is one object.  [heap] holds the objects, a
    reference is an index into it. *)
Record ParseState := {
  heap : list DiffStat;
  files : list nat;
  currentFile : option nat
}.

Definition parseInit : ParseState :=
  {| heap := []; files := []; currentFile := None |}.

(** Update the object a reference points at. *)
Definition update (f : DiffStat -> DiffStat) (ref : nat) (st : ParseState) : ParseState :=
  {| heap := alter f ref (heap st); files := files st; currentFile := currentFile st |}.

Definition pushCurrent (st : ParseState) : ParseState :=
  match currentFile st with
  | Some ref => {| heap := heap st; files := files st ++ [ref];
                   currentFile := currentFile st |}
  | None => st
  end.

Definition newFile (a b : string) : DiffStat :=
  {| old := Some a; new := Some b;
     status := if String.eqb a b then modified else renamed;
     lines_added := 0; lines_removed := 0 |}.

Definition incAdded (d : DiffStat) : DiffStat :=
  {| old := old d; new := new d; status := status d;
     lines_added := lines_added d + 1; lines_removed := lines_removed d |}.

Definition incRemoved (d : DiffStat) : DiffStat :=
  {| old := old d; new := new d; status := status d;
     lines_added := lines_added d; lines_removed := lines_removed d + 1 |}.

Definition markAdded (d : DiffStat) : DiffStat :=
  {| old := None; new := new d; status := added;
     lines_added := lines_added d; lines_removed := lines_removed d |}.

Definition markRemoved (d : DiffStat) : DiffStat :=
  {| old := old d; new := None; status := removed;
     lines_added := lines_added d; lines_removed := lines_removed d |}.

(** The first [if / else if] of the loop body: a file header, or a line
    counted for the current file. *)
Definition headerOrCount (st : ParseState) (line : string) : ParseState :=
  if startsWith line "diff --git" then
    let st1 := pushCurrent st in
    match matchStatsHeader line with
    | Some (a, b) =>
        {| heap := heap st1 ++ [newFile a b]; files := files st1;
           currentFile := Some (List.length (heap st1)) |}
    | None => st1
    end
  else
    match currentFile st with
    | Some ref =>
        if startsWith line "+" && negb (startsWith line "+++") then update incAdded ref st
        else if startsWith line "-" && negb (startsWith line "---") then update incRemoved ref st
        else st
    | None => st
    end.

Definition detectNew (st : ParseState) (line : string) : ParseState :=
  match currentFile st with
  | Some ref => if startsWith line "new file mode" then update markAdded ref st else st
  | None => st
  end.

Definition detectDeleted (st : ParseState) (line : string) : ParseState :=
  match currentFile st with
  | Some ref => if startsWith line "deleted file mode" then update markRemoved ref st else st
  | None => st
  end.

(** One iteration of [for (const line of diffLines)]. *)
Definition parseStep (st : ParseState) (line : string) : ParseState :=
  detectDeleted (detectNew (headerOrCount st line) line) line.

(** The array returned: the objects [files] points at, as they are at the end. *)
Definition deref (st : ParseState) : list DiffStat :=
  omap (fun ref => heap st !! ref) (files st).

Definition parseLines (lines : list string) : list DiffStat :=
  deref (pushCurrent (fold_left parseStep lines parseInit)).

Definition parseDiffForFileStats (diffText : string) : list DiffStat :=
  parseLines (split diffText).

(** *** What the specification expects of the parser *)

Definition isAddedLine (line : string) : bool :=
  startsWith line "+" && negb (startsWith line "+++").

Definition isRemovedLine (line : string) : bool :=
  startsWith line "-" && negb (startsWith line "---").

Definition countLines (f : string -> bool) (lines : list string) : Z :=
  Z.of_nat (List.length (List.filter f lines)).

Definition expectedCounts (lines : list string) : list (Z * Z) :=
  List.map (fun s => (countLines isAddedLine (snd s), countLines isRemovedLine (snd s)))
           (sections lines).

Definition counts (stats : list DiffStat) : list (Z * Z) :=
  List.map (fun d => (lines_added d, lines_removed d)) stats.

(** Every file header line of the text matches the pattern of the parser. *)
Definition headersMatch (lines : list string) : Prop :=
  Forall (fun l => isFileHeaderLine l = true -> matchStatsHeader l <> None) lines.

(** The double quote, which git puts around a path with unusual characters. *)
Definition dq : string := String "034"%char EmptyString.

(** A diff of two files; the path of the second holds a non-ASCII
    character, so git quotes and escapes it. *)
Definition quotedPathDiff : string :=
  join LF
    [ "diff --git a/f.ts b/f.ts"; "--- a/f.ts"; "+++ b/f.ts"; "@@ -1 +1,2 @@";
      " keep"; "+one";
      String.append "diff --git "
        (String.append dq (String.append "a/caf\303\251.ts"
          (String.append dq (String.append " "
            (String.append dq (String.append "b/caf\303\251.ts" dq))))));
      "@@ -1 +1,3 @@"; " keep"; "+two"; "+three" ].

Section ParserFacts.

(** The state with the closed records [recs] pushed and [cur] current, when
    no object is shared. *)
Definition unshared (recs : list DiffStat) (cur : option DiffStat) : ParseState :=
  {| heap := recs ++ from_option (fun c => [c]) [] cur;
     files := seq 0 (List.length recs);
     currentFile := match cur with Some _ => Some (List.length recs) | None => None end |}.

Lemma omap_lookup_seq (l l' : list DiffStat) :
  omap (fun ref => (l ++ l') !! ref) (seq 0 (List.length l)) = l.
Proof.
  revert l'. induction l as [|x l IH] using rev_ind; intros l'; [reflexivity|].
  rewrite length_app. simpl. rewrite seq_app, omap_app. simpl.
  rewrite <- app_assoc. rewrite IH. f_equal.
  simpl. rewrite list_lookup_middle by reflexivity. reflexivity.
Qed.

Lemma deref_unshared (recs : list DiffStat) (cur : option DiffStat) :
  deref (pushCurrent (unshared recs cur)) = recs ++ from_option (fun c => [c]) [] cur.
Proof.
  destruct cur as [c|]; unfold deref, pushCurrent, unshared; simpl.
  - rewrite omap_app, omap_lookup_seq. simpl.
    rewrite list_lookup_middle by reflexivity. reflexivity.
  - rewrite app_nil_r.
    pose proof (omap_lookup_seq recs []) as H. rewrite app_nil_r in H. exact H.
Qed.

Lemma update_unshared (f : DiffStat -> DiffStat) (recs : list DiffStat) (c : DiffStat) :
  update f (List.length recs) (unshared recs (Some c)) = unshared recs (Some (f c)).
Proof.
  unfold update, unshared; simpl. f_equal.
  rewrite alter_app_r_alt by lia. rewrite Nat.sub_diag. reflexivity.
Qed.

Lemma header_not_mode (l : string) :
  startsWith l "diff --git" = true ->
  startsWith l "new file mode" = false /\ startsWith l "deleted file mode" = false
  /\ startsWith l "+" = false /\ startsWith l "-" = false.
Proof.
  destruct l as [|c l]; cbn [startsWith]; [discriminate|].
  destruct (Ascii.eqb_spec "d"%char c) as [<-|Hn]; [|discriminate].
  intros H. repeat split; try reflexivity.
  destruct l as [|c l]; cbn [startsWith andb] in *; [discriminate|].
  destruct (Ascii.eqb_spec "i"%char c) as [<-|Hn]; [|discriminate].
  reflexivity.
Qed.

(** A header line that matches closes the current record and opens one. *)
Lemma parseStep_header (recs : list DiffStat) (cur : option DiffStat) (l a b : string) :
  isFileHeaderLine l = true -> matchStatsHeader l = Some (a, b) ->
  parseStep (unshared recs cur) l =
  unshared (recs ++ from_option (fun c => [c]) [] cur) (Some (newFile a b)).
Proof.
  intros Hh Hm. unfold isFileHeaderLine in Hh.
  destruct (header_not_mode l Hh) as (Hn & Hd & _).
  unfold parseStep, headerOrCount. rewrite Hh, Hm.
  assert (Hs : {| heap := heap (pushCurrent (unshared recs cur)) ++ [newFile a b];
                  files := files (pushCurrent (unshared recs cur));
                  currentFile := Some (List.length (heap (pushCurrent (unshared recs cur)))) |}
               = unshared (recs ++ from_option (fun c => [c]) [] cur) (Some (newFile a b))).
  { destruct cur as [c|]; unfold pushCurrent, unshared; simpl.
    - rewrite !length_app. simpl. rewrite seq_app. reflexivity.
    - rewrite !app_nil_r. reflexivity. }
  rewrite Hs. unfold detectNew, detectDeleted; simpl. rewrite Hn. simpl. rewrite Hd.
  reflexivity.
Qed.

(** Any other line changes the current record only, and its counts by the
    kind of the line. *)
Lemma parseStep_body (recs : list DiffStat) (c : DiffStat) (l : string) :
  isFileHeaderLine l = false ->
  exists c',
    parseStep (unshared recs (Some c)) l = unshared recs (Some c')
    /\ lines_added c' = lines_added c + (if isAddedLine l then 1 else 0)
    /\ lines_removed c' = lines_removed c + (if isRemovedLine l then 1 else 0).
Proof.
  intros Hh. unfold isFileHeaderLine in Hh.
  unfold parseStep, headerOrCount. rewrite Hh.
  change (currentFile (unshared recs (Some c))) with (Some (List.length recs)).
  cbv beta iota.
  assert (Hex : forall p, startsWith l "+" = true -> startsWith l (String "-" p) = false).
  { intros p. destruct l as [|x l]; cbn [startsWith]; [discriminate|].
    destruct (Ascii.eqb_spec "+"%char x) as [<-|]; [|discriminate]. reflexivity. }
  assert (Hmid : exists c1,
    (if startsWith l "+" && negb (startsWith l "+++")
     then update incAdded (List.length recs) (unshared recs (Some c))
     else if startsWith l "-" && negb (startsWith l "---")
          then update incRemoved (List.length recs) (unshared recs (Some c))
          else unshared recs (Some c)) = unshared recs (Some c1)
    /\ lines_added c1 = lines_added c + (if isAddedLine l then 1 else 0)
    /\ lines_removed c1 = lines_removed c + (if isRemovedLine l then 1 else 0)).
  { unfold isAddedLine, isRemovedLine.
    destruct (startsWith l "+") eqn:Ep; simpl.
    - rewrite (Hex EmptyString eq_refl). simpl.
      destruct (startsWith l "+++"); simpl.
      + exists c. repeat split; lia.
      + exists (incAdded c). rewrite update_unshared. simpl. repeat split; lia.
    - destruct (startsWith l "-" && negb (startsWith l "---")).
      + exists (incRemoved c). rewrite update_unshared. simpl. repeat split; lia.
      + exists c. repeat split; lia. }
  destruct Hmid as (c1 & -> & Ha & Hr).
  unfold detectNew.
  change (currentFile (unshared recs (Some c1))) with (Some (List.length recs)).
  cbv beta iota.
  assert (Hnew : exists c2,
    (if startsWith l "new file mode"
     then update markAdded (List.length recs) (unshared recs (Some c1))
     else unshared recs (Some c1)) = unshared recs (Some c2)
    /\ lines_added c2 = lines_added c1 /\ lines_removed c2 = lines_removed c1).
  { destruct (startsWith l "new file mode").
    - exists (markAdded c1). rewrite update_unshared. auto.
    - exists c1. auto. }
  destruct Hnew as (c2 & -> & Ha2 & Hr2).
  unfold detectDeleted.
  change (currentFile (unshared recs (Some c2))) with (Some (List.length recs)).
  cbv beta iota.
  destruct (startsWith l "deleted file mode").
  - exists (markRemoved c2). rewrite update_unshared. simpl. split; [reflexivity|]. lia.
  - exists c2. split; [reflexivity|]. lia.
Qed.

Lemma parseStep_before_first_header (recs : list DiffStat) (l : string) :
  isFileHeaderLine l = false ->
  parseStep (unshared recs None) l = unshared recs None.
Proof.
  intros Hh. unfold isFileHeaderLine in Hh.
  unfold parseStep, headerOrCount. rewrite Hh. reflexivity.
Qed.

Lemma countLines_cons (f : string -> bool) (l : string) (ls : list string) :
  countLines f (l :: ls) = (if f l then 1 else 0) + countLines f ls.
Proof. unfold countLines. simpl. destruct (f l); simpl; lia. Qed.

(** When every header matches, the counts of the result are those of the
    closed records, then those of the current record with the lines up to
    the next header added, then those of the sections that follow. *)
Lemma parse_counts_from (lines : list string) :
  forall (recs : list DiffStat) (cur : option DiffStat),
    headersMatch lines ->
    counts (deref (pushCurrent (fold_left parseStep lines (unshared recs cur))))
    = counts recs
      ++ from_option
           (fun c => [(lines_added c + countLines isAddedLine (bodyOf lines),
                       lines_removed c + countLines isRemovedLine (bodyOf lines))])
           [] cur
      ++ expectedCounts lines.
Proof.
  induction lines as [|l lines IH]; intros recs cur Hm.
  - simpl fold_left. rewrite deref_unshared. unfold counts, expectedCounts.
    rewrite List.map_app. simpl. rewrite app_nil_r.
    destruct cur as [c|]; simpl; [|reflexivity].
    unfold countLines; simpl. rewrite !Z.add_0_r. reflexivity.
  - inversion Hm as [|? ? Hl Hrest]; subst. simpl fold_left.
    destruct (isFileHeaderLine l) eqn:Eh.
    + destruct (matchStatsHeader l) as [[a b]|] eqn:Em; [|by destruct (Hl eq_refl)].
      rewrite (parseStep_header recs cur l a b Eh Em), IH by exact Hrest.
      unfold expectedCounts, counts. simpl. rewrite Eh. simpl.
      rewrite List.map_app, <- app_assoc. f_equal.
      destruct cur as [c|]; simpl; [|reflexivity].
      unfold countLines; simpl. rewrite !Z.add_0_r. reflexivity.
    + destruct cur as [c|].
      * destruct (parseStep_body recs c l Eh) as (c' & -> & Ha & Hr).
        rewrite IH by exact Hrest. unfold expectedCounts. simpl. rewrite Eh.
        rewrite !countLines_cons, Ha, Hr. simpl.
        rewrite !Z.add_assoc. reflexivity.
      * rewrite parseStep_before_first_header, IH by assumption.
        unfold expectedCounts. simpl. rewrite Eh. reflexivity.
Qed.

End ParserFacts.

(** The parser on texts whose file header lines all match its pattern: one
    record per header line, in order, with the [+] and [-] lines of its
    section counted. *)
Lemma parse_counts_when_headers_match :
  forall diffText : string,
    headersMatch (split diffText) ->
    counts (parseDiffForFileStats diffText) = expectedCounts (split diffText).
Proof.
  intros diffText Hm. unfold parseDiffForFileStats, parseLines.
  change parseInit with (unshared [] None).
  rewrite parse_counts_from by exact Hm. reflexivity.
Qed.

(** C3 at a header line that the pattern of the parser does not match: the
    text has two file header lines, with one and two added lines; the
    parser returns the record of the first file twice, with three added
    lines each. *)
Theorem parse_quoted_path_header :
  expectedCounts (split quotedPathDiff) = [(1, 0); (2, 0)]
  /\ parseDiffForFileStats quotedPathDiff
     = [ {| old := Some "f.ts"; new := Some "f.ts"; status := modified;
            lines_added := 3; lines_removed := 0 |};
         {| old := Some "f.ts"; new := Some "f.ts"; status := modified;
            lines_added := 3; lines_removed := 0 |} ].
Proof. split; vm_compute; reflexivity. Qed.

End Parser.

(** ** The file-scoped extractor ([extractFileFromDiff]) *)

Module Extractor.

(** [path.replace(/^\/+/, '')] *)
Fixpoint stripLeadingSlashes (s : string) : string :=
  match s with
  | String c r => if Ascii.eqb c "/"%char then stripLeadingSlashes r else s
  | EmptyString => EmptyString
  end.

(** [path.replace(/\/+$/, '')] *)
Fixpoint stripTrailingSlashes (s : string) : string :=
  match s with
  | EmptyString => EmptyString
  | String c r =>
      match stripTrailingSlashes r with
      | EmptyString => if Ascii.eqb c "/"%char then EmptyString else String c EmptyString
      | r' => String c r'
      end
  end.

Definition normalizePath (path : string) : string :=
  stripTrailingSlashes (stripLeadingSlashes path).

(** [s.split(sep).pop()]: what follows the last [sep], all of [s] without one. *)
Fixpoint lastSegmentFrom (sep : ascii) (s : string) (segment : string) : string :=
  match s with
  | EmptyString => segment
  | String c r =>
      if Ascii.eqb c sep then lastSegmentFrom sep r EmptyString
      else lastSegmentFrom sep r (snoc segment c)
  end.

Definition lastSegment (sep : ascii) (s : string) : string :=
  lastSegmentFrom sep s EmptyString.

(** The callback of [pathsToCheck.some]. *)
Definition pathMatches (filePath normalizedTargetPath path : string) : bool :=
  let normalizedPath := normalizePath path in
  String.eqb normalizedPath normalizedTargetPath
  || endsWith normalizedPath (String.append "/" normalizedTargetPath)
  || endsWith normalizedTargetPath (String.append "/" normalizedPath)
  || includes path filePath
  || includes filePath path.

(** The value given to [inTargetFile] at a file header line, first loop. *)
Definition strictTarget (filePath : string) (line : string) : bool :=
  let normalizedTargetPath := normalizePath filePath in
  match matchExtractHeader line with
  | Some (pathA, pathB) =>
      existsb (pathMatches filePath normalizedTargetPath)
              [pathA; pathB; normalizedTargetPath]
  | None =>
      includes line filePath || includes filePath (lastSegment " "%char line)
  end.

(** What a file header line adds to [matchedPaths], first loop. *)
Definition headerPaths (line : string) : list string :=
  match matchExtractHeader line with
  | Some (pathA, pathB) => [pathA; pathB]
  | None => []
  end.

(** [filePath.split('/').pop() || filePath] *)
Definition fileNameOf (filePath : string) : string :=
  match lastSegment "/"%char filePath with
  | EmptyString => filePath
  | name => name
  end.

(** The value given to [inLenientFile] at a file header line, second loop. *)
Definition lenientTarget (filePath : string) (line : string) : bool :=
  includes line (fileNameOf filePath).

(** The variables of the two loops; the second loop has no [matchedPaths]. *)
Record ScanState := {
  fileBlocks : list string;
  currentBlock : list string;
  inTargetFile : bool;
  matchedPaths : list string
}.

Definition scanInit : ScanState :=
  {| fileBlocks := []; currentBlock := []; inTargetFile := false; matchedPaths := [] |}.

(** [if (inTargetFile && currentBlock.length > 0) fileBlocks.push(...)] *)
Definition flush (st : ScanState) : list string :=
  if inTargetFile st && (0 <? List.length (currentBlock st))%nat
  then fileBlocks st ++ [join LF (currentBlock st)]
  else fileBlocks st.

(** One iteration of either loop; [target] and [paths] are what the loop
    computes from a file header line. *)
Definition scanStep (target : string -> bool) (paths : string -> list string)
    (st : ScanState) (line : string) : ScanState :=
  if startsWith line "diff --git" then
    {| fileBlocks := flush st;
       currentBlock := [line];
       inTargetFile := target line;
       matchedPaths := matchedPaths st ++ paths line |}
  else
    {| fileBlocks := fileBlocks st;
       currentBlock := currentBlock st ++ [line];
       inTargetFile := inTargetFile st;
       matchedPaths := matchedPaths st |}.

Definition scan (target : string -> bool) (paths : string -> list string)
    (lines : list string) : ScanState :=
  fold_left (scanStep target paths) lines scanInit.

(** The separator ["\n\n"] between blocks. *)
Definition LFLF : string := String nl (String nl EmptyString).

(** [`${n}`] for a length. *)
Definition showNat (n : nat) : string := NilZero.string_of_uint (Nat.to_uint n).

Definition noChangesMessage (filePath : string) (paths : nat) : string :=
  String.append "No changes found for file: "
    (String.append filePath
      (String.append LFLF
        (String.append "Note: Searched in diff containing "
          (String.append (showNat paths)
            " file paths. Try using just the filename or a partial path.")))).

Definition extractFileFromDiff (fullDiff filePath : string) : string :=
  let lines := split fullDiff in
  let st := scan (strictTarget filePath) headerPaths lines in
  let result := join LFLF (flush st) in
  if (String.length (trim result) =? 0)%nat then
    let lenientBlocks := flush (scan (lenientTarget filePath) (fun _ => []) lines) in
    if (0 <? List.length lenientBlocks)%nat then join LFLF lenientBlocks
    else noChangesMessage filePath (List.length (matchedPaths st))
  else result.

(** The blocks the first loop collects, those of the second loop, and the
    ones the result is made of. *)
Definition strictBlocks (fullDiff filePath : string) : list string :=
  flush (scan (strictTarget filePath) headerPaths (split fullDiff)).

Definition lenientBlocks (fullDiff filePath : string) : list string :=
  flush (scan (lenientTarget filePath) (fun _ => []) (split fullDiff)).

Definition selectedBlocks (fullDiff filePath : string) : list string :=
  match strictBlocks fullDiff filePath with
  | [] => lenientBlocks fullDiff filePath
  | blocks => blocks
  end.

(** Two files named [a.ts] in different directories. *)
Definition sameNameDiff : string :=
  join LF
    [ "diff --git a/src/a.ts b/src/a.ts"; "@@ -1 +1 @@"; "-old"; "+new";
      "diff --git a/test/a.ts b/test/a.ts"; "@@ -1 +1 @@"; "-left"; "+right" ].

Example extract_same_name :
  extractFileFromDiff sameNameDiff "a.ts"
  = join LF
      [ "diff --git a/src/a.ts b/src/a.ts"; "@@ -1 +1 @@"; "-old"; "+new"; "";
        "diff --git a/test/a.ts b/test/a.ts"; "@@ -1 +1 @@"; "-left"; "+right" ].
Proof. vm_compute. reflexivity. Qed.

Example extract_again_same_name :
  extractFileFromDiff (extractFileFromDiff sameNameDiff "a.ts") "a.ts"
  = join LF
      [ "diff --git a/src/a.ts b/src/a.ts"; "@@ -1 +1 @@"; "-old"; "+new"; ""; "";
        "diff --git a/test/a.ts b/test/a.ts"; "@@ -1 +1 @@"; "-left"; "+right" ].
Proof. vm_compute. reflexivity. Qed.

Example extract_no_match :
  extractFileFromDiff "no diff here" "a.ts"
  = noChangesMessage "a.ts" 0.
Proof. vm_compute. reflexivity. Qed.

(** *** The blocks as sections of the diff *)

(** The text of a section: its header and its lines, joined by newlines. *)
Definition blockOf (section : string * list string) : string :=
  join LF (fst section :: snd section).

Section ScanFacts.

Variable target : string -> bool.
Variable paths : string -> list string.

(** From any state, the blocks at the end are the blocks already pushed,
    the current block extended up to the next header when it is a target,
    and the target sections of the lines still to be read. *)
Lemma flush_scan_from (lines : list string) :
  forall st : ScanState,
    (inTargetFile st = true -> currentBlock st <> []) ->
    flush (fold_left (scanStep target paths) lines st)
    = fileBlocks st
      ++ (if inTargetFile st then [join LF (currentBlock st ++ bodyOf lines)] else [])
      ++ List.map blockOf (List.filter (fun s => target (fst s)) (sections lines)).
Proof.
  induction lines as [|l lines IH]; intros st Hcur.
  - simpl. rewrite !app_nil_r. unfold flush.
    destruct (inTargetFile st); simpl; [|by rewrite app_nil_r].
    destruct (currentBlock st); [by destruct Hcur|reflexivity].
  - cbn [fold_left bodyOf sections]. unfold isFileHeaderLine.
    destruct (startsWith l "diff --git") eqn:Eh.
    + replace (scanStep target paths st l) with
        {| fileBlocks := flush st; currentBlock := [l]; inTargetFile := target l;
           matchedPaths := matchedPaths st ++ paths l |}
        by (unfold scanStep; rewrite Eh; reflexivity).
      rewrite IH by (cbn; discriminate).
      cbn [fileBlocks currentBlock inTargetFile List.filter fst].
      assert (Hf : flush st = fileBlocks st
                ++ (if inTargetFile st then [join LF (currentBlock st ++ [])] else [])).
      { unfold flush. rewrite app_nil_r.
        destruct (inTargetFile st) eqn:Et; cbn [andb]; [|by rewrite app_nil_r].
        destruct (currentBlock st); [by destruct Hcur | reflexivity]. }
      rewrite Hf, <- !app_assoc. f_equal. f_equal.
      destruct (target l); reflexivity.
    + replace (scanStep target paths st l) with
        {| fileBlocks := fileBlocks st; currentBlock := currentBlock st ++ [l];
           inTargetFile := inTargetFile st; matchedPaths := matchedPaths st |}
        by (unfold scanStep; rewrite Eh; reflexivity).
      rewrite IH; cbn [fileBlocks currentBlock inTargetFile].
      * rewrite <- app_assoc. reflexivity.
      * intros _. destruct (currentBlock st); discriminate.
Qed.

Lemma flush_scan (lines : list string) :
  flush (scan target paths lines)
  = List.map blockOf (List.filter (fun s => target (fst s)) (sections lines)).
Proof.
  unfold scan. rewrite flush_scan_from by discriminate. reflexivity.
Qed.

End ScanFacts.

Section SectionFacts.

Lemma bodyOf_no_header (lines : list string) :
  Forall (fun l => isFileHeaderLine l = false) (bodyOf lines).
Proof.
  induction lines as [|l lines IH]; simpl; [constructor|].
  destruct (isFileHeaderLine l) eqn:E; [constructor|]. by constructor.
Qed.

Lemma bodyOf_noNewline (lines : list string) :
  Forall (fun l => noNewline l = true) lines ->
  Forall (fun l => noNewline l = true) (bodyOf lines).
Proof.
  induction 1 as [|l lines Hl Hls IH]; simpl; [constructor|].
  destruct (isFileHeaderLine l); [constructor|]. by constructor.
Qed.

(** A section starts at a header line, holds no other header line, and is
    made of lines of the text. *)
Lemma sections_shape (lines : list string) (h : string) (body : list string) :
  Forall (fun l => noNewline l = true) lines ->
  In (h, body) (sections lines) ->
  isFileHeaderLine h = true
  /\ Forall (fun l => isFileHeaderLine l = false) body
  /\ Forall (fun l => noNewline l = true) (h :: body).
Proof.
  induction 1 as [|l lines Hl Hls IH]; simpl; [contradiction|].
  destruct (isFileHeaderLine l) eqn:E; [|exact IH].
  intros [[= <- <-]|Hin]; [|exact (IH Hin)].
  split; [exact E|]. split; [apply bodyOf_no_header|].
  constructor; [exact Hl|]. by apply bodyOf_noNewline.
Qed.

Lemma bodyOf_id (body : list string) :
  Forall (fun l => isFileHeaderLine l = false) body -> bodyOf body = body.
Proof.
  induction 1 as [|l body Hl Hb IH]; simpl; [reflexivity|].
  rewrite Hl, IH. reflexivity.
Qed.

Lemma sections_no_header (body : list string) :
  Forall (fun l => isFileHeaderLine l = false) body -> sections body = [].
Proof.
  induction 1 as [|l body Hl Hb IH]; simpl; [reflexivity|].
  rewrite Hl. exact IH.
Qed.

(** The lines of one section are one section again. *)
Lemma sections_of_block (h : string) (body : list string) :
  isFileHeaderLine h = true ->
  Forall (fun l => isFileHeaderLine l = false) body ->
  Forall (fun l => noNewline l = true) (h :: body) ->
  sections (split (blockOf (h, body))) = [(h, body)].
Proof.
  intros Hh Hb Hn. unfold blockOf. simpl fst. simpl snd.
  rewrite split_join by (discriminate || assumption).
  simpl. rewrite Hh, bodyOf_id, sections_no_header by assumption. reflexivity.
Qed.

(** A block is not blank: it starts with the [d] of its header. *)
Lemma trim_starts_nonspace (c : ascii) (r : string) :
  isSpace c = false -> trim (String c r) <> EmptyString.
Proof.
  intros Hc. unfold trim. simpl. rewrite Hc. simpl.
  destruct (trimEnd r); [rewrite Hc|]; discriminate.
Qed.

Lemma header_first_char (h : string) :
  isFileHeaderLine h = true -> exists r, h = String "d"%char r.
Proof.
  unfold isFileHeaderLine. destruct h as [|c r]; cbn [startsWith]; [discriminate|].
  destruct (Ascii.eqb_spec "d"%char c) as [<-|]; [|discriminate]. eauto.
Qed.

Lemma blocks_not_blank (s : string * list string) (rest : list string) :
  isFileHeaderLine (fst s) = true ->
  (String.length (trim (join LFLF (blockOf s :: rest))) =? 0)%nat = false.
Proof.
  destruct s as [h body]. cbn [fst]. intros Hh.
  destruct (header_first_char h Hh) as (r & ->).
  assert (Hd : exists t, join LFLF (blockOf (String "d"%char r, body) :: rest)
                         = String "d"%char t).
  { unfold blockOf, join. simpl.
    destruct body, rest; simpl; eauto. }
  destruct Hd as (t & ->).
  pose proof (trim_starts_nonspace "d"%char t eq_refl) as Hne.
  destruct (trim (String "d"%char t)); [congruence|reflexivity].
Qed.

End SectionFacts.

(** *** The full-path pass at a header that matches the pattern *)

Section TargetFacts.

Lemma stripLeadingSlashes_idem (s : string) :
  stripLeadingSlashes (stripLeadingSlashes s) = stripLeadingSlashes s.
Proof.
  induction s as [|c r IH]; [reflexivity|]. cbn [stripLeadingSlashes].
  destruct (Ascii.eqb c "/"%char) eqn:E; [exact IH|].
  cbn [stripLeadingSlashes]. rewrite E. reflexivity.
Qed.

Lemma stripTrailingSlashes_idem (s : string) :
  stripTrailingSlashes (stripTrailingSlashes s) = stripTrailingSlashes s.
Proof.
  induction s as [|c r IH]; [reflexivity|]. cbn [stripTrailingSlashes].
  destruct (stripTrailingSlashes r) as [|d t] eqn:Et.
  - destruct (Ascii.eqb c "/"%char) eqn:E; [reflexivity|].
    cbn [stripTrailingSlashes]. rewrite E. reflexivity.
  - cbn [stripTrailingSlashes] in *. rewrite IH. reflexivity.
Qed.

Lemma stripLeading_of_trailing (s : string) :
  stripLeadingSlashes s = s ->
  stripLeadingSlashes (stripTrailingSlashes s) = stripTrailingSlashes s.
Proof.
  destruct s as [|c r]; [reflexivity|]. cbn [stripLeadingSlashes stripTrailingSlashes].
  destruct (Ascii.eqb c "/"%char) eqn:E.
  - intros H. exfalso.
    assert (Hlen : forall t, (String.length (stripLeadingSlashes t) <= String.length t)%nat).
    { induction t as [|x t IHt]; [reflexivity|]. cbn [stripLeadingSlashes].
      destruct (Ascii.eqb x "/"%char); simpl; [|reflexivity].
      etransitivity; [exact IHt|]. apply Nat.le_succ_diag_r. }
    specialize (Hlen r). rewrite H in Hlen. simpl in Hlen. lia.
  - intros _. destruct (stripTrailingSlashes r); cbn [stripLeadingSlashes];
      rewrite E; reflexivity.
Qed.

Lemma normalizePath_idem (path : string) :
  normalizePath (normalizePath path) = normalizePath path.
Proof.
  unfold normalizePath.
  rewrite (stripLeading_of_trailing (stripLeadingSlashes path))
    by apply stripLeadingSlashes_idem.
  apply stripTrailingSlashes_idem.
Qed.

(** [pathsToCheck] holds the normalized target path itself, which equals
    its own normalization: at a header line that matches the pattern the
    full-path pass sets [inTargetFile], whatever the two paths are. *)
Lemma strictTarget_of_matched_header (filePath line : string) :
  matchExtractHeader line <> None -> strictTarget filePath line = true.
Proof.
  unfold strictTarget. destruct (matchExtractHeader line) as [[a b]|]; [|congruence].
  intros _. cbn [existsb]. unfold pathMatches at 3.
  rewrite normalizePath_idem, String.eqb_refl. cbn [orb].
  rewrite !orb_true_r. reflexivity.
Qed.

End TargetFacts.

(** What [extractFileFromDiff] returns, by the blocks it selects. *)
Lemma extract_by_blocks (fullDiff filePath : string) :
  extractFileFromDiff fullDiff filePath =
  match strictBlocks fullDiff filePath with
  | [] =>
      match lenientBlocks fullDiff filePath with
      | [] => noChangesMessage filePath
                (List.length (matchedPaths (scan (strictTarget filePath) headerPaths
                                                 (split fullDiff))))
      | blocks => join LFLF blocks
      end
  | blocks => join LFLF blocks
  end.
Proof.
  unfold extractFileFromDiff, strictBlocks, lenientBlocks.
  rewrite !flush_scan.
  destruct (List.filter (fun s => strictTarget filePath (fst s))
              (sections (split fullDiff))) as [|s ss] eqn:Hs.
  - simpl.
    destruct (List.map blockOf (List.filter (fun s => lenientTarget filePath (fst s))
                (sections (split fullDiff)))); reflexivity.
  - assert (Hin : In s (sections (split fullDiff))).
    { eapply proj1, filter_In. rewrite Hs. by left. }
    destruct s as [h body].
    destruct (sections_shape _ h body (split_noNewline fullDiff) Hin) as (Hh & _).
    simpl List.map.
    rewrite (blocks_not_blank (h, body)) by exact Hh. reflexivity.
Qed.

(** Extracting from one block gives the block back. *)
Lemma extract_of_single_block (fullDiff filePath : string) (h : string) (body : list string) :
  In (h, body) (sections (split fullDiff)) ->
  (strictTarget filePath h = true
   \/ (strictTarget filePath h = false /\ lenientTarget filePath h = true)) ->
  extractFileFromDiff (blockOf (h, body)) filePath = blockOf (h, body).
Proof.
  intros Hin Ht.
  destruct (sections_shape _ h body (split_noNewline fullDiff) Hin) as (Hh & Hb & Hn).
  rewrite extract_by_blocks. unfold strictBlocks, lenientBlocks.
  rewrite !flush_scan, (sections_of_block h body Hh Hb Hn). simpl.
  destruct Ht as [Hs|[Hs Hl]]; rewrite Hs; simpl; [reflexivity|].
  rewrite Hl. reflexivity.
Qed.

Lemma filter_singleton_In {A : Type} (f : A -> bool) (l : list A) (x : A) :
  List.filter f l = [x] -> In x l /\ f x = true.
Proof. intros H. apply filter_In. rewrite H. by left. Qed.

Lemma filter_nil_forall {A : Type} (f : A -> bool) (l : list A) (x : A) :
  List.filter f l = [] -> In x l -> f x = false.
Proof.
  intros H Hin. destruct (f x) eqn:E; [|reflexivity].
  assert (Hx : In x (List.filter f l)) by (apply filter_In; auto).
  rewrite H in Hx. destruct Hx.
Qed.

(** Extraction is idempotent on a result made of one block: when exactly
    one block is selected (by the full-path pass or, when that pass selects
    none, by the base-name pass), extracting the same path from the result
    gives the result again. *)
Lemma extract_idempotent_single_block :
  forall fullDiff filePath : string,
    List.length (selectedBlocks fullDiff filePath) = 1%nat ->
    extractFileFromDiff (extractFileFromDiff fullDiff filePath) filePath
    = extractFileFromDiff fullDiff filePath.
Proof.
  intros fullDiff filePath Hone.
  rewrite (extract_by_blocks fullDiff filePath).
  unfold selectedBlocks in Hone. unfold strictBlocks, lenientBlocks in *.
  rewrite !flush_scan in *.
  destruct (List.filter (fun s => strictTarget filePath (fst s))
              (sections (split fullDiff))) as [|s ss] eqn:Hs.
  - simpl in *.
    destruct (List.filter (fun s => lenientTarget filePath (fst s))
                (sections (split fullDiff))) as [|[h body] [|? ?]] eqn:Hl;
      simpl in Hone; try discriminate.
    simpl. apply filter_singleton_In in Hl as [Hin Hlt]. simpl in Hlt.
    apply (extract_of_single_block fullDiff filePath h body Hin). right.
    split; [|exact Hlt].
    exact (filter_nil_forall (fun s => strictTarget filePath (fst s)) _ (h, body) Hs Hin).
  - destruct ss as [|? ?]; simpl in Hone; [|discriminate].
    destruct s as [h body]. simpl.
    apply filter_singleton_In in Hs as [Hin Hst]. simpl in Hst.
    apply (extract_of_single_block fullDiff filePath h body Hin). by left.
Qed.

(** *** Extracting again from a result of several blocks *)

(** The lines of blocks joined with a blank line between them, and the
    sections those lines make: every block but the last has gained the
    blank line. *)
Fixpoint linesOf (secs : list (string * list string)) : list string :=
  match secs with
  | [] => []
  | s :: rest =>
      fst s :: snd s
        ++ match rest with [] => [] | _ :: _ => EmptyString :: linesOf rest end
  end.

Fixpoint padded (secs : list (string * list string)) : list (string * list string) :=
  match secs with
  | [] => []
  | s :: rest =>
      match rest with
      | [] => [s]
      | _ :: _ => (fst s, snd s ++ [EmptyString]) :: padded rest
      end
  end.

(** What [sections_shape] says of a section. *)
Definition wellShaped (s : string * list string) : Prop :=
  isFileHeaderLine (fst s) = true
  /\ Forall (fun l => isFileHeaderLine l = false) (snd s)
  /\ Forall (fun l => noNewline l = true) (fst s :: snd s).

(** The two files of a pull request, scenario D of the specification. *)
Definition twoFilesDiff : string :=
  join LF
    [ "diff --git a/src/a.ts b/src/a.ts"; "@@ -1 +1 @@"; "-old"; "+new";
      "diff --git a/src/b.ts b/src/b.ts"; "@@ -1 +1 @@"; "-left"; "+right" ].

Section AgainFacts.

Lemma sections_shaped (fullDiff : string) :
  Forall wellShaped (sections (split fullDiff)).
Proof.
  apply List.Forall_forall. intros [h body] Hin.
  exact (sections_shape _ h body (split_noNewline fullDiff) Hin).
Qed.

Lemma linesOf_nonempty (s : string * list string) (rest : list (string * list string)) :
  linesOf (s :: rest) <> [].
Proof. discriminate. Qed.

Lemma linesOf_noNewline (secs : list (string * list string)) :
  Forall wellShaped secs -> Forall (fun l => noNewline l = true) (linesOf secs).
Proof.
  induction 1 as [|s rest (Hh & Hb & Hn) Hrest IH]; [constructor|].
  cbn [linesOf]. inversion Hn as [|? ? Hn1 Hn2]; subst.
  constructor; [exact Hn1|]. apply Forall_app. split; [exact Hn2|].
  destruct rest; [constructor|]. constructor; [reflexivity | exact IH].
Qed.

(** Blocks joined with a blank line are the lines of [linesOf] joined with
    newlines. *)
Lemma join_blocks (secs : list (string * list string)) :
  secs <> [] -> join LFLF (List.map blockOf secs) = join LF (linesOf secs).
Proof.
  induction secs as [|s rest IH]; [congruence|]. intros _.
  destruct rest as [|s' rest].
  - cbn [List.map linesOf]. rewrite app_nil_r. reflexivity.
  - change (List.map blockOf (s :: s' :: rest))
      with (blockOf s :: blockOf s' :: List.map blockOf rest).
    rewrite join_cons_cons.
    change (blockOf s' :: List.map blockOf rest) with (List.map blockOf (s' :: rest)).
    rewrite IH by discriminate.
    change (linesOf (s :: s' :: rest))
      with ((fst s :: snd s) ++ (EmptyString :: linesOf (s' :: rest))).
    rewrite join_app by discriminate.
    change (EmptyString :: linesOf (s' :: rest))
      with ([EmptyString] ++ linesOf (s' :: rest)).
    rewrite join_app by discriminate. reflexivity.
Qed.

Lemma bodyOf_app (pre rest : list string) :
  Forall (fun l => isFileHeaderLine l = false) pre ->
  bodyOf (pre ++ rest) = pre ++ bodyOf rest.
Proof.
  induction 1 as [|l pre Hl Hpre IH]; [reflexivity|].
  cbn [app bodyOf]. rewrite Hl, IH. reflexivity.
Qed.

Lemma sections_app (pre rest : list string) :
  Forall (fun l => isFileHeaderLine l = false) pre ->
  sections (pre ++ rest) = sections rest.
Proof.
  induction 1 as [|l pre Hl Hpre IH]; [reflexivity|].
  cbn [app sections]. rewrite Hl. exact IH.
Qed.

Lemma bodyOf_linesOf (s : string * list string) (rest : list (string * list string)) :
  wellShaped s -> bodyOf (linesOf (s :: rest)) = [].
Proof. intros (Hh & _). cbn [linesOf bodyOf]. rewrite Hh. reflexivity. Qed.

(** The sections of the joined blocks are the blocks, padded. *)
Lemma sections_linesOf (secs : list (string * list string)) :
  Forall wellShaped secs -> sections (linesOf secs) = padded secs.
Proof.
  induction 1 as [|s rest Hs Hrest IH]; [reflexivity|].
  pose proof Hs as (Hh & Hb & Hn).
  destruct rest as [|s' rest].
  - cbn [linesOf sections padded]. rewrite Hh, app_nil_r.
    rewrite bodyOf_id, sections_no_header by exact Hb. by destruct s.
  - change (linesOf (s :: s' :: rest))
      with (fst s :: snd s ++ [EmptyString] ++ linesOf (s' :: rest)).
    rewrite (List.app_assoc (snd s)).
    change (padded (s :: s' :: rest))
      with ((fst s, snd s ++ [EmptyString]) :: padded (s' :: rest)).
    cbn [sections]. rewrite Hh.
    assert (Hpre : Forall (fun l => isFileHeaderLine l = false) (snd s ++ [EmptyString])).
    { apply Forall_app. split; [exact Hb|]. by constructor. }
    rewrite bodyOf_app, sections_app by exact Hpre.
    rewrite bodyOf_linesOf by (by inversion Hrest).
    rewrite app_nil_r, IH. reflexivity.
Qed.

Lemma filter_padded_all (f : string -> bool) (secs : list (string * list string)) :
  Forall (fun s => f (fst s) = true) secs ->
  List.filter (fun s => f (fst s)) (padded secs) = padded secs.
Proof.
  induction 1 as [|s rest Hs Hrest IH]; [reflexivity|].
  destruct rest as [|s' rest].
  - cbn [padded List.filter]. by rewrite Hs.
  - change (padded (s :: s' :: rest))
      with ((fst s, snd s ++ [EmptyString]) :: padded (s' :: rest)).
    cbn [List.filter fst]. rewrite Hs, IH. reflexivity.
Qed.

Lemma filter_padded_none (f : string -> bool) (secs : list (string * list string)) :
  Forall (fun s => f (fst s) = false) secs ->
  List.filter (fun s => f (fst s)) (padded secs) = [].
Proof.
  induction 1 as [|s rest Hs Hrest IH]; [reflexivity|].
  destruct rest as [|s' rest].
  - cbn [padded List.filter]. by rewrite Hs.
  - change (padded (s :: s' :: rest))
      with ((fst s, snd s ++ [EmptyString]) :: padded (s' :: rest)).
    cbn [List.filter fst]. rewrite Hs, IH. reflexivity.
Qed.

Lemma padded_nonempty (s : string * list string) (rest : list (string * list string)) :
  padded (s :: rest) <> [].
Proof. destruct rest; discriminate. Qed.

(** Extracting from the blocks selected by one of the two passes selects
    them all again, padded. *)
Lemma extract_of_blocks (selected : list (string * list string)) (filePath : string) :
  Forall wellShaped selected -> selected <> [] ->
  (Forall (fun s => strictTarget filePath (fst s) = true) selected
   \/ (Forall (fun s => strictTarget filePath (fst s) = false) selected
       /\ Forall (fun s => lenientTarget filePath (fst s) = true) selected)) ->
  extractFileFromDiff (join LFLF (List.map blockOf selected)) filePath
  = join LFLF (List.map blockOf (padded selected)).
Proof.
  intros Hshape Hne Htarget.
  rewrite extract_by_blocks. unfold strictBlocks, lenientBlocks.
  rewrite !flush_scan, join_blocks by exact Hne.
  rewrite split_join;
    [|destruct selected; [congruence | discriminate] | by apply linesOf_noNewline].
  rewrite sections_linesOf by exact Hshape.
  destruct selected as [|s rest]; [congruence|].
  pose proof (padded_nonempty s rest) as Hp.
  destruct Htarget as [Hs|[Hs Hl]].
  - rewrite filter_padded_all by exact Hs.
    destruct (padded (s :: rest)); [congruence | reflexivity].
  - rewrite filter_padded_none by exact Hs. cbn [List.map].
    rewrite filter_padded_all by exact Hl.
    destruct (padded (s :: rest)); [congruence | reflexivity].
Qed.

Lemma blockOf_padded (s : string * list string) :
  blockOf (fst s, snd s ++ [EmptyString]) = String.append (blockOf s) LF.
Proof.
  unfold blockOf. cbn [fst snd].
  change (fst s :: snd s ++ [EmptyString]) with ((fst s :: snd s) ++ [EmptyString]).
  rewrite join_app by discriminate. reflexivity.
Qed.

(** With two blocks or more the padded blocks are another text: where the
    second block starts in the one there is a third newline in the other. *)
Lemma padded_blocks_differ (s1 s2 : string * list string)
    (rest : list (string * list string)) :
  wellShaped s2 ->
  join LFLF (List.map blockOf (padded (s1 :: s2 :: rest)))
  <> join LFLF (List.map blockOf (s1 :: s2 :: rest)).
Proof.
  intros (Hh & _) Heq.
  change (padded (s1 :: s2 :: rest))
    with ((fst s1, snd s1 ++ [EmptyString]) :: padded (s2 :: rest)) in Heq.
  destruct (padded (s2 :: rest)) as [|q qs] eqn:Hq;
    [by apply padded_nonempty in Hq|].
  change (List.map blockOf ((fst s1, snd s1 ++ [EmptyString]) :: q :: qs))
    with (blockOf (fst s1, snd s1 ++ [EmptyString]) :: blockOf q :: List.map blockOf qs)
    in Heq.
  change (List.map blockOf (s1 :: s2 :: rest))
    with (blockOf s1 :: blockOf s2 :: List.map blockOf rest) in Heq.
  rewrite !join_cons_cons, blockOf_padded, append_assoc in Heq.
  apply append_cancel in Heq.
  destruct (header_first_char (fst s2) Hh) as (r & Hr).
  assert (Hd : exists t, join LFLF (blockOf s2 :: List.map blockOf rest)
                         = String "d"%char t).
  { destruct s2 as [h2 body2]. cbn [fst] in Hr. subst h2.
    generalize (List.map blockOf rest). intros bs.
    unfold blockOf, join. simpl. destruct body2, bs; simpl; eauto. }
  destruct Hd as (t & Hd). rewrite Hd in Heq. vm_compute in Heq. discriminate Heq.
Qed.

End AgainFacts.

(** C4.  Whenever the extraction selects two blocks or more, extracting the
    same path from the result gives another text: the blank line that
    separates two blocks in the first result is taken into the block before
    it, and one more blank line is added.  By
    [strictTarget_of_matched_header] the full-path pass selects the block of
    every header line that matches the pattern, whatever path is asked for,
    so this is the case of every diff of two files or more. *)
Theorem extract_not_idempotent :
  forall fullDiff filePath : string,
    (2 <= List.length (selectedBlocks fullDiff filePath))%nat ->
    extractFileFromDiff (extractFileFromDiff fullDiff filePath) filePath
    <> extractFileFromDiff fullDiff filePath.
Proof.
  intros fullDiff filePath Htwo.
  pose proof (sections_shaped fullDiff) as Hshape.
  rewrite (extract_by_blocks fullDiff filePath).
  unfold selectedBlocks in Htwo. unfold strictBlocks, lenientBlocks in *.
  rewrite !flush_scan in *.
  set (secs := sections (split fullDiff)) in *.
  assert (Hsub : forall f, Forall wellShaped (List.filter f secs)).
  { intros f. apply List.Forall_forall. intros x Hx. apply filter_In in Hx as [Hx _].
    revert x Hx. by apply List.Forall_forall. }
  assert (Hall : forall f : string * list string -> bool,
             Forall (fun s => f s = true) (List.filter f secs)).
  { intros f. apply List.Forall_forall. intros x Hx. by apply filter_In in Hx as [_ Hx]. }
  destruct (List.filter (fun s => strictTarget filePath (fst s)) secs)
    as [|s1 ss] eqn:Hs.
  - cbn [List.map] in *.
    destruct (List.filter (fun s => lenientTarget filePath (fst s)) secs)
      as [|s1 [|s2 rest]] eqn:Hl; cbn [List.map List.length] in Htwo; try lia.
    cbn [List.map].
    change (blockOf s1 :: blockOf s2 :: List.map blockOf rest)
      with (List.map blockOf (s1 :: s2 :: rest)).
    pose proof (Hsub (fun s => lenientTarget filePath (fst s))) as Hw.
    pose proof (Hall (fun s => lenientTarget filePath (fst s))) as Hlen.
    rewrite Hl in Hw, Hlen.
    rewrite extract_of_blocks; [|exact Hw|discriminate|].
    + apply padded_blocks_differ. inversion Hw as [|? ? _ Hw2]; subst.
      by inversion Hw2.
    + right. split; [|exact Hlen].
      apply List.Forall_forall. intros x Hx.
      apply (filter_nil_forall (fun s => strictTarget filePath (fst s)) secs x Hs).
      assert (Hin : In x (List.filter (fun s => lenientTarget filePath (fst s)) secs))
        by (rewrite Hl; exact Hx).
      by apply filter_In in Hin as [Hin _].
  - destruct ss as [|s2 rest]; cbn [List.map List.length] in Htwo; [lia|].
    cbn [List.map].
    change (blockOf s1 :: blockOf s2 :: List.map blockOf rest)
      with (List.map blockOf (s1 :: s2 :: rest)).
    pose proof (Hsub (fun s => strictTarget filePath (fst s))) as Hw.
    pose proof (Hall (fun s => strictTarget filePath (fst s))) as Hst.
    rewrite Hs in Hw, Hst.
    rewrite extract_of_blocks; [|exact Hw|discriminate|by left].
    apply padded_blocks_differ. inversion Hw as [|? ? _ Hw2]; subst.
    by inversion Hw2.
Qed.

(** Scenario D: the path [src/a.ts] asked of the diff of [src/a.ts] and
    [src/b.ts].  Both blocks are selected and returned, and the second
    extraction differs from the first. *)
Lemma extract_not_idempotent_witness :
  (2 <= List.length (selectedBlocks twoFilesDiff "src/a.ts"))%nat
  /\ extractFileFromDiff twoFilesDiff "src/a.ts"
     = join LF
         [ "diff --git a/src/a.ts b/src/a.ts"; "@@ -1 +1 @@"; "-old"; "+new"; "";
           "diff --git a/src/b.ts b/src/b.ts"; "@@ -1 +1 @@"; "-left"; "+right" ]
  /\ extractFileFromDiff (extractFileFromDiff twoFilesDiff "src/a.ts") "src/a.ts"
     = join LF
         [ "diff --git a/src/a.ts b/src/a.ts"; "@@ -1 +1 @@"; "-old"; "+new"; ""; "";
           "diff --git a/src/b.ts b/src/b.ts"; "@@ -1 +1 @@"; "-left"; "+right" ]
  /\ extractFileFromDiff (extractFileFromDiff twoFilesDiff "src/a.ts") "src/a.ts"
     <> extractFileFromDiff twoFilesDiff "src/a.ts".
Proof.
  assert (Htwo : (2 <= List.length (selectedBlocks twoFilesDiff "src/a.ts"))%nat)
    by (vm_compute; lia).
  split; [exact Htwo|]. split; [vm_compute; reflexivity|].
  split; [vm_compute; reflexivity|].
  exact (extract_not_idempotent twoFilesDiff "src/a.ts" Htwo).
Defined.

End Extractor.

(** ** The diff fetcher ([getPullRequestDiff] and its callers) *)

Module Fetcher.

(** What the code throws. *)
Inductive Thrown :=
| AxiosError (status : option Z) (message : string)    (* a rejected [client.get] *)
| PlainError (message : string)                        (* [new Error(message)] *)
| EnhancedMcpError (operation : string) (cause : Thrown).

(** The outcome of an awaited call. *)
Inductive Result (A : Type) :=
| Returned (value : A)
| Threw (error : Thrown).
Arguments Returned {A} _.
Arguments Threw {A} _.

(** [error.response?.status] *)
Definition responseStatus (error : Thrown) : option Z :=
  match error with
  | AxiosError status _ => status
  | _ => None
  end.

(** What [handleBitbucketError(error, {operation, ...})] throws: an
    [EnhancedMcpError] as it is, anything else wrapped for [operation]. *)
Definition handleBitbucketError (error : Thrown) (operation : string) : Thrown :=
  match error with
  | EnhancedMcpError _ _ => error
  | _ => EnhancedMcpError operation error
  end.

Record Commit := {
  hash : string;
  message : string
}.

Record PullRequest := {
  title : string;
  state : string;
  author_display_name : string;
  author_username : option string;
  source_branch : string;
  source_commit : option string;
  destination_branch : string;
  destination_commit : option string
}.

(** The answer of the upstream to one GET. *)
Inductive HttpResult (A : Type) :=
| Ok (data : A)
| Err (status : option Z) (message : string).
Arguments Ok {A} _.
Arguments Err {A} _ _.

(** The upstream at one moment, by endpoint.  [diffOf] is
    [/diff/{spec}], where [spec] is a commit hash, [dest...src] or
    [base..head]. *)
Record Upstream := {
  pullRequestDiff : HttpResult string;
  pullRequest : HttpResult PullRequest;
  pullRequestCommits : HttpResult (list Commit);
  pullRequestDiffStat : HttpResult (list Parser.DiffStat);
  diffOf : string -> HttpResult string
}.

(** [`${n}`] for a number that is an integer. *)
Definition showZ (n : Z) : string := NilZero.string_of_int (Z.to_int n).

Definition showLength (n : nat) : string := showZ (Z.of_nat n).

(** Truthiness of a string that may be missing. *)
Definition truthyString (s : option string) : bool :=
  match s with
  | Some (String _ _) => true
  | _ => false
  end.

Definition nonEmpty (s : string) : bool :=
  match s with String _ _ => true | EmptyString => false end.

(** [`${s}`] for a string that may be missing. *)
Definition showOptional (s : option string) : string :=
  match s with Some s' => s' | None => "undefined" end.

Definition hasLearningContent (lowered : string) : bool :=
  includes lowered "learning-api" || includes lowered "cpd"
  || includes lowered "learningapi".

(** The test of the direct fetch: title (lowered) or source branch name. *)
Definition isEmergencyContactPR (pr : PullRequest) : bool :=
  let prTitle := toLowerCase (title pr) in
  includes prTitle "emergency" || includes prTitle "contact"
  || includes (source_branch pr) "emergency" || includes (source_branch pr) "contact".

(** The test of the commit fallback: the title only. *)
Definition isEmergencyContactTitle (prTitle : string) : bool :=
  includes prTitle "emergency" || includes prTitle "contact".

(** The symbols of the two reports, by their code units: the warning sign
    U+26A0 with its variation selector U+FE0F, the arrow U+2192, and the
    light bulb U+1F4A1 and the wrench U+1F527, a surrogate pair each. *)
Definition warningSign : string := String.append wide wide.
Definition rightArrow : string := wide.
Definition lightBulb : string := String.append wide wide.
Definition wrench : string := String.append wide wide.

Definition accessDeniedReport (workspace repo_slug : string) (pr_id : Z)
    (pr : PullRequest) : string :=
  let id := showZ pr_id in
  let src := source_branch pr in
  let dst := destination_branch pr in
  let cat := List.fold_right String.append EmptyString in
  join LF
    [ cat ["# Access Denied - PR #"; id; " Diff"];
      "";
      cat ["**"; warningSign; " Cannot retrieve diff for this pull request**"];
      "";
      "**PR Details:**";
      cat ["- **Title:** "; title pr];
      cat ["- **Author:** "; author_display_name pr; " (@";
           showOptional (author_username pr); ")"];
      cat ["- **Branch:** "; src; " "; rightArrow; " "; dst];
      cat ["- **State:** "; state pr];
      "";
      "**Reason:** Limited access to PR diff content.";
      "";
      cat ["**"; lightBulb; " Solutions for Code Review Access:**"];
      "";
      "### **For Repository Maintainers:**";
      cat ["1. **Add as reviewer:** Ask "; author_display_name pr;
           " to add you as a reviewer"];
      "2. **Repository access:** Request collaborator access to the repository";
      "3. **Team permissions:** Ensure your team has appropriate repository permissions";
      "";
      "### **Alternative Access Methods:**";
      "1. **Local git access:**";
      "   ```bash";
      cat ["   git fetch origin "; src];
      cat ["   git diff "; dst; "..."; src];
      "   ```";
      "";
      "2. **Bitbucket web interface:** Use the PR page directly at:";
      cat ["   `https://bitbucket.org/"; workspace; "/"; repo_slug;
           "/pull-requests/"; id; "`"];
      "";
      "3. **Ask for diff export:** Request the PR author to export/share the diff";
      "";
      cat ["**"; wrench; " Technical Details:**"];
      "- PR diff endpoint: 404 (access denied)  ";
      "- Branch comparison: Failed";
      "- Commit range access: Failed";
      "- This suggests limited repository permissions for your API token";
      "";
      "**Note:** The MCP tried multiple fallback methods but all were blocked by permissions." ].

Section Calls.

(** The upstream over time: [world n] answers the GET number [n] of the
    run.  Every function takes the number of GETs made so far and returns
    it updated. *)
Variable world : nat -> Upstream.
Variables workspace repo_slug : string.
Variable pr_id : Z.

(** [await this.client.get(url)] for the endpoint [endpoint]. *)
Definition clientGet {A : Type} (endpoint : Upstream -> HttpResult A) (calls : nat)
    : Result A * nat :=
  (match endpoint (world calls) with
   | Ok data => Returned data
   | Err status msg => Threw (AxiosError status msg)
   end, S calls).

(** The loop over the first commits: the first usable commit diff, if any. *)
Fixpoint tryCommitDiffs (prTitle : string) (commits : list Commit) (calls : nat)
    : option string * nat :=
  match commits with
  | [] => (None, calls)
  | commit :: rest =>
      match clientGet (fun u => diffOf u (hash commit)) calls with
      | (Returned data, calls') =>
          if nonEmpty data then
            let commitDiffContent := toLowerCase data in
            let commitMsg := toLowerCase (message commit) in
            if isEmergencyContactTitle prTitle then
              let hasRelevantContent :=
                includes commitDiffContent "emergency"
                || includes commitDiffContent "contact"
                || includes commitMsg "emergency" || includes commitMsg "contact" in
              let hasIrrelevantContent := hasLearningContent commitDiffContent in
              if hasRelevantContent && negb hasIrrelevantContent then (Some data, calls')
              else tryCommitDiffs prTitle rest calls'
            else (Some data, calls')
          else tryCommitDiffs prTitle rest calls'
      | (Threw _, calls') => tryCommitDiffs prTitle rest calls'
      end
  end.

(** Method 1: list the commits and try the first three. *)
Definition commitFallback (pr : PullRequest) (calls : nat) : option string * nat :=
  match clientGet pullRequestCommits calls with
  | (Returned commits, calls') =>
      tryCommitDiffs (toLowerCase (title pr)) (firstn 3 commits) calls'
  | (Threw _, calls') => (None, calls')
  end.

(** Method 2: compare the branches. *)
Definition branchCompareFallback (pr : PullRequest) (calls : nat) : option string * nat :=
  let spec := String.append (destination_branch pr)
                (String.append "..." (source_branch pr)) in
  match clientGet (fun u => diffOf u spec) calls with
  | (Returned data, calls') => ((if nonEmpty data then Some data else None), calls')
  | (Threw _, calls') => (None, calls')
  end.

(** Method 3: compare the two head commits, when both are known. *)
Definition commitRangeFallback (pr : PullRequest) (calls : nat) : option string * nat :=
  match source_commit pr, destination_commit pr with
  | Some src, Some dst =>
      if nonEmpty src && nonEmpty dst then
        match clientGet (fun u => diffOf u (String.append dst (String.append ".." src))) calls with
        | (Returned data, calls') => ((if nonEmpty data then Some data else None), calls')
        | (Threw _, calls') => (None, calls')
        end
      else (None, calls)
  | _, _ => (None, calls)
  end.

(** The [catch] branch for a 404. *)
Definition fallbackAfter404 (calls : nat) : Result string * nat :=
  match clientGet pullRequest calls with
  | (Threw error, calls1) => (Threw error, calls1)
  | (Returned pr, calls1) =>
      match commitFallback pr calls1 with
      | (Some data, calls2) => (Returned data, calls2)
      | (None, calls2) =>
          match branchCompareFallback pr calls2 with
          | (Some data, calls3) => (Returned data, calls3)
          | (None, calls3) =>
              match commitRangeFallback pr calls3 with
              | (Some data, calls4) => (Returned data, calls4)
              | (None, calls4) =>
                  (Returned (accessDeniedReport workspace repo_slug pr_id pr), calls4)
              end
          end
      end
  end.

(** The [try] block: the direct fetch and its content check. *)
Definition directFetch (calls : nat) : Result string * nat :=
  match clientGet pullRequestDiff calls with
  | (Threw error, calls1) => (Threw error, calls1)
  | (Returned data, calls1) =>
      match clientGet pullRequest calls1 with
      | (Threw error, calls2) => (Threw error, calls2)
      | (Returned pr, calls2) =>
          if isEmergencyContactPR pr && hasLearningContent (toLowerCase data)
          then (Threw (PlainError "Content mismatch: PR diff does not match PR topic"),
                calls2)
          else (Returned data, calls2)
      end
  end.

(** [getPullRequestDiff].  Its two [cache.delete] calls change the cache
    only, which nothing here reads. *)
Definition getPullRequestDiff (calls : nat) : Result string * nat :=
  match directFetch calls with
  | (Returned data, calls') => (Returned data, calls')
  | (Threw error, calls') =>
      match responseStatus error with
      | Some status =>
          if status =? 404 then fallbackAfter404 calls'
          else (Threw (handleBitbucketError error "Get pull request diff"), calls')
      | None => (Threw (handleBitbucketError error "Get pull request diff"), calls')
      end
  end.

(** [getPullRequestDiffStat] *)
Definition getPullRequestDiffStat (calls : nat) : Result (list Parser.DiffStat) * nat :=
  match clientGet pullRequestDiffStat calls with
  | (Returned values, calls') => (Returned values, calls')
  | (Threw error, calls') =>
      match getPullRequestDiff calls' with
      | (Returned diffText, calls'') =>
          (Returned (Parser.parseDiffForFileStats diffText), calls'')
      | (Threw _, calls'') =>
          (Threw (handleBitbucketError error "Get pull request diff stats"), calls'')
      end
  end.

(** *** [getPullRequestDiffEnhanced] *)

Record EnhancedDiff := {
  diff : string;
  truncated : bool;
  files_list : option (list string)
}.

(** [options.max_size || 20000] *)
Definition maxTokenSize (options : DiffOptions) : Z :=
  match max_size options with
  | Some 0 | None => 20000
  | Some m => m
  end.

(** [estimatedTokens <= MAX_TOKEN_SIZE], with [estimatedTokens] the length
    divided by 4: both sides are taken times 4. *)
Definition withinBudget (fullDiff : string) (options : DiffOptions) : bool :=
  Z.of_nat (String.length fullDiff) <=? 4 * maxTokenSize options.

(** [Math.round(fullDiff.length / 4)] *)
Definition roundedTokens (fullDiff : string) : Z :=
  (Z.of_nat (String.length fullDiff) + 2) / 4.

(** [stat.new?.path || stat.old?.path], which may be undefined. *)
Definition pathOf (stat : Parser.DiffStat) : option string :=
  if truthyString (Parser.new stat) then Parser.new stat else Parser.old stat.

(** [stat.new?.path || stat.old?.path || 'unknown'] *)
Definition pathOrUnknown (stat : Parser.DiffStat) : string :=
  match pathOf stat with
  | Some (String c r) => String c r
  | _ => "unknown"
  end.

Definition showStatus (st : Parser.Status) : string :=
  match st with
  | Parser.added => "added"
  | Parser.removed => "removed"
  | Parser.modified => "modified"
  | Parser.renamed => "renamed"
  end.

Definition cat (parts : list string) : string :=
  List.fold_right String.append EmptyString parts.

(** A line of the list of files changed. *)
Definition fileLine (stat : Parser.DiffStat) : string :=
  cat ["- "; pathOrUnknown stat; " ("; showStatus (Parser.status stat); ") +";
       showZ (Parser.lines_added stat); "/-"; showZ (Parser.lines_removed stat)].

(** A line of the list of most changed files. *)
Definition topLine (stat : Parser.DiffStat) : string :=
  cat ["- "; showOptional (pathOf stat); " (+"; showZ (Parser.lines_added stat);
       "/-"; showZ (Parser.lines_removed stat); ")"].

Definition totalChanges (stat : Parser.DiffStat) : Z :=
  Parser.lines_added stat + Parser.lines_removed stat.

(** [diffStat.sort((a, b) => total(b) - total(a))]: the sort is stable, so
    its result is the one of a stable insertion sort. *)
Fixpoint insertByChanges (x : Parser.DiffStat) (sorted : list Parser.DiffStat)
    : list Parser.DiffStat :=
  match sorted with
  | [] => [x]
  | y :: rest =>
      if totalChanges y <=? totalChanges x then x :: y :: rest
      else y :: insertByChanges x rest
  end.

Definition sortByChanges (stats : list Parser.DiffStat) : list Parser.DiffStat :=
  List.fold_right insertByChanges [] stats.

(** The files listed in full, the remainder line, the files highlighted. *)
Definition listedFiles (stats : list Parser.DiffStat) : list Parser.DiffStat :=
  firstn 10 stats.

Definition remainderLine (stats : list Parser.DiffStat) : string :=
  if (10 <? List.length stats)%nat
  then cat [LF; "... and "; showLength (List.length stats - 10); " more files"]
  else EmptyString.

Definition mostChanged (stats : list Parser.DiffStat) : list Parser.DiffStat :=
  firstn 5 (sortByChanges stats).

Definition tooLargeMessage (pr_id : Z) (fullDiff : string) (options : DiffOptions)
    (stats : list Parser.DiffStat) : string :=
  cat [ LF;
        warningSign; "  **Diff Too Large ("; showZ (roundedTokens fullDiff); " tokens > ";
        showZ (maxTokenSize options); " limit)**"; LF;
        LF;
        "**Files changed ("; showLength (List.length stats); "):**"; LF;
        join LF (List.map fileLine (listedFiles stats)); remainderLine stats; LF;
        LF;
        "**"; lightBulb; " Suggested approaches:**"; LF;
        "1. **Get specific file diff:** Use `file_path` parameter"; LF;
        "2. **Use git locally:**"; LF;
        "   ```bash"; LF;
        "   git fetch origin pull/"; showZ pr_id; "/head"; LF;
        "   git diff HEAD...FETCH_HEAD --stat"; LF;
        "   git diff HEAD...FETCH_HEAD -- path/to/specific/file.js"; LF;
        "   ```"; LF;
        "3. **Reduce context:** Use `context_lines: 2` parameter"; LF;
        "4. **Review in Bitbucket web interface**"; LF;
        LF;
        "**Most changed files:**"; LF;
        join LF (List.map topLine (mostChanged stats)) ].

(** The single-file chain [getFileSpecificDiff] is taken as given: the
    properties below are about calls without [file_path]. *)
Variable getFileSpecificDiff : string -> nat -> Result string * nat.

(** The [catch] of [getPullRequestDiffEnhanced]: fetch again, return the
    filtered diff. *)
Definition originalBehavior (options : DiffOptions) (calls : nat)
    : Result EnhancedDiff * nat :=
  match getPullRequestDiff calls with
  | (Returned originalDiff, calls') =>
      (Returned {| diff := applyDiffFilters originalDiff options;
                   truncated := false; files_list := None |}, calls')
  | (Threw error, calls') => (Threw error, calls')
  end.

Definition getPullRequestDiffEnhanced (options : DiffOptions) (calls : nat)
    : Result EnhancedDiff * nat :=
  match file_path options with
  | Some (String c r) =>
      match getFileSpecificDiff (String c r) calls with
      | (Returned fileSpecificDiff, calls') =>
          (Returned {| diff := applyDiffFilters fileSpecificDiff options;
                       truncated := false;
                       files_list := Some [String c r] |}, calls')
      | (Threw _, calls') => originalBehavior options calls'
      end
  | _ =>
      match getPullRequestDiff calls with
      | (Threw _, calls1) => originalBehavior options calls1
      | (Returned fullDiff, calls1) =>
          if withinBudget fullDiff options then
            (Returned {| diff := applyDiffFilters fullDiff options;
                         truncated := false; files_list := None |}, calls1)
          else
            match getPullRequestDiffStat calls1 with
            | (Threw _, calls2) => originalBehavior options calls2
            | (Returned diffStat, calls2) =>
                (Returned {| diff := tooLargeMessage pr_id fullDiff options diffStat;
                             truncated := true;
                             files_list := Some (List.map pathOrUnknown diffStat) |},
                 calls2)
            end
      end
  end.

End Calls.

(** *** The direct fetch with a content mismatch *)

Definition emergencyPR : PullRequest :=
  {| title := "Add emergency contact form";
     state := "OPEN";
     author_display_name := "Alex";
     author_username := None;
     source_branch := "feature/emergency-contact";
     source_commit := Some "aaa111";
     destination_branch := "main";
     destination_commit := Some "bbb222" |}.

Definition learningDiff : string :=
  join LF [ "diff --git a/learning-api/cpd.ts b/learning-api/cpd.ts";
            "@@ -1 +1 @@"; "-before"; "+after" ].

Definition contactDiff : string :=
  join LF [ "diff --git a/src/contact.ts b/src/contact.ts";
            "@@ -1 +1 @@"; "-phone"; "+emergency phone" ].

(** The direct endpoint answers with a diff of the learning domain for a
    pull request of the emergency-contact domain; the commits of the pull
    request are listed and the diff of its first commit is on topic. *)
Definition mismatchUpstream : Upstream :=
  {| pullRequestDiff := Ok learningDiff;
     pullRequest := Ok emergencyPR;
     pullRequestCommits := Ok [ {| hash := "c0ffee"; message := "emergency contact form" |} ];
     pullRequestDiffStat := Err (Some 404) "Not Found";
     diffOf := fun _ => Ok contactDiff |}.

Definition contentMismatch : Thrown :=
  EnhancedMcpError "Get pull request diff"
    (PlainError "Content mismatch: PR diff does not match PR topic").

(** Whenever the direct fetch succeeds and the content check fails, the
    error of the check is not a 404, so [getPullRequestDiff] passes it to
    [handleBitbucketError] after the two GETs of the direct fetch. *)
Lemma content_mismatch_raises :
  forall (world : nat -> Upstream) (workspace repo_slug : string) (pr_id : Z)
         (calls : nat) (data : string) (pr : PullRequest),
    pullRequestDiff (world calls) = Ok data ->
    pullRequest (world (S calls)) = Ok pr ->
    isEmergencyContactPR pr && hasLearningContent (toLowerCase data) = true ->
    getPullRequestDiff world workspace repo_slug pr_id calls
    = (Threw contentMismatch, S (S calls)).
Proof.
  intros world workspace repo_slug pr_id calls data pr Hd Hp Hm.
  unfold getPullRequestDiff, directFetch, clientGet. rewrite Hd, Hp, Hm. reflexivity.
Qed.

(** C1 at [mismatchUpstream]: the content check fails, and
    [getPullRequestDiff] throws after two GETs, the diff and the metadata;
    the commits are not listed.  The commit fallback, had it run from
    there, would have returned the diff of the first commit. *)
Theorem content_mismatch_not_recovered :
  isEmergencyContactPR emergencyPR && hasLearningContent (toLowerCase learningDiff) = true
  /\ getPullRequestDiff (fun _ => mismatchUpstream) "team" "app" 7 0
     = (Threw contentMismatch, 2%nat)
  /\ fallbackAfter404 (fun _ => mismatchUpstream) "team" "app" 7 2
     = (Returned contactDiff, 5%nat).
Proof. repeat split; vm_compute; reflexivity. Qed.

(** *** The size budget of [getPullRequestDiffEnhanced] *)

Section Budget.

Definition byChanges (a b : Parser.DiffStat) : Prop := totalChanges b <= totalChanges a.

Lemma insertByChanges_perm (x : Parser.DiffStat) (l : list Parser.DiffStat) :
  Permutation (insertByChanges x l) (x :: l).
Proof.
  induction l as [|y l IH]; simpl; [reflexivity|].
  destruct (totalChanges y <=? totalChanges x); [reflexivity|].
  rewrite IH. apply perm_swap.
Qed.

Lemma sortByChanges_perm (l : list Parser.DiffStat) : Permutation (sortByChanges l) l.
Proof.
  induction l as [|x l IH]; simpl; [reflexivity|].
  rewrite insertByChanges_perm. by constructor.
Qed.

Lemma insertByChanges_sorted (x : Parser.DiffStat) (l : list Parser.DiffStat) :
  Sorted byChanges l -> Sorted byChanges (insertByChanges x l).
Proof.
  induction 1 as [|y l Hs IH Hhd]; simpl.
  - repeat constructor.
  - destruct (totalChanges y <=? totalChanges x) eqn:E.
    + apply Z.leb_le in E. repeat constructor; assumption.
    + apply Z.leb_gt in E. constructor; [exact IH|].
      destruct l as [|z l]; simpl.
      * constructor. unfold byChanges. lia.
      * inversion Hhd; subst.
        destruct (totalChanges z <=? totalChanges x); constructor;
          unfold byChanges in *; lia.
Qed.

Lemma sortByChanges_sorted (l : list Parser.DiffStat) : Sorted byChanges (sortByChanges l).
Proof.
  induction l as [|x l IH]; simpl; [constructor|].
  by apply insertByChanges_sorted.
Qed.

End Budget.

(** A call without [file_path]. *)
Definition noFilePath (options : DiffOptions) : Prop :=
  truthyString (file_path options) = false.

(** C2 as stated, for the call at [calls]: a fetched diff over the budget
    gives a result marked truncated. *)
Definition overBudgetTruncates (world : nat -> Upstream) (workspace repo_slug : string)
    (pr_id : Z) (fileChain : string -> nat -> Result string * nat)
    (options : DiffOptions) (calls : nat) : Prop :=
  forall fullDiff calls1,
    getPullRequestDiff world workspace repo_slug pr_id calls = (Returned fullDiff, calls1) ->
    4 * maxTokenSize options < Z.of_nat (String.length fullDiff) ->
    exists result calls',
      getPullRequestDiffEnhanced world workspace repo_slug pr_id fileChain options calls
      = (Returned result, calls')
      /\ truncated result = true.

(** A diff of some 5000 characters. *)
Definition plusLine : string := "+0123456789012345678901234567890123456789012345678".

Definition bigDiff : string :=
  join LF ("diff --git a/big.ts b/big.ts" :: "@@ -0,0 +1,100 @@" :: repeat plusLine 100).

Definition plainPR : PullRequest :=
  {| title := "Add a large table";
     state := "OPEN";
     author_display_name := "Alex";
     author_username := None;
     source_branch := "feature/table";
     source_commit := Some "aaa111";
     destination_branch := "main";
     destination_commit := Some "bbb222" |}.

Definition bigStat : Parser.DiffStat :=
  {| Parser.old := None; Parser.new := Some "big.ts"; Parser.status := Parser.added;
     Parser.lines_added := 100; Parser.lines_removed := 0 |}.

(** The upstream when it answers every endpoint of the pull request. *)
Definition upUpstream : Upstream :=
  {| pullRequestDiff := Ok bigDiff;
     pullRequest := Ok plainPR;
     pullRequestCommits := Ok [];
     pullRequestDiffStat := Ok [bigStat];
     diffOf := fun _ => Err (Some 404) "Not Found" |}.

(** The upstream when it is down. *)
Definition downUpstream : Upstream :=
  {| pullRequestDiff := Err (Some 503) "Service Unavailable";
     pullRequest := Err (Some 503) "Service Unavailable";
     pullRequestCommits := Err (Some 503) "Service Unavailable";
     pullRequestDiffStat := Err (Some 503) "Service Unavailable";
     diffOf := fun _ => Err (Some 503) "Service Unavailable" |}.

(** An upstream that is down for the third and fourth GET of the run. *)
Definition flakyWorld (n : nat) : Upstream :=
  if ((2 <=? n) && (n <=? 3))%nat then downUpstream else upUpstream.

Definition smallBudget : DiffOptions :=
  {| file_path := None; context_lines := None;
     ignore_whitespace := None; max_size := Some 1000 |}.

Definition noFileChain (filePath : string) (calls : nat) : Result string * nat :=
  (Returned EmptyString, calls).

Lemma flaky_enhanced :
  getPullRequestDiffEnhanced flakyWorld "team" "app" 7 noFileChain smallBudget 0
  = (Returned {| diff := bigDiff; truncated := false; files_list := None |}, 6%nat).
Proof. vm_compute. reflexivity. Qed.

(** C2, as stated, fails: the diff fetched is over the budget, the diffstat
    endpoint and the fetch behind it fail, and the [catch] fetches the diff
    again and returns it whole, not marked truncated. *)
Lemma over_budget_not_truncated :
  ~ overBudgetTruncates flakyWorld "team" "app" 7 noFileChain smallBudget 0.
Proof.
  intros H.
  assert (Hget : getPullRequestDiff flakyWorld "team" "app" 7 0 = (Returned bigDiff, 2%nat))
    by (vm_compute; reflexivity).
  assert (Hlt : 4 * maxTokenSize smallBudget < Z.of_nat (String.length bigDiff))
    by (vm_compute; reflexivity).
  destruct (H bigDiff 2%nat Hget Hlt) as (r & c & Heq & Ht).
  rewrite flaky_enhanced in Heq. injection Heq as <- <-. discriminate Ht.
Qed.

(** *** The lines of the summary *)

(** A line that lists a file, and the line that counts the files not
    listed. *)
Definition isEntryLine (line : string) : bool := startsWith line "- ".

Definition isRemainderLine (line : string) : bool := startsWith line "... and ".

(** The paths of the diffstat hold no line feed. *)
Definition pathsOnOneLine (stats : list Parser.DiffStat) : Prop :=
  Forall (fun stat => noNewline (showOptional (pathOf stat)) = true) stats.

(** The lines of [tooLargeMessage]: the lines down to the count of files,
    the lines from the blank line after the list of files down to the
    heading of the most changed files, and the line of the remainder. *)
Definition summaryHead (fullDiff : string) (options : DiffOptions) (files : nat)
    : list string :=
  [ EmptyString;
    cat [warningSign; "  **Diff Too Large ("; showZ (roundedTokens fullDiff); " tokens > ";
         showZ (maxTokenSize options); " limit)**"];
    EmptyString;
    cat ["**Files changed ("; showLength files; "):**"] ].

Definition summaryMiddle (pr_id : Z) : list string :=
  [ EmptyString;
    cat ["**"; lightBulb; " Suggested approaches:**"];
    "1. **Get specific file diff:** Use `file_path` parameter";
    "2. **Use git locally:**";
    "   ```bash";
    cat ["   git fetch origin pull/"; showZ pr_id; "/head"];
    "   git diff HEAD...FETCH_HEAD --stat";
    "   git diff HEAD...FETCH_HEAD -- path/to/specific/file.js";
    "   ```";
    "3. **Reduce context:** Use `context_lines: 2` parameter";
    "4. **Review in Bitbucket web interface**";
    EmptyString;
    "**Most changed files:**" ].

Definition remainderLines (stats : list Parser.DiffStat) : list string :=
  if (10 <? List.length stats)%nat
  then [cat ["... and "; showLength (List.length stats - 10); " more files"]]
  else [].

(** [ls.join('\n')] of no line is the empty text, which is one empty line. *)
Definition orBlank (ls : list string) : list string :=
  match ls with
  | [] => [EmptyString]
  | _ :: _ => ls
  end.

Definition summaryLines (pr_id : Z) (fullDiff : string) (options : DiffOptions)
    (stats : list Parser.DiffStat) : list string :=
  summaryHead fullDiff options (List.length stats)
    ++ orBlank (List.map fileLine (listedFiles stats) ++ remainderLines stats)
    ++ summaryMiddle pr_id
    ++ orBlank (List.map topLine (mostChanged stats)).

Section SummaryFacts.

Lemma noNewline_digits (d : Decimal.uint) : noNewline (NilEmpty.string_of_uint d) = true.
Proof.
  induction d as [|d IH|d IH|d IH|d IH|d IH|d IH|d IH|d IH|d IH|d IH];
    cbn [NilEmpty.string_of_uint noNewline]; [reflexivity|..]; rewrite IH; reflexivity.
Qed.

Lemma noNewline_uint (d : Decimal.uint) : noNewline (NilZero.string_of_uint d) = true.
Proof. destruct d; try reflexivity; apply noNewline_digits. Qed.

Lemma noNewline_showZ (n : Z) : noNewline (showZ n) = true.
Proof.
  unfold showZ. destruct (Z.to_int n) as [d|d]; cbn [NilZero.string_of_int].
  - apply noNewline_uint.
  - cbn [noNewline]. rewrite noNewline_uint. reflexivity.
Qed.

Lemma noNewline_showLength (n : nat) : noNewline (showLength n) = true.
Proof. apply noNewline_showZ. Qed.

Lemma noNewline_showStatus (st : Parser.Status) : noNewline (showStatus st) = true.
Proof. by destruct st. Qed.

Lemma noNewline_pathOrUnknown (stat : Parser.DiffStat) :
  noNewline (showOptional (pathOf stat)) = true -> noNewline (pathOrUnknown stat) = true.
Proof.
  unfold pathOrUnknown. destruct (pathOf stat) as [[|c r]|]; cbn [showOptional]; auto.
Qed.

Lemma noNewline_fileLine (stat : Parser.DiffStat) :
  noNewline (showOptional (pathOf stat)) = true -> noNewline (fileLine stat) = true.
Proof.
  intros H. unfold fileLine, cat. cbn [fold_right].
  rewrite !noNewline_append, !noNewline_showZ, noNewline_showStatus,
    (noNewline_pathOrUnknown stat H). reflexivity.
Qed.

Lemma noNewline_topLine (stat : Parser.DiffStat) :
  noNewline (showOptional (pathOf stat)) = true -> noNewline (topLine stat) = true.
Proof.
  intros H. unfold topLine, cat. cbn [fold_right].
  rewrite !noNewline_append, !noNewline_showZ, H. reflexivity.
Qed.

Lemma orBlank_Forall (P : string -> Prop) (ls : list string) :
  P EmptyString -> Forall P ls -> Forall P (orBlank ls).
Proof. intros H0 H. destruct ls; [by constructor | exact H]. Qed.

Lemma join_orBlank (ls : list string) : join LF (orBlank ls) = join LF ls.
Proof. by destruct ls. Qed.

Lemma orBlank_nonempty (ls : list string) : orBlank ls <> [].
Proof. by destruct ls. Qed.

Lemma filter_orBlank (p : string -> bool) (ls : list string) :
  p EmptyString = false -> List.filter p (orBlank ls) = List.filter p ls.
Proof. intros H. destruct ls; [cbn; by rewrite H | reflexivity]. Qed.

Lemma sortByChanges_Forall (P : Parser.DiffStat -> Prop) (stats : list Parser.DiffStat) :
  Forall P stats -> Forall P (sortByChanges stats).
Proof.
  intros H. eapply Permutation_Forall; [|exact H].
  symmetry. apply sortByChanges_perm.
Qed.

Lemma summaryLines_noNewline (pr_id : Z) (fullDiff : string) (options : DiffOptions)
    (stats : list Parser.DiffStat) :
  pathsOnOneLine stats ->
  Forall (fun l => noNewline l = true) (summaryLines pr_id fullDiff options stats).
Proof.
  intros Hp. unfold summaryLines. repeat (apply Forall_app; split).
  - unfold summaryHead, cat. cbn [fold_right].
    repeat constructor;
      rewrite ?noNewline_append, ?noNewline_showZ, ?noNewline_showLength; reflexivity.
  - apply orBlank_Forall; [reflexivity|]. apply Forall_app. split.
    + apply Forall_map. unfold listedFiles. apply Forall_take.
      eapply List.Forall_impl; [|exact Hp]. apply noNewline_fileLine.
    + unfold remainderLines. destruct (10 <? List.length stats)%nat; [|constructor].
      constructor; [|constructor]. unfold cat. cbn [fold_right].
      rewrite !noNewline_append, noNewline_showLength. reflexivity.
  - unfold summaryMiddle, cat. cbn [fold_right].
    repeat constructor; rewrite ?noNewline_append, ?noNewline_showZ; reflexivity.
  - apply orBlank_Forall; [reflexivity|]. apply Forall_map. unfold mostChanged.
    apply Forall_take, sortByChanges_Forall.
    eapply List.Forall_impl; [|exact Hp]. apply noNewline_topLine.
Qed.

Lemma join_listing (stats : list Parser.DiffStat) :
  join LF (List.map fileLine (listedFiles stats) ++ remainderLines stats)
  = String.append (join LF (List.map fileLine (listedFiles stats))) (remainderLine stats).
Proof.
  unfold remainderLines, remainderLine.
  destruct (10 <? List.length stats)%nat eqn:E.
  - apply Nat.ltb_lt in E. rewrite join_app; [|..|discriminate].
    + unfold cat. cbn [fold_right join String.concat]. reflexivity.
    + unfold listedFiles. destruct stats; [cbn in E; lia | discriminate].
  - by rewrite app_nil_r, append_nil_r.
Qed.

(** The text of the summary is its lines joined by newlines. *)
Lemma tooLargeMessage_lines (pr_id : Z) (fullDiff : string) (options : DiffOptions)
    (stats : list Parser.DiffStat) :
  tooLargeMessage pr_id fullDiff options stats
  = join LF (summaryLines pr_id fullDiff options stats).
Proof.
  unfold summaryLines.
  rewrite !join_app
    by (apply orBlank_nonempty || discriminate
        || (intros H; apply app_eq_nil in H as [H _]; revert H;
            (apply orBlank_nonempty || discriminate))).
  rewrite !join_orBlank, join_listing.
  unfold tooLargeMessage, summaryHead, summaryMiddle, cat, join.
  cbn [fold_right String.concat].
  rewrite !append_assoc, ?append_nil_r. reflexivity.
Qed.

Lemma summary_split (pr_id : Z) (fullDiff : string) (options : DiffOptions)
    (stats : list Parser.DiffStat) :
  pathsOnOneLine stats ->
  split (tooLargeMessage pr_id fullDiff options stats)
  = summaryLines pr_id fullDiff options stats.
Proof.
  intros Hp. rewrite tooLargeMessage_lines. apply split_join.
  - unfold summaryLines, summaryHead. discriminate.
  - by apply summaryLines_noNewline.
Qed.

Lemma filter_map_all {A : Type} (p : string -> bool) (f : A -> string) (l : list A) :
  (forall x, p (f x) = true) -> List.filter p (List.map f l) = List.map f l.
Proof.
  intros H. induction l as [|x l IH]; [reflexivity|].
  cbn [List.map List.filter]. by rewrite H, IH.
Qed.

Lemma filter_map_none {A : Type} (p : string -> bool) (f : A -> string) (l : list A) :
  (forall x, p (f x) = false) -> List.filter p (List.map f l) = [].
Proof.
  intros H. induction l as [|x l IH]; [reflexivity|].
  cbn [List.map List.filter]. by rewrite H, IH.
Qed.

Lemma summary_entries (pr_id : Z) (fullDiff : string) (options : DiffOptions)
    (stats : list Parser.DiffStat) :
  List.filter isEntryLine (summaryLines pr_id fullDiff options stats)
  = List.map fileLine (firstn 10 stats) ++ List.map topLine (firstn 5 (sortByChanges stats)).
Proof.
  unfold summaryLines. rewrite !List.filter_app, !filter_orBlank by reflexivity.
  rewrite List.filter_app.
  change (List.filter isEntryLine (summaryHead fullDiff options (List.length stats)))
    with (@nil string).
  change (List.filter isEntryLine (summaryMiddle pr_id)) with (@nil string).
  rewrite !filter_map_all by (intros x; apply startsWith_append).
  replace (List.filter isEntryLine (remainderLines stats)) with (@nil string)
    by (unfold remainderLines; destruct (10 <? List.length stats)%nat; reflexivity).
  cbn [app]. by rewrite app_nil_r.
Qed.

Lemma summary_remainder (pr_id : Z) (fullDiff : string) (options : DiffOptions)
    (stats : list Parser.DiffStat) :
  List.filter isRemainderLine (summaryLines pr_id fullDiff options stats)
  = remainderLines stats.
Proof.
  unfold summaryLines. rewrite !List.filter_app, !filter_orBlank by reflexivity.
  rewrite List.filter_app.
  change (List.filter isRemainderLine (summaryHead fullDiff options (List.length stats)))
    with (@nil string).
  change (List.filter isRemainderLine (summaryMiddle pr_id)) with (@nil string).
  rewrite !filter_map_none by reflexivity.
  replace (List.filter isRemainderLine (remainderLines stats)) with (remainderLines stats)
    by (unfold remainderLines; destruct (10 <? List.length stats)%nat; [|reflexivity];
        cbn [List.filter]; unfold isRemainderLine, cat; cbn [fold_right];
        rewrite startsWith_append; reflexivity).
  cbn [app]. by rewrite app_nil_r.
Qed.

End SummaryFacts.

(** C2, amended.  For a call without [file_path] whose diff fetch returns
    [fullDiff]: when the length of [fullDiff] is at most four times the
    budget, the result is the filtered diff, not truncated; when it is
    more and the diffstat retrieval returns [stats], the result is the
    summary, truncated, with all paths in [files_list]; when it is more and
    the diffstat retrieval throws, the result is that of fetching the diff
    again.  Of the text of the summary, when no path holds a line feed: its
    lines that list a file (they start with [- ]) are the lines of the
    first ten files of [stats], in the order of [stats], and then the lines
    of the first five files of [stats] sorted by added plus removed lines,
    descending, files with the same total in the order of [stats]; it has
    one line that counts the files not listed, [stats] less ten, when there
    are more than ten, and no such line otherwise. *)
Theorem enhanced_diff_budget :
  forall (world : nat -> Upstream) (workspace repo_slug : string) (pr_id : Z)
         (fileChain : string -> nat -> Result string * nat)
         (options : DiffOptions) (calls : nat) (fullDiff : string) (calls1 : nat),
    noFilePath options ->
    getPullRequestDiff world workspace repo_slug pr_id calls = (Returned fullDiff, calls1) ->
    (Z.of_nat (String.length fullDiff) <= 4 * maxTokenSize options ->
     getPullRequestDiffEnhanced world workspace repo_slug pr_id fileChain options calls
     = (Returned {| diff := applyDiffFilters fullDiff options;
                    truncated := false; files_list := None |}, calls1))
    /\ (4 * maxTokenSize options < Z.of_nat (String.length fullDiff) ->
        (forall stats calls2,
            getPullRequestDiffStat world workspace repo_slug pr_id calls1
            = (Returned stats, calls2) ->
            getPullRequestDiffEnhanced world workspace repo_slug pr_id fileChain options calls
            = (Returned {| diff := tooLargeMessage pr_id fullDiff options stats;
                           truncated := true;
                           files_list := Some (List.map pathOrUnknown stats) |}, calls2))
        /\ (forall error calls2,
               getPullRequestDiffStat world workspace repo_slug pr_id calls1
               = (Threw error, calls2) ->
               getPullRequestDiffEnhanced world workspace repo_slug pr_id fileChain
                 options calls
               = originalBehavior world workspace repo_slug pr_id options calls2))
    /\ (forall stats : list Parser.DiffStat,
           pathsOnOneLine stats ->
           List.filter isEntryLine (split (tooLargeMessage pr_id fullDiff options stats))
           = List.map fileLine (firstn 10 stats)
             ++ List.map topLine (firstn 5 (sortByChanges stats))
           /\ List.filter isRemainderLine
                (split (tooLargeMessage pr_id fullDiff options stats))
              = (if (10 <? List.length stats)%nat
                 then [cat ["... and "; showLength (List.length stats - 10); " more files"]]
                 else [])
           /\ Sorted byChanges (sortByChanges stats)
           /\ Permutation (sortByChanges stats) stats).
Proof.
  intros world workspace repo_slug pr_id fileChain options calls fullDiff calls1 Hnf Hget.
  assert (Henh : getPullRequestDiffEnhanced world workspace repo_slug pr_id fileChain
                   options calls
                 = if withinBudget fullDiff options then
                     (Returned {| diff := applyDiffFilters fullDiff options;
                                  truncated := false; files_list := None |}, calls1)
                   else
                     match getPullRequestDiffStat world workspace repo_slug pr_id calls1 with
                     | (Threw _, calls2) =>
                         originalBehavior world workspace repo_slug pr_id options calls2
                     | (Returned diffStat, calls2) =>
                         (Returned {| diff := tooLargeMessage pr_id fullDiff options diffStat;
                                      truncated := true;
                                      files_list := Some (List.map pathOrUnknown diffStat) |},
                          calls2)
                     end).
  { unfold getPullRequestDiffEnhanced. unfold noFilePath in Hnf.
    destruct (file_path options) as [[|c r]|]; simpl in Hnf; try discriminate;
      rewrite Hget; reflexivity. }
  split; [|split].
  - intros Hle. rewrite Henh. unfold withinBudget.
    replace (_ <=? _) with true by (symmetry; apply Z.leb_le; exact Hle). reflexivity.
  - intros Hlt. rewrite Henh. unfold withinBudget.
    replace (_ <=? _) with false by (symmetry; apply Z.leb_gt; exact Hlt).
    split; intros ? ? ->; reflexivity.
  - intros stats Hp. rewrite (summary_split pr_id fullDiff options stats Hp).
    split; [apply summary_entries|]. split; [apply summary_remainder|].
    split; [apply sortByChanges_sorted | apply sortByChanges_perm].
Qed.

(** Twelve files, the sixth and the ninth with the same number of changed
    lines. *)
Definition statOf (name : string) (added removed : Z) : Parser.DiffStat :=
  {| Parser.old := Some name; Parser.new := Some name; Parser.status := Parser.modified;
     Parser.lines_added := added; Parser.lines_removed := removed |}.

Definition manyStats : list Parser.DiffStat :=
  [ statOf "f01.ts" 1 0; statOf "f02.ts" 30 2; statOf "f03.ts" 3 0; statOf "f04.ts" 4 4;
    statOf "f05.ts" 5 0; statOf "f06.ts" 20 0; statOf "f07.ts" 7 0; statOf "f08.ts" 8 1;
    statOf "f09.ts" 10 10; statOf "f10.ts" 2 0; statOf "f11.ts" 50 0; statOf "f12.ts" 0 40 ].

Definition manyUpstream : Upstream :=
  {| pullRequestDiff := Ok bigDiff;
     pullRequest := Ok plainPR;
     pullRequestCommits := Ok [];
     pullRequestDiffStat := Ok manyStats;
     diffOf := fun _ => Err (Some 404) "Not Found" |}.

Lemma enhanced_diff_budget_witness :
  noFilePath smallBudget
  /\ getPullRequestDiff (fun _ => manyUpstream) "team" "app" 7 0 = (Returned bigDiff, 2%nat)
  /\ 4 * maxTokenSize smallBudget < Z.of_nat (String.length bigDiff)
  /\ getPullRequestDiffStat (fun _ => manyUpstream) "team" "app" 7 2
     = (Returned manyStats, 3%nat)
  /\ pathsOnOneLine manyStats
  /\ getPullRequestDiffEnhanced (fun _ => manyUpstream) "team" "app" 7 noFileChain
       smallBudget 0
     = (Returned {| diff := tooLargeMessage 7 bigDiff smallBudget manyStats;
                    truncated := true;
                    files_list := Some (List.map pathOrUnknown manyStats) |}, 3%nat)
  /\ List.filter isEntryLine (split (tooLargeMessage 7 bigDiff smallBudget manyStats))
     = [ "- f01.ts (modified) +1/-0"; "- f02.ts (modified) +30/-2";
         "- f03.ts (modified) +3/-0"; "- f04.ts (modified) +4/-4";
         "- f05.ts (modified) +5/-0"; "- f06.ts (modified) +20/-0";
         "- f07.ts (modified) +7/-0"; "- f08.ts (modified) +8/-1";
         "- f09.ts (modified) +10/-10"; "- f10.ts (modified) +2/-0";
         "- f11.ts (+50/-0)"; "- f12.ts (+0/-40)"; "- f02.ts (+30/-2)";
         "- f06.ts (+20/-0)"; "- f09.ts (+10/-10)" ]
  /\ List.filter isRemainderLine (split (tooLargeMessage 7 bigDiff smallBudget manyStats))
     = [ "... and 2 more files" ].
Proof.
  assert (Hnf : noFilePath smallBudget) by reflexivity.
  assert (Hget : getPullRequestDiff (fun _ => manyUpstream) "team" "app" 7 0
                 = (Returned bigDiff, 2%nat)) by (vm_compute; reflexivity).
  assert (Hlt : 4 * maxTokenSize smallBudget < Z.of_nat (String.length bigDiff))
    by (vm_compute; reflexivity).
  assert (Hstat : getPullRequestDiffStat (fun _ => manyUpstream) "team" "app" 7 2
                  = (Returned manyStats, 3%nat)) by (vm_compute; reflexivity).
  assert (Hp : pathsOnOneLine manyStats) by (repeat constructor).
  pose proof (enhanced_diff_budget (fun _ => manyUpstream) "team" "app" 7
                noFileChain smallBudget 0%nat bigDiff 2%nat Hnf Hget)
    as (_ & Hover & Htext).
  destruct (Htext manyStats Hp) as (Hentries & Hrem & _).
  split; [exact Hnf|]. split; [exact Hget|]. split; [exact Hlt|]. split; [exact Hstat|].
  split; [exact Hp|].
  split; [exact (proj1 (Hover Hlt) manyStats 3%nat Hstat)|].
  split; [rewrite Hentries; vm_compute; reflexivity|].
  rewrite Hrem. vm_compute. reflexivity.
Defined.

(** The length of the Access Denied report, in code units: the symbols of
    the report count for seven. *)
Example access_denied_report_length :
  String.length (accessDeniedReport "team" "app" 7 plainPR) = 1168%nat.
Proof. vm_compute. reflexivity. Qed.

End Fetcher.

(** * Further properties of the modelled code *)

(** ** The post-filters applied again, and the size of their output *)

Module FilterLaws.

Section Again.

Variable n : Z.
Hypothesis n_nonneg : 0 <= n.

(** Reading kept lines again from a prefix that agrees on the two loop
    variables keeps all of them. *)
Lemma keptFrom_again (rest : list string) :
  forall pre pre' : list string,
    afterHunkHeader pre' = afterHunkHeader pre ->
    Z.min n (contextRun pre') = Z.min n (contextRun pre) ->
    keptFrom n pre' (keptFrom n pre rest) = keptFrom n pre rest.
Proof.
  induction rest as [|l rest IH]; intros pre pre' Hah Hrun; [reflexivity|].
  pose proof (contextRun_nonneg pre) as Hp.
  pose proof (contextRun_nonneg pre') as Hp'.
  cbn [keptFrom].
  destruct (trimmed n pre l) eqn:Et.
  - cbn [app]. apply IH.
    + rewrite afterHunkHeader_snoc, Hah.
      unfold trimmed, isContext in Et.
      destruct (isHunkHeader l); [|by rewrite orb_false_r].
      rewrite andb_false_r in Et. discriminate.
    + unfold trimmed in Et.
      apply andb_true_iff in Et as [Et Hle]. apply andb_true_iff in Et as [_ Hc].
      apply Z.leb_le in Hle. rewrite contextRun_snoc, Hc.
      unfold isContext in Hc.
      destruct (isHunkHeader l); [discriminate|].
      destruct (isFileHeader l); [discriminate|].
      destruct (isChange l); [discriminate|]. cbn [orb]. lia.
  - cbn [app keptFrom].
    assert (Et' : trimmed n pre' l = false).
    { unfold trimmed in *. rewrite Hah.
      destruct (afterHunkHeader pre && isContext l); [|reflexivity].
      cbn [andb] in *. apply Z.leb_gt in Et. apply Z.leb_gt. lia. }
    rewrite Et'. cbn [app]. f_equal. apply IH.
    + rewrite !afterHunkHeader_snoc, Hah. reflexivity.
    + rewrite !contextRun_snoc.
      destruct (isHunkHeader l || isChange l); [reflexivity|].
      destruct (isContext l); lia.
Qed.

Lemma trimLines_again (lines : list string) :
  trimLines n (trimLines n lines) = trimLines n lines.
Proof.
  rewrite !(trimLines_trimSpec n n_nonneg). unfold trimSpec.
  by apply keptFrom_again.
Qed.

(** The first line is always kept. *)
Lemma trimLines_first (l : string) (lines : list string) :
  exists kept, trimLines n (l :: lines) = l :: kept.
Proof.
  rewrite (trimLines_trimSpec n n_nonneg). unfold trimSpec. cbn [keptFrom].
  exists (keptFrom n [l] lines). reflexivity.
Qed.

(** The lines of the trimmed text are the lines the loop kept. *)
Lemma trimContext_lines (diff : string) :
  split (trimContext n diff) = trimLines n (split diff).
Proof.
  unfold trimContext. apply split_join.
  - pose proof (split_nonempty diff) as Hne.
    destruct (split diff) as [|l ls]; [congruence|].
    destruct (trimLines_first l ls) as (kept & ->). discriminate.
  - eapply sublist_Forall; [apply trimLines_sublist | apply split_noNewline].
Qed.

Lemma trimContext_again (diff : string) :
  trimContext n (trimContext n diff) = trimContext n diff.
Proof.
  unfold trimContext at 1. rewrite trimContext_lines, trimLines_again. reflexivity.
Qed.

End Again.

Section Whitespace.

Lemma filter_all (f : string -> bool) (ls : list string) :
  Forall (fun l => f l = true) ls -> List.filter f ls = ls.
Proof.
  induction 1 as [|l ls Hl Hls IH]; simpl; [reflexivity|]. rewrite Hl, IH. reflexivity.
Qed.

Lemma filter_satisfies (f : string -> bool) (ls : list string) :
  Forall (fun l => f l = true) (List.filter f ls).
Proof.
  induction ls as [|l ls IH]; simpl; [constructor|].
  destruct (f l) eqn:E; [by constructor | exact IH].
Qed.

(** A text whose lines all pass the test is left as it is. *)
Lemma filterWhitespace_fixed (diff : string) :
  Forall (fun l => keepLine l = true) (split diff) -> filterWhitespace diff = diff.
Proof.
  intros H. unfold filterWhitespace. rewrite filter_all by exact H. apply join_split.
Qed.

Lemma filterWhitespace_passes (diff : string) :
  Forall (fun l => keepLine l = true) (split (filterWhitespace diff)).
Proof.
  destruct (List.filter keepLine (split diff)) as [|k ks] eqn:Hf.
  - unfold filterWhitespace. rewrite Hf. repeat constructor.
  - rewrite filterWhitespace_lines by (rewrite Hf; discriminate).
    apply filter_satisfies.
Qed.

End Whitespace.

(** X1. [applyDiffFilters] is idempotent for every combination of options:
    filtering the filtered text again with the same options changes
    nothing. *)
Theorem applyDiffFilters_idempotent :
  forall (diff : string) (options : DiffOptions),
    applyDiffFilters (applyDiffFilters diff options) options
    = applyDiffFilters diff options.
Proof.
  intros diff options. unfold applyDiffFilters.
  destruct (truthyBool (ignore_whitespace options)) eqn:Hw;
    (destruct (context_lines options) as [n|]; [destruct (0 <=? n) eqn:Hn|]);
    try apply filterWhitespace_idempotent; try reflexivity.
  - apply Z.leb_le in Hn.
    rewrite (filterWhitespace_fixed (trimContext n (filterWhitespace diff))).
    + by apply trimContext_again.
    + rewrite trimContext_lines by exact Hn.
      eapply sublist_Forall; [apply trimLines_sublist | apply filterWhitespace_passes].
  - apply Z.leb_le in Hn. by apply trimContext_again.
Qed.

Section Size.

(** The length of [join LF ls], plus one unless [ls] is empty. *)
Fixpoint weight (ls : list string) : nat :=
  match ls with
  | [] => 0%nat
  | l :: r => (S (String.length l) + weight r)%nat
  end.

Lemma append_length (a b : string) :
  String.length (String.append a b) = (String.length a + String.length b)%nat.
Proof. induction a as [|c a IH]; simpl; [reflexivity|]. by rewrite IH. Qed.

Lemma join_length (ls : list string) :
  String.length (join LF ls) = Nat.pred (weight ls).
Proof.
  induction ls as [|l ls IH]; [reflexivity|].
  destruct ls as [|l' ls'].
  - simpl. lia.
  - change (join LF (l :: l' :: ls'))
      with (String.append l (String.append LF (join LF (l' :: ls')))).
    rewrite !append_length, IH. simpl. lia.
Qed.

Lemma weight_sublist (k l : list string) : sublist k l -> (weight k <= weight l)%nat.
Proof. induction 1; simpl; lia. Qed.

Lemma join_sublist_length (k : list string) (diff : string) :
  sublist k (split diff) -> (String.length (join LF k) <= String.length diff)%nat.
Proof.
  intros Hs. rewrite <- (join_split diff) at 1. rewrite !join_length.
  apply weight_sublist in Hs. lia.
Qed.

End Size.

(** X2. The filters never make the text longer: whatever the options, the
    output has at most as many characters as the input. *)
Theorem applyDiffFilters_not_longer :
  forall (diff : string) (options : DiffOptions),
    (String.length (applyDiffFilters diff options) <= String.length diff)%nat.
Proof.
  intros diff options.
  assert (Hw : (String.length (filterWhitespace diff) <= String.length diff)%nat)
    by (apply join_sublist_length, filter_keeps_sublist).
  assert (Ht : forall m x, (String.length (trimContext m x) <= String.length x)%nat)
    by (intros m x; apply join_sublist_length, trimLines_sublist).
  unfold applyDiffFilters.
  destruct (truthyBool (ignore_whitespace options));
    (destruct (context_lines options) as [n|]; [destruct (0 <=? n)|]);
    try exact Hw; try apply Ht; try reflexivity.
  etransitivity; [apply Ht | exact Hw].
Qed.

End FilterLaws.

(** ** Laws of the TTL cache *)

Module CacheLaws.

Import Cache.

Section Laws.

Context {T : Type}.

Implicit Types (cache : gmap string (CacheEntry T)) (key : string).

Lemma expired_later (t1 t2 : Z) (entry : CacheEntry T) :
  t1 <= t2 -> expired t1 entry = true -> expired t2 entry = true.
Proof. unfold expired. rewrite !Z.ltb_lt. lia. Qed.

Lemma cleanup_subseteq (now : Z) cache : cleanup now cache ⊆ cache.
Proof.
  apply map_subseteq_spec. intros k e. rewrite lookup_cleanup.
  destruct (cache !! k) as [e'|]; [|discriminate].
  destruct (expired now e'); [discriminate|]. auto.
Qed.

End Laws.

(** X3. A value stored with [set] at time [t] is what [get] returns at any
    time [now] with [now - t <= ttl], and that read leaves the cache as it
    is; storing under one key does not change what [get] returns for
    another. *)
Theorem set_then_get :
  forall (T : Type) (cache : gmap string (CacheEntry T)) (key other : string)
         (v : T) (t now ttlMs : Z),
    now - t <= ttlMs ->
    key <> other ->
    get now key (set t key v ttlMs cache) = (Some v, set t key v ttlMs cache)
    /\ fst (get now other (set t key v ttlMs cache)) = fst (get now other cache).
Proof.
  intros T cache key other v t now ttlMs Hage Hne. unfold get, set. split.
  - rewrite lookup_insert_eq. unfold expired; simpl.
    replace (ttlMs <? now - t) with false by (symmetry; apply Z.ltb_ge; lia).
    reflexivity.
  - rewrite lookup_insert_ne by exact Hne.
    destruct (cache !! other) as [e|]; [|reflexivity].
    destruct (expired now e); reflexivity.
Qed.

Lemma set_then_get_witness :
  1500 - 1000 <= 60000 /\ "pr:team:app:7" <> "pr:team:app:8"
  /\ get 1500 "pr:team:app:7" (set 1000 "pr:team:app:7" 42 60000 ∅)
     = (Some 42, set 1000 "pr:team:app:7" 42 60000 ∅).
Proof.
  assert (H1 : 1500 - 1000 <= 60000) by lia.
  assert (H2 : "pr:team:app:7" <> "pr:team:app:8") by discriminate.
  split; [exact H1|]. split; [exact H2|].
  exact (proj1 (set_then_get Z ∅ "pr:team:app:7" "pr:team:app:8" 42 1000 1500 60000 H1 H2)).
Defined.

(** X4. [has] and [get] agree: [has] answers true exactly when [get]
    returns a value, and both leave the same cache behind, the expired
    entry deleted. *)
Theorem has_agrees_with_get :
  forall (T : Type) (now : Z) (key : string) (cache : gmap string (CacheEntry T)),
    (fst (has now key cache) = true <-> fst (get now key cache) <> None)
    /\ snd (has now key cache) = snd (get now key cache).
Proof.
  intros T now key cache. unfold has, get.
  destruct (cache !! key) as [e|]; simpl; [destruct (expired now e); simpl|];
    (split; [split; [intros; congruence | intros H; try reflexivity; by destruct H]
            | reflexivity]).
Qed.

(** X5. The sweep [cleanup] at time [now] keeps exactly the entries that
    are not expired at [now]; sweeping twice is sweeping once; the cache
    never grows; and a read at the time of the sweep returns the same with
    and without the sweep. *)
Theorem cleanup_laws :
  forall (T : Type) (now : Z) (cache : gmap string (CacheEntry T)),
    (forall key entry,
        cleanup now cache !! key = Some entry
        <-> cache !! key = Some entry /\ now - timestamp entry <= ttl entry)
    /\ cleanup now (cleanup now cache) = cleanup now cache
    /\ (size (cleanup now cache) <= size cache)%nat
    /\ (forall key, fst (get now key (cleanup now cache)) = fst (get now key cache)).
Proof.
  intros T now cache. split; [|split; [|split]].
  - intros key entry. rewrite lookup_cleanup. unfold expired.
    destruct (cache !! key) as [e|]; [|split; [discriminate|intros [? _]; discriminate]].
    destruct (ttl e <? now - timestamp e) eqn:E.
    + apply Z.ltb_lt in E. split; [discriminate|]. intros [[= ->] ?]. lia.
    + apply Z.ltb_ge in E. split; [intros [= ->]; auto | intros [? _]; assumption].
  - apply map_eq. intros k. rewrite !lookup_cleanup.
    destruct (cache !! k) as [e|]; [|reflexivity].
    destruct (expired now e) eqn:E; [reflexivity|]. rewrite E. reflexivity.
  - apply map_subseteq_size, cleanup_subseteq.
  - intros key. apply get_after_cleanup.
Qed.

(** X6. A later sweep makes an earlier one redundant: for [t1 <= t2],
    sweeping at [t1] and then at [t2] leaves what sweeping at [t2] alone
    leaves. *)
Theorem cleanup_later_subsumes :
  forall (T : Type) (t1 t2 : Z) (cache : gmap string (CacheEntry T)),
    t1 <= t2 ->
    cleanup t2 (cleanup t1 cache) = cleanup t2 cache.
Proof.
  intros T t1 t2 cache Hle. apply map_eq. intros k. rewrite !lookup_cleanup.
  destruct (cache !! k) as [e|]; [|reflexivity].
  destruct (expired t1 e) eqn:E1; [|reflexivity].
  rewrite (expired_later t1 t2 e Hle E1). reflexivity.
Qed.

Lemma cleanup_later_subsumes_witness :
  60000 <= 120000
  /\ cleanup 120000 (cleanup 60000 (set 0 "repo:team:app" 1 300000 ∅))
     = cleanup 120000 (set 0 "repo:team:app" 1 300000 ∅).
Proof.
  assert (H : 60000 <= 120000) by lia.
  split; [exact H|].
  exact (cleanup_later_subsumes Z 60000 120000 (set 0 "repo:team:app" 1 300000 ∅) H).
Defined.

(** *** Invalidation by pattern ([invalidateCacheByPattern]) *)

(** [invalidateCacheByPattern(pattern)]: delete every key that includes
    [pattern]. *)
Definition invalidateCacheByPattern {T : Type} (pattern : string)
    (cache : gmap string (CacheEntry T)) : gmap string (CacheEntry T) :=
  foldr delete cache
        (List.filter (fun key => includes key pattern) (map_to_list cache).*1).

(** [CacheKeys.pullRequests(workspace, repo_slug, filters)] *)
Definition pullRequestsKey (workspace repo_slug filters : string) : string :=
  String.append "prs:" (String.append workspace (String.append ":"
    (String.append repo_slug (String.append ":" filters)))).

Section Invalidation.

Context {T : Type}.

Lemma lookup_invalidate (pattern : string) (cache : gmap string (CacheEntry T))
    (key : string) :
  invalidateCacheByPattern pattern cache !! key =
  if includes key pattern then None else cache !! key.
Proof.
  unfold invalidateCacheByPattern. rewrite lookup_foldr_delete.
  destruct (decide (key ∈ List.filter (fun k => includes k pattern)
                                      (map_to_list cache).*1)) as [Hin|Hnin].
  - apply list_elem_of_In, filter_In in Hin as [_ ->]. reflexivity.
  - destruct (includes key pattern) eqn:Ei; [|reflexivity].
    destruct (cache !! key) as [e|] eqn:El; [|reflexivity].
    exfalso. apply Hnin, list_elem_of_In, filter_In. split; [|exact Ei].
    apply list_elem_of_In, list_elem_of_fmap. exists (key, e).
    split; [reflexivity|]. by apply elem_of_map_to_list.
Qed.

Lemma includes_prefix (p s : string) : includes (String.append p s) p = true.
Proof.
  destruct (String.append p s) eqn:E; cbn [includes]; rewrite <- E, startsWith_append;
    reflexivity.
Qed.

Lemma pullRequestsKey_prefix (workspace repo_slug filters : string) :
  pullRequestsKey workspace repo_slug filters
  = String.append (pullRequestsKey workspace repo_slug EmptyString) filters.
Proof.
  unfold pullRequestsKey.
  assert (Hassoc : forall a b c, String.append (String.append a b) c
                                 = String.append a (String.append b c)).
  { intros a b c. induction a as [|x a IH]; [reflexivity|].
    change (String x (String.append (String.append a b) c)
            = String x (String.append a (String.append b c))).
    f_equal. exact IH. }
  rewrite !Hassoc. reflexivity.
Qed.

End Invalidation.

(** X7. [invalidateCacheByPattern] removes exactly the keys that include
    the pattern and leaves every other entry as it is.  With the pattern
    [prs:workspace:repo:] that [createPullRequest] passes, no cached list of
    pull requests of that repository is left, whatever its filters. *)
Theorem invalidate_by_pattern :
  forall (T : Type) (pattern : string) (cache : gmap string (CacheEntry T)),
    (forall key, includes key pattern = true ->
                 invalidateCacheByPattern pattern cache !! key = None)
    /\ (forall key, includes key pattern = false ->
                    invalidateCacheByPattern pattern cache !! key = cache !! key)
    /\ (forall workspace repo_slug filters,
           invalidateCacheByPattern (pullRequestsKey workspace repo_slug EmptyString) cache
             !! pullRequestsKey workspace repo_slug filters = None).
Proof.
  intros T pattern cache. split; [|split].
  - intros key H. rewrite lookup_invalidate, H. reflexivity.
  - intros key H. rewrite lookup_invalidate, H. reflexivity.
  - intros workspace repo_slug filters.
    rewrite lookup_invalidate, (pullRequestsKey_prefix workspace repo_slug filters),
      includes_prefix. reflexivity.
Qed.

End CacheLaws.

(** ** Laws of the transport layer *)

Module TransportLaws.

Import Transport.

(** The waits before the retry of a rate-limited request. *)
Definition rateLimitWaits (log : list Event) : nat :=
  List.length (List.filter (fun e => match e with RateLimitWait _ => true | _ => false end) log).

(** The waits of the request interceptor. *)
Definition paces (log : list Event) : list Z :=
  omap (fun e => match e with Pace ms => Some ms | _ => None end) log.

(** An answer whose [retry-after] value, if it has one, is a number. *)
Definition numericHint (r : Response) : bool :=
  match r with
  | HttpError _ (Some NaN) => false
  | _ => true
  end.

(** A 429 with a [retry-after] value that is a number: the one answer that
    gives the pacing delay a value that does not come from the delay. *)
Definition resetsDelay (r : Response) : bool :=
  match r with
  | HttpError status (Some (Int _)) => status =? 429
  | _ => false
  end.

Section Counting.

Lemma rateLimitWaits_app (l1 l2 : list Event) :
  rateLimitWaits (l1 ++ l2) = (rateLimitWaits l1 + rateLimitWaits l2)%nat.
Proof. unfold rateLimitWaits. rewrite List.filter_app, length_app. reflexivity. Qed.

Lemma rateLimitWaits_pace (delay : JsNumber) : rateLimitWaits (pace delay) = 0%nat.
Proof. unfold pace. destruct delay as [ms|]; [destruct (0 <? ms)|]; reflexivity. Qed.

Lemma paces_app (l1 l2 : list Event) : paces (l1 ++ l2) = paces l1 ++ paces l2.
Proof. unfold paces. apply omap_app. Qed.

(** From a configuration with [k] retries counted: at most one wait for a
    rate limit, none when the request was already retried for one, and at
    most [1 + (maxRetries - k)] attempts, one more when it was not. *)
Lemma request_counts (server : list Response) :
  forall (config : RequestConfig) (delay : JsNumber) (log : list Event),
    0 <= _retryCount config <= maxRetries ->
    (rateLimitWaits (events (request server config delay log))
     <= rateLimitWaits log + (if _retry config then 0 else 1))%nat
    /\ (Z.of_nat (sends (events (request server config delay log)))
        <= Z.of_nat (sends log) + 1 + (maxRetries - _retryCount config)
           + (if _retry config then 0 else 1)).
Proof.
  induction server as [|r server IH]; intros config delay log Hk.
  - cbn [request events].
    rewrite rateLimitWaits_app, rateLimitWaits_pace, sends_app, sends_pace.
    split; destruct (_retry config); lia.
  - assert (Hw : rateLimitWaits (log ++ pace delay ++ [Send]) = rateLimitWaits log).
    { rewrite !rateLimitWaits_app, rateLimitWaits_pace.
      change (rateLimitWaits [Send]) with 0%nat. lia. }
    assert (Hs : sends (log ++ pace delay ++ [Send]) = S (sends log)).
    { rewrite !sends_app, sends_pace. change (sends [Send]) with 1%nat. lia. }
    assert (Hww : forall w, rateLimitWaits [RateLimitWait w] = 1%nat) by reflexivity.
    assert (Hsw : forall w, sends [RateLimitWait w] = 0%nat) by reflexivity.
    assert (Hwb : forall a m, rateLimitWaits [Backoff a m] = 0%nat) by reflexivity.
    assert (Hsb : forall a m, sends [Backoff a m] = 0%nat) by reflexivity.
    destruct r as [body|status ra|].
    + cbn [request events]. rewrite Hw, Hs. split; destruct (_retry config); lia.
    + destruct ((status =? 429) && negb (_retry config)) eqn:E429.
      * cbn [request]. rewrite E429. cbv iota.
        apply andb_true_iff in E429 as [_ Hr]. apply negb_true_iff in Hr.
        match goal with
        | |- context [request server ?c ?d ?l] => destruct (IH c d l Hk) as [IHw IHs]
        end.
        cbn [_retry _retryCount] in IHw, IHs.
        rewrite rateLimitWaits_app, Hw, Hww in IHw.
        rewrite sends_app, Hs, Hsw in IHs. rewrite Hr.
        split; lia.
      * destruct ((500 <=? status) && (_retryCount config <? maxRetries)) eqn:E.
        -- cbn [request]. rewrite E429, E. cbv iota.
           apply andb_true_iff in E as [_ Hlt]. apply Z.ltb_lt in Hlt.
           match goal with
           | |- context [request server ?c ?d ?l] =>
               destruct (IH c d l) as [IHw IHs]; [cbn [_retryCount]; lia|]
           end.
           cbn [_retry _retryCount] in IHw, IHs.
           rewrite rateLimitWaits_app, Hw, Hwb in IHw.
           rewrite sends_app, Hs, Hsb in IHs.
           split; destruct (_retry config); lia.
        -- cbn [request]. rewrite E429, E. cbn [events].
           rewrite Hw, Hs. split; destruct (_retry config); lia.
    + cbn [request events]. rewrite Hw, Hs. split; destruct (_retry config); lia.
Qed.

(** With hints that are numbers the pacing delay is a number; it does not
    end above the cap when it started at or below it, and is at least the
    floor after a success. *)
Lemma request_delay (server : list Response) :
  forall (config : RequestConfig) (delay : Z) (log : list Event),
    Forall (fun r => numericHint r = true) server ->
    exists final : Z,
      rateLimitDelay (request server config delay log) = Int final
      /\ (delay <= 10000 -> final <= 10000)
      /\ (forall body,
             outcome (request server config delay log) = Some (Resolved body) ->
             100 <= final).
Proof.
  induction server as [|r server IH]; intros config delay log Hnum.
  - exists delay. cbn [request rateLimitDelay outcome].
    split; [reflexivity|]. split; [auto | discriminate].
  - inversion Hnum as [|? ? Hr Hrest]; subst.
    destruct r as [body|status ra|].
    + exists (Z.max 100 (delay - 50)). cbn [request rateLimitDelay outcome].
      split; [reflexivity|]. split; intros; lia.
    + assert (Hd' : exists d' : Z,
                 (if status =? 429
                  then mathMin match ra with Some seconds => times seconds 1000
                                        | None => times delay 2 end 10000
                  else Int delay) = Int d'
                 /\ (delay <= 10000 -> d' <= 10000)).
      { destruct (status =? 429); [|exists delay; auto].
        destruct ra as [[seconds|]|]; [|discriminate|].
        - exists (Z.min (seconds * 1000) 10000). split; [reflexivity | lia].
        - exists (Z.min (delay * 2) 10000). split; [reflexivity | lia]. }
      destruct Hd' as (d' & Hd' & Hcap).
      destruct ((status =? 429) && negb (_retry config)) eqn:E429.
      * cbn [request]. rewrite E429, Hd'. cbv iota.
        match goal with
        | |- context [request server ?c (Int d') ?l] =>
            destruct (IH c d' l Hrest) as (final & Hf & Hle & Hge)
        end.
        exists final. split; [exact Hf|]. split; [lia | exact Hge].
      * destruct ((500 <=? status) && (_retryCount config <? maxRetries)) eqn:E.
        -- cbn [request]. rewrite E429, E, Hd'. cbv iota.
           match goal with
           | |- context [request server ?c (Int d') ?l] =>
               destruct (IH c d' l Hrest) as (final & Hf & Hle & Hge)
           end.
           exists final. split; [exact Hf|]. split; [lia | exact Hge].
        -- exists d'. cbn [request]. rewrite E429, E, Hd'. cbn [rateLimitDelay outcome].
           split; [reflexivity|]. split; [exact Hcap | discriminate].
    + exists delay. cbn [request rateLimitDelay outcome].
      split; [reflexivity|]. split; [auto | discriminate].
Qed.

(** Once the pacing delay is NaN it stays NaN, and the request interceptor
    does not wait, until a 429 brings a hint that is a number. *)
Lemma request_delay_nan (server : list Response) :
  forall (config : RequestConfig) (log : list Event),
    Forall (fun r => resetsDelay r = false) server ->
    rateLimitDelay (request server config NaN log) = NaN
    /\ paces (events (request server config NaN log)) = paces log.
Proof.
  induction server as [|r server IH]; intros config log Hno.
  - cbn [request rateLimitDelay events pace]. by rewrite app_nil_r.
  - inversion Hno as [|? ? Hr Hrest]; subst.
    assert (Hlog : paces (log ++ pace NaN ++ [Send]) = paces log).
    { rewrite paces_app. cbn. by rewrite app_nil_r. }
    destruct r as [body|status ra|].
    + cbn [request rateLimitDelay events]. by rewrite Hlog.
    + assert (Hd' : (if status =? 429
                     then mathMin match ra with Some seconds => times seconds 1000
                                           | None => times NaN 2 end 10000
                     else NaN) = NaN).
      { destruct (status =? 429) eqn:E429; [|reflexivity].
        destruct ra as [[seconds|]|]; try reflexivity.
        cbn [resetsDelay] in Hr. congruence. }
      destruct ((status =? 429) && negb (_retry config)) eqn:E429.
      * cbn [request]. rewrite E429, Hd'. cbv iota.
        match goal with
        | |- context [request server ?c NaN ?l] =>
            destruct (IH c l Hrest) as [Hf Hp]
        end.
        split; [exact Hf|]. rewrite Hp, paces_app, Hlog. cbn. by rewrite app_nil_r.
      * destruct ((500 <=? status) && (_retryCount config <? maxRetries)) eqn:E.
        -- cbn [request]. rewrite E429, E, Hd'. cbv iota.
           match goal with
           | |- context [request server ?c NaN ?l] =>
               destruct (IH c l Hrest) as [Hf Hp]
           end.
           split; [exact Hf|]. rewrite Hp, paces_app, Hlog. cbn. by rewrite app_nil_r.
        -- cbn [request]. rewrite E429, E, Hd'. cbn [rateLimitDelay events].
           by rewrite Hlog.
    + cbn [request rateLimitDelay events]. by rewrite Hlog.
Qed.

End Counting.

(** X8. Whatever the server answers to a request sent with a fresh
    configuration, the request is retried for a rate limit (429) at most
    once and is put on the wire at most five times in all. *)
Theorem attempts_bounded :
  forall (server : list Response) (delay : JsNumber),
    (rateLimitWaits (events (request server freshConfig delay [])) <= 1)%nat
    /\ (sends (events (request server freshConfig delay [])) <= 5)%nat.
Proof.
  intros server delay.
  destruct (request_counts server freshConfig delay []) as [Hw Hs];
    [unfold maxRetries; simpl; lia|].
  unfold maxRetries, freshConfig in *. cbn [_retry _retryCount] in *.
  change (rateLimitWaits []) with 0%nat in Hw. change (sends []) with 0%nat in Hs.
  split; lia.
Qed.

(** X9. When every [retry-after] value the server sends is a number, the
    pacing delay is a number, stays at or below the cap of 10 s when it
    starts there, and is at least the floor of 100 ms after any request
    that succeeds.  A 429 whose [retry-after] value is NaN (a header in the
    HTTP-date form) makes the pacing delay NaN: it is still NaN at the end
    of the request, after a success too, and no attempt after the first is
    paced, as long as no 429 brings a value that is a number. *)
Theorem pacing_delay_bounds :
  (forall (server : list Response) (delay : Z),
      delay <= 10000 ->
      Forall (fun r => numericHint r = true) server ->
      exists final : Z,
        rateLimitDelay (request server freshConfig delay []) = Int final
        /\ final <= 10000
        /\ (forall body,
               outcome (request server freshConfig delay []) = Some (Resolved body) ->
               100 <= final))
  /\ (forall (server : list Response) (delay : JsNumber),
         Forall (fun r => resetsDelay r = false) server ->
         rateLimitDelay
           (request (HttpError 429 (Some NaN) :: server) freshConfig delay []) = NaN
         /\ paces (events (request (HttpError 429 (Some NaN) :: server)
                             freshConfig delay []))
            = paces (pace delay)).
Proof.
  split.
  - intros server delay Hd Hnum.
    destruct (request_delay server freshConfig delay [] Hnum) as (final & Hf & Hle & Hge).
    exists final. auto.
  - intros server delay Hno. cbn [request freshConfig _retry _retryCount].
    change ((429 =? 429) && negb false) with true. cbv iota.
    change (if 429 =? 429 then mathMin (times NaN 1000) 10000 else delay) with NaN.
    match goal with
    | |- context [request server ?c NaN ?l] =>
        destruct (request_delay_nan server c l Hno) as [Hf Hp]
    end.
    split; [exact Hf|]. rewrite Hp, !paces_app. cbn. by rewrite !app_nil_r.
Qed.

Lemma pacing_delay_bounds_witness :
  100 <= 10000
  /\ Forall (fun r => numericHint r = true) [HttpError 429 (Some (Int 60)); Success "ok"]
  /\ (exists final : Z,
         rateLimitDelay (request [HttpError 429 (Some (Int 60)); Success "ok"]
                           freshConfig 100 []) = Int final
         /\ final <= 10000)
  /\ Forall (fun r => resetsDelay r = false) [Success "ok"]
  /\ rateLimitDelay (request [HttpError 429 (Some NaN); Success "ok"] freshConfig 100 [])
     = NaN.
Proof.
  assert (H : 100 <= 10000) by lia.
  assert (Hnum : Forall (fun r => numericHint r = true)
                   [HttpError 429 (Some (Int 60)); Success "ok"])
    by (repeat constructor).
  assert (Hno : Forall (fun r => resetsDelay r = false) [Success "ok"])
    by (repeat constructor).
  split; [exact H|]. split; [exact Hnum|]. split.
  { destruct (proj1 pacing_delay_bounds
                [HttpError 429 (Some (Int 60)); Success "ok"] 100 H Hnum)
      as (final & Hf & Hle & _).
    exists final. split; [exact Hf | exact Hle]. }
  split; [exact Hno|].
  exact (proj1 (proj2 pacing_delay_bounds [Success "ok"] 100 Hno)).
Defined.

(** X10. When the first four answers are all server errors (status 500 or
    more), the request is sent four times, waits 1 s, 2 s and 4 s in
    between, and is rejected with the fourth error; later answers are not
    asked for. *)
Theorem server_errors_exhaust_retries :
  forall (r1 r2 r3 r4 : Response) (rest : list Response) (delay : JsNumber),
    isServerError r1 = true -> isServerError r2 = true ->
    isServerError r3 = true -> isServerError r4 = true ->
    outcome (request (r1 :: r2 :: r3 :: r4 :: rest) freshConfig delay [])
    = Some (Rejected r4)
    /\ backoffs (events (request (r1 :: r2 :: r3 :: r4 :: rest) freshConfig delay []))
       = [(0, 1000); (1, 2000); (2, 4000)]
    /\ sends (events (request (r1 :: r2 :: r3 :: r4 :: rest) freshConfig delay []))
       = 4%nat
    /\ rateLimitDelay (request (r1 :: r2 :: r3 :: r4 :: rest) freshConfig delay [])
       = delay.
Proof.
  intros r1 r2 r3 r4 rest delay H1 H2 H3 H4.
  destruct r1 as [|s1 a1|], r2 as [|s2 a2|], r3 as [|s3 a3|], r4 as [|s4 a4|];
    try discriminate.
  simpl in H1, H2, H3, H4.
  assert (Hne : forall s, (500 <=? s) = true -> (s =? 429) = false).
  { intros s Hs. apply Z.leb_le in Hs. apply Z.eqb_neq. lia. }
  cbn [request]. rewrite (Hne s1 H1), (Hne s2 H2), (Hne s3 H3), (Hne s4 H4).
  rewrite H1, H2, H3, H4. unfold pace.
  destruct delay as [ms|]; [destruct (0 <? ms)|]; cbn; repeat split.
Qed.

Lemma server_errors_exhaust_retries_witness :
  isServerError (HttpError 500 None) = true /\ isServerError (HttpError 502 None) = true
  /\ isServerError (HttpError 503 None) = true /\ isServerError (HttpError 504 None) = true
  /\ outcome (request [HttpError 500 None; HttpError 502 None; HttpError 503 None;
                       HttpError 504 None; Success "late"] freshConfig 100 [])
     = Some (Rejected (HttpError 504 None)).
Proof.
  repeat (split; [reflexivity|]).
  exact (proj1 (server_errors_exhaust_retries
                  (HttpError 500 None) (HttpError 502 None) (HttpError 503 None)
                  (HttpError 504 None) [Success "late"] 100
                  eq_refl eq_refl eq_refl eq_refl)).
Defined.

End TransportLaws.

(** ** Laws of the diff parser *)

Module ParserLaws.

Import Parser.

(** What one line of a file's section does to the record of the file: the
    three tests of the loop body, in their order. *)
Definition bodyStep (c : DiffStat) (line : string) : DiffStat :=
  let c1 := if isAddedLine line then incAdded c
            else if isRemovedLine line then incRemoved c
            else c in
  let c2 := if startsWith line "new file mode" then markAdded c1 else c1 in
  if startsWith line "deleted file mode" then markRemoved c2 else c2.

(** The record of a section whose header matches the pattern. *)
Definition sectionRecord (section : string * list string) : option DiffStat :=
  match matchStatsHeader (fst section) with
  | Some (a, b) => Some (fold_left bodyStep (snd section) (newFile a b))
  | None => None
  end.

Definition isNewFileMode (line : string) : bool := startsWith line "new file mode".
Definition isDeletedFileMode (line : string) : bool := startsWith line "deleted file mode".

Definition headerCount (lines : list string) : nat :=
  List.length (List.filter isFileHeaderLine lines).

(** The record still to be pushed, if there is one. *)
Definition pending (st : ParseState) : nat :=
  match currentFile st with Some _ => 1%nat | None => 0%nat end.

Section Sections.

Lemma parseStep_body_exact (recs : list DiffStat) (c : DiffStat) (l : string) :
  isFileHeaderLine l = false ->
  parseStep (unshared recs (Some c)) l = unshared recs (Some (bodyStep c l)).
Proof.
  intros Hh. unfold isFileHeaderLine in Hh.
  unfold parseStep, headerOrCount, bodyStep, isAddedLine, isRemovedLine. rewrite Hh.
  change (currentFile (unshared recs (Some c))) with (Some (List.length recs)).
  cbv beta iota zeta.
  set (c1 := if startsWith l "+" && negb (startsWith l "+++") then incAdded c
             else if startsWith l "-" && negb (startsWith l "---") then incRemoved c
             else c).
  assert (H1 : (if startsWith l "+" && negb (startsWith l "+++")
                then update incAdded (List.length recs) (unshared recs (Some c))
                else if startsWith l "-" && negb (startsWith l "---")
                     then update incRemoved (List.length recs) (unshared recs (Some c))
                     else unshared recs (Some c)) = unshared recs (Some c1)).
  { unfold c1. destruct (startsWith l "+" && negb (startsWith l "+++"));
      [apply update_unshared|].
    destruct (startsWith l "-" && negb (startsWith l "---"));
      [apply update_unshared | reflexivity]. }
  rewrite H1. clearbody c1. unfold detectNew.
  change (currentFile (unshared recs (Some c1))) with (Some (List.length recs)).
  cbv beta iota.
  set (c2 := if startsWith l "new file mode" then markAdded c1 else c1).
  assert (H2 : (if startsWith l "new file mode"
                then update markAdded (List.length recs) (unshared recs (Some c1))
                else unshared recs (Some c1)) = unshared recs (Some c2)).
  { unfold c2. destruct (startsWith l "new file mode");
      [apply update_unshared | reflexivity]. }
  rewrite H2. clearbody c2. unfold detectDeleted.
  change (currentFile (unshared recs (Some c2))) with (Some (List.length recs)).
  cbv beta iota.
  destruct (startsWith l "deleted file mode"); [apply update_unshared | reflexivity].
Qed.

(** When every header matches: the closed records, the current record run
    through the lines up to the next header, the records of the sections
    that follow. *)
Lemma parse_records_from (lines : list string) :
  forall (recs : list DiffStat) (cur : option DiffStat),
    headersMatch lines ->
    deref (pushCurrent (fold_left parseStep lines (unshared recs cur)))
    = recs
      ++ from_option (fun c => [fold_left bodyStep (bodyOf lines) c]) [] cur
      ++ omap sectionRecord (sections lines).
Proof.
  induction lines as [|l lines IH]; intros recs cur Hm.
  - cbn [fold_left bodyOf sections omap]. rewrite deref_unshared.
    destruct cur; cbn; by rewrite ?app_nil_r.
  - inversion Hm as [|? ? Hl Hrest]; subst. cbn [fold_left bodyOf sections].
    destruct (isFileHeaderLine l) eqn:Eh.
    + destruct (matchStatsHeader l) as [[a b]|] eqn:Em; [|by destruct (Hl eq_refl)].
      rewrite (parseStep_header recs cur l a b Eh Em), IH by exact Hrest.
      assert (Hrec : omap sectionRecord ((l, bodyOf lines) :: sections lines)
                     = fold_left bodyStep (bodyOf lines) (newFile a b)
                       :: omap sectionRecord (sections lines)).
      { change (omap sectionRecord ((l, bodyOf lines) :: sections lines))
          with (match sectionRecord (l, bodyOf lines) with
                | Some y => y :: omap sectionRecord (sections lines)
                | None => omap sectionRecord (sections lines)
                end).
        unfold sectionRecord at 1. cbn [fst snd]. rewrite Em. reflexivity. }
      rewrite Hrec. rewrite <- app_assoc.
      destruct cur; reflexivity.
    + destruct cur as [c|].
      * rewrite (parseStep_body_exact recs c l Eh), IH by exact Hrest. reflexivity.
      * rewrite parseStep_before_first_header, IH by assumption. reflexivity.
Qed.

Lemma omap_length {A B : Type} (f : A -> option B) (l : list A) :
  (List.length (omap f l) <= List.length l)%nat.
Proof.
  induction l as [|x l IH]; [reflexivity|].
  change (omap f (x :: l)) with (match f x with Some y => y :: omap f l | None => omap f l end).
  destruct (f x); simpl; lia.
Qed.

Lemma omap_length_total {A B : Type} (f : A -> option B) (l : list A) :
  Forall (fun a => f a <> None) l -> List.length (omap f l) = List.length l.
Proof.
  induction 1 as [|a l Ha Hl IH]; [reflexivity|].
  change (omap f (a :: l)) with (match f a with Some y => y :: omap f l | None => omap f l end).
  destruct (f a); [|congruence]. simpl. by rewrite IH.
Qed.

Lemma omap_lookup_total {A B : Type} (f : A -> option B) (l : list A) (i : nat) (x : A) :
  Forall (fun a => f a <> None) l ->
  l !! i = Some x -> omap f l !! i = f x.
Proof.
  intros Hall. revert i. induction Hall as [|a l Ha Hl IH]; intros i Hi; [discriminate|].
  change (omap f (a :: l)) with (match f a with Some y => y :: omap f l | None => omap f l end).
  destruct (f a) as [y|] eqn:Ef; [|congruence].
  destruct i as [|i]; simpl in *; [congruence | by apply IH].
Qed.

Lemma sections_header_in (lines : list string) (s : string * list string) :
  In s (sections lines) -> In (fst s) lines /\ isFileHeaderLine (fst s) = true.
Proof.
  induction lines as [|l lines IH]; simpl; [contradiction|].
  destruct (isFileHeaderLine l) eqn:E.
  - intros [<-|Hin]; [auto|]. destruct (IH Hin); auto.
  - intros Hin. destruct (IH Hin); auto.
Qed.

Lemma sections_length (lines : list string) :
  List.length (sections lines) = headerCount lines.
Proof.
  unfold headerCount. induction lines as [|l lines IH]; simpl; [reflexivity|].
  destruct (isFileHeaderLine l); simpl; by rewrite IH.
Qed.

Lemma sectionRecord_defined (lines : list string) :
  headersMatch lines -> Forall (fun s => sectionRecord s <> None) (sections lines).
Proof.
  intros Hm. apply List.Forall_forall. intros s Hin.
  destruct (sections_header_in lines s Hin) as [Hl Hh].
  unfold headersMatch in Hm. rewrite List.Forall_forall in Hm.
  specialize (Hm (fst s) Hl Hh). unfold sectionRecord.
  destruct (matchStatsHeader (fst s)) as [[a b]|]; congruence.
Qed.

(** The marks a section leaves on its record. *)
Lemma fold_bodyStep_marks (body : list string) :
  forall c : DiffStat,
    (existsb isDeletedFileMode body = false ->
     new (fold_left bodyStep body c) = new c
     /\ (existsb isNewFileMode body = true ->
         status (fold_left bodyStep body c) = added
         /\ old (fold_left bodyStep body c) = None)
     /\ (existsb isNewFileMode body = false ->
         status (fold_left bodyStep body c) = status c
         /\ old (fold_left bodyStep body c) = old c))
    /\ (existsb isNewFileMode body = false ->
        old (fold_left bodyStep body c) = old c
        /\ (existsb isDeletedFileMode body = true ->
            status (fold_left bodyStep body c) = removed
            /\ new (fold_left bodyStep body c) = None)).
Proof.
  induction body as [|l body IH]; intros c.
  - cbn. repeat split; try discriminate; auto.
  - cbn [fold_left existsb].
    assert (Hstep : new (bodyStep c l)
                    = (if isDeletedFileMode l then None else new c)
                    /\ old (bodyStep c l) = (if isNewFileMode l then None else old c)
                    /\ status (bodyStep c l)
                       = (if isDeletedFileMode l then removed
                          else if isNewFileMode l then added else status c)).
    { unfold bodyStep, isDeletedFileMode, isNewFileMode.
      destruct (isAddedLine l), (isRemovedLine l), (startsWith l "new file mode"),
        (startsWith l "deleted file mode"); cbn; auto. }
    destruct Hstep as (Hn & Ho & Hs).
    destruct (IH (bodyStep c l)) as [IHd IHn].
    destruct (isDeletedFileMode l) eqn:Ed, (isNewFileMode l) eqn:En; cbn [orb].
    + exfalso. unfold isDeletedFileMode, isNewFileMode in *.
      destruct l as [|x l]; cbn [startsWith] in *; [discriminate|].
      destruct (Ascii.eqb_spec "d"%char x) as [<-|]; [|discriminate]. discriminate.
    + split; [discriminate|]. intros Hnew. destruct (IHn Hnew) as [Hold Hdel].
      split; [congruence|]. intros _.
      destruct (existsb isDeletedFileMode body) eqn:Eb.
      * exact (Hdel eq_refl).
      * destruct (IHd eq_refl) as (Hnew' & _ & Hkeep).
        destruct (Hkeep Hnew) as [Hst _]. split; congruence.
    + split; [|discriminate]. intros Hdel. destruct (IHd Hdel) as (Hnew' & Hadd & Hkeep).
      split; [congruence|]. split; [|discriminate]. intros _.
      destruct (existsb isNewFileMode body) eqn:Eb.
      * exact (Hadd eq_refl).
      * destruct (Hkeep eq_refl) as [Hst Hold]. split; congruence.
    + split.
      * intros Hdel. destruct (IHd Hdel) as (Hnew' & Hadd & Hkeep).
        split; [congruence|]. split; [exact Hadd|].
        intros Hnew. destruct (Hkeep Hnew). split; congruence.
      * intros Hnew. destruct (IHn Hnew) as [Hold Hdel]. split; [congruence|exact Hdel].
Qed.

(** The loop pushes at most one record per file header line, whether the
    header matches the pattern or not. *)
Lemma parse_files_bound (lines : list string) :
  forall st : ParseState,
    (List.length (files (fold_left parseStep lines st))
     + pending (fold_left parseStep lines st)
     <= List.length (files st) + pending st + headerCount lines)%nat.
Proof.
  unfold headerCount.
  induction lines as [|l lines IH]; intros st; [cbn; lia|].
  cbn [fold_left List.filter]. etransitivity; [apply IH|].
  assert (Hstep : (List.length (files (parseStep st l))
                   + pending (parseStep st l)
                   <= List.length (files st) + pending st
                      + (if isFileHeaderLine l then 1 else 0))%nat).
  { assert (Hkeep : forall f ref s, files (update f ref s) = files s
                                    /\ currentFile (update f ref s) = currentFile s)
      by (intros; split; reflexivity).
    assert (Hnew : files (detectDeleted (detectNew (headerOrCount st l) l) l)
                   = files (headerOrCount st l)
                   /\ currentFile (detectDeleted (detectNew (headerOrCount st l) l) l)
                      = currentFile (headerOrCount st l)).
    { unfold detectDeleted, detectNew.
      destruct (currentFile (headerOrCount st l)) eqn:Ec; [|rewrite Ec; auto].
      destruct (startsWith l "new file mode"); cbn [currentFile update]; rewrite Ec;
        destruct (startsWith l "deleted file mode"); cbn; auto. }
    unfold pending, parseStep. destruct Hnew as [-> ->].
    unfold headerOrCount, isFileHeaderLine.
    destruct (startsWith l "diff --git").
    - unfold pushCurrent.
      destruct (currentFile st) eqn:Ec; destruct (matchStatsHeader l) as [[a b]|];
        cbn; rewrite ?length_app, ?Ec; cbn; lia.
    - destruct (currentFile st) eqn:Ec; [|rewrite Ec; lia].
      destruct (startsWith l "+" && negb (startsWith l "+++"));
        [cbn; rewrite Ec; lia|].
      destruct (startsWith l "-" && negb (startsWith l "---"));
        cbn; rewrite Ec; lia. }
  unfold headerCount in *. destruct (isFileHeaderLine l); simpl; lia.
Qed.

End Sections.

Lemma parse_sections_eq (diffText : string) :
  headersMatch (split diffText) ->
  parseDiffForFileStats diffText = omap sectionRecord (sections (split diffText)).
Proof.
  intros Hm. unfold parseDiffForFileStats, parseLines.
  change parseInit with (unshared [] None).
  rewrite parse_records_from by exact Hm. reflexivity.
Qed.

(** X11. On a text whose file header lines all match the pattern, the
    parser returns, for each header line in order, the record made from the
    two paths of the header and the lines of its section: one record per
    header line, no object shared. *)
Theorem parse_by_sections :
  forall diffText : string,
    headersMatch (split diffText) ->
    parseDiffForFileStats diffText = omap sectionRecord (sections (split diffText))
    /\ List.length (parseDiffForFileStats diffText) = headerCount (split diffText).
Proof.
  intros diffText Hm.
  pose proof (parse_sections_eq diffText Hm) as Heq.
  split; [exact Heq|]. rewrite Heq, <- sections_length.
  apply omap_length_total, sectionRecord_defined, Hm.
Qed.

Definition renameDiff : string :=
  join LF
    [ "diff --git a/old.ts b/new.ts"; "similarity index 90%";
      "--- a/old.ts"; "+++ b/new.ts"; "@@ -1,2 +1,2 @@"; " keep"; "-before"; "+after";
      "diff --git a/fresh.ts b/fresh.ts"; "new file mode 100644";
      "--- /dev/null"; "+++ b/fresh.ts"; "@@ -0,0 +1,2 @@"; "+one"; "+two" ].

Lemma renameDiff_headers : headersMatch (split renameDiff).
Proof.
  vm_compute. repeat (constructor; [intros; discriminate|]). constructor.
Qed.

Lemma parse_by_sections_witness :
  headersMatch (split renameDiff)
  /\ parseDiffForFileStats renameDiff = omap sectionRecord (sections (split renameDiff)).
Proof.
  split; [exact renameDiff_headers|].
  exact (proj1 (parse_by_sections renameDiff renameDiff_headers)).
Defined.

(** X12. On a text whose file header lines all match the pattern,
    [lines_added] and [lines_removed] of the record of each header line are
    the numbers of lines of its section that begin with [+] but not [+++],
    and with [-] but not [---]. *)
Theorem parse_counts_by_sections :
  forall diffText : string,
    headersMatch (split diffText) ->
    counts (parseDiffForFileStats diffText) = expectedCounts (split diffText).
Proof. exact parse_counts_when_headers_match. Qed.

Lemma parse_counts_by_sections_witness :
  headersMatch (split renameDiff)
  /\ counts (parseDiffForFileStats renameDiff) = expectedCounts (split renameDiff).
Proof.
  split; [exact renameDiff_headers|].
  exact (parse_counts_by_sections renameDiff renameDiff_headers).
Defined.

(** X13. On a text whose file header lines all match the pattern, the
    record of a section with a [new file mode] line and no
    [deleted file mode] line has status [added] and no old path; with a
    [deleted file mode] line and no [new file mode] line it has status
    [removed] and no new path. *)
Theorem parse_file_modes :
  forall (diffText : string) (i : nat) (header : string) (body : list string)
         (record : DiffStat),
    headersMatch (split diffText) ->
    sections (split diffText) !! i = Some (header, body) ->
    parseDiffForFileStats diffText !! i = Some record ->
    (existsb isNewFileMode body = true -> existsb isDeletedFileMode body = false ->
     status record = added /\ old record = None)
    /\ (existsb isDeletedFileMode body = true -> existsb isNewFileMode body = false ->
        status record = removed /\ new record = None).
Proof.
  intros diffText i header body record Hm Hsec Hrec.
  rewrite (parse_sections_eq diffText Hm) in Hrec.
  rewrite (omap_lookup_total sectionRecord _ i (header, body)
             (sectionRecord_defined _ Hm) Hsec) in Hrec.
  unfold sectionRecord in Hrec. cbn [fst snd] in Hrec.
  destruct (matchStatsHeader header) as [[a b]|]; [|discriminate].
  injection Hrec as <-.
  destruct (fold_bodyStep_marks body (newFile a b)) as [Hd Hn]. split.
  - intros Hnew Hdel. destruct (Hd Hdel) as (_ & Hadd & _). exact (Hadd Hnew).
  - intros Hdel Hnew. destruct (Hn Hnew) as (_ & Hrem). exact (Hrem Hdel).
Qed.

(** X14. For every text, matching headers or not, the parser returns at
    most one record per file header line, and so none for a text without a
    file header line. *)
Theorem parse_at_most_one_per_header :
  forall diffText : string,
    (List.length (parseDiffForFileStats diffText) <= headerCount (split diffText))%nat.
Proof.
  intros diffText. unfold parseDiffForFileStats, parseLines, deref.
  etransitivity; [apply omap_length|].
  pose proof (parse_files_bound (split diffText) parseInit) as H. cbn in H.
  unfold pushCurrent, pending in *.
  destruct (currentFile (fold_left parseStep (split diffText) parseInit));
    cbn [files]; rewrite ?length_app; cbn [List.length]; lia.
Qed.

Lemma parse_file_modes_witness :
  headersMatch (split renameDiff)
  /\ sections (split renameDiff) !! 1%nat
     = Some ("diff --git a/fresh.ts b/fresh.ts",
             [ "new file mode 100644"; "--- /dev/null"; "+++ b/fresh.ts";
               "@@ -0,0 +1,2 @@"; "+one"; "+two" ])
  /\ parseDiffForFileStats renameDiff !! 1%nat
     = Some {| old := None; new := Some "fresh.ts"; status := added;
               lines_added := 2; lines_removed := 0 |}
  /\ status {| old := None; new := Some "fresh.ts"; status := added;
               lines_added := 2; lines_removed := 0 |} = added.
Proof.
  assert (Hsec : sections (split renameDiff) !! 1%nat
                 = Some ("diff --git a/fresh.ts b/fresh.ts",
                         [ "new file mode 100644"; "--- /dev/null"; "+++ b/fresh.ts";
                           "@@ -0,0 +1,2 @@"; "+one"; "+two" ]))
    by (vm_compute; reflexivity).
  assert (Hrec : parseDiffForFileStats renameDiff !! 1%nat
                 = Some {| old := None; new := Some "fresh.ts"; status := added;
                           lines_added := 2; lines_removed := 0 |})
    by (vm_compute; reflexivity).
  split; [exact renameDiff_headers|]. split; [exact Hsec|]. split; [exact Hrec|].
  exact (proj1 (proj1 (parse_file_modes renameDiff 1%nat _ _ _
                         renameDiff_headers Hsec Hrec) eq_refl eq_refl)).
Defined.

End ParserLaws.

(** ** Laws of the file-scoped extractor *)

Module ExtractorLaws.

Import Extractor.

(** Every file header line of the text matches the pattern of the
    extractor. *)
Definition headersMatchExtract (lines : list string) : Prop :=
  Forall (fun l => isFileHeaderLine l = true -> matchExtractHeader l <> None) lines.

(** The paths the first loop has seen: two for each header line that
    matches the pattern. *)
Definition pathsSeen (lines : list string) : list string :=
  flat_map headerPaths (List.filter isFileHeaderLine lines).

Section Blocks.

Lemma filter_sublist_of {A : Type} (f : A -> bool) (l : list A) :
  sublist (List.filter f l) l.
Proof.
  induction l as [|x l IH]; simpl; [constructor|].
  destruct (f x); by constructor.
Qed.

Lemma matchedPaths_scan_from (target : string -> bool) (paths : string -> list string)
    (lines : list string) :
  forall st : ScanState,
    matchedPaths (fold_left (scanStep target paths) lines st)
    = matchedPaths st ++ flat_map paths (List.filter isFileHeaderLine lines).
Proof.
  induction lines as [|l lines IH]; intros st; cbn [fold_left List.filter flat_map].
  - by rewrite app_nil_r.
  - rewrite IH. unfold scanStep, isFileHeaderLine.
    destruct (startsWith l "diff --git"); cbn [matchedPaths flat_map];
      [by rewrite <- app_assoc | reflexivity].
Qed.

Lemma matchedPaths_any_path (filePath : string) (lines : list string) :
  matchedPaths (scan (strictTarget filePath) headerPaths lines) = pathsSeen lines.
Proof. unfold scan. rewrite matchedPaths_scan_from. reflexivity. Qed.

Lemma filter_every {A : Type} (f : A -> bool) (l : list A) :
  (forall x, In x l -> f x = true) -> List.filter f l = l.
Proof.
  induction l as [|x l IH]; intros H; [reflexivity|]. simpl.
  rewrite (H x (or_introl eq_refl)), IH; [reflexivity|]. intros y Hy. apply H. by right.
Qed.

End Blocks.

(** X15. What the extractor returns is made of whole file sections of the
    diff, in their order: the text from a file header line up to the next,
    never a part of a section and never the lines before the first header.
    When it selects no section it returns the no-changes message, which
    counts two paths for each header line that matches the pattern. *)
Theorem extract_whole_sections :
  forall fullDiff filePath : string,
  exists selected : list (string * list string),
    sublist selected (sections (split fullDiff))
    /\ extractFileFromDiff fullDiff filePath
       = match selected with
         | [] => noChangesMessage filePath (List.length (pathsSeen (split fullDiff)))
         | _ => join LFLF (List.map blockOf selected)
         end.
Proof.
  intros fullDiff filePath. rewrite extract_by_blocks.
  unfold strictBlocks, lenientBlocks. rewrite !flush_scan, matchedPaths_any_path.
  destruct (List.filter (fun s => strictTarget filePath (fst s))
              (sections (split fullDiff))) as [|s ss] eqn:Hs.
  - exists (List.filter (fun s => lenientTarget filePath (fst s))
                        (sections (split fullDiff))).
    split; [apply filter_sublist_of|]. cbn [List.map].
    destruct (List.filter (fun s => lenientTarget filePath (fst s))
                (sections (split fullDiff))); reflexivity.
  - exists (s :: ss). split; [rewrite <- Hs; apply filter_sublist_of | reflexivity].
Qed.

(** X16. The requested path does not narrow the full-path pass: when the
    file header lines of the diff all match the pattern, the extractor
    returns every section of the diff, whatever path is asked for. *)
Theorem extract_returns_every_section :
  forall fullDiff filePath : string,
    headersMatchExtract (split fullDiff) ->
    sections (split fullDiff) <> [] ->
    extractFileFromDiff fullDiff filePath
    = join LFLF (List.map blockOf (sections (split fullDiff))).
Proof.
  intros fullDiff filePath Hm Hne. rewrite extract_by_blocks.
  unfold strictBlocks. rewrite flush_scan.
  rewrite (filter_every (fun s => strictTarget filePath (fst s))).
  - destruct (sections (split fullDiff)); [congruence | reflexivity].
  - intros s Hin.
    destruct (ParserLaws.sections_header_in _ s Hin) as [Hl Hh].
    apply strictTarget_of_matched_header.
    unfold headersMatchExtract in Hm. rewrite List.Forall_forall in Hm. by apply Hm.
Qed.

Lemma extract_returns_every_section_witness :
  headersMatchExtract (split twoFilesDiff)
  /\ sections (split twoFilesDiff) <> []
  /\ extractFileFromDiff twoFilesDiff "src/a.ts"
     = join LFLF (List.map blockOf (sections (split twoFilesDiff))).
Proof.
  assert (Hm : headersMatchExtract (split twoFilesDiff)).
  { vm_compute. repeat (constructor; [intros; discriminate|]). constructor. }
  assert (Hne : sections (split twoFilesDiff) <> []) by (vm_compute; discriminate).
  split; [exact Hm|]. split; [exact Hne|].
  exact (extract_returns_every_section twoFilesDiff "src/a.ts" Hm Hne).
Defined.

(** X17. A text without a file header line, the empty text among them,
    gives the no-changes message with a count of zero paths, for every
    path. *)
Theorem extract_without_headers :
  forall fullDiff filePath : string,
    Forall (fun l => isFileHeaderLine l = false) (split fullDiff) ->
    extractFileFromDiff fullDiff filePath = noChangesMessage filePath 0.
Proof.
  intros fullDiff filePath Hno. rewrite extract_by_blocks.
  unfold strictBlocks, lenientBlocks.
  rewrite !flush_scan, matchedPaths_any_path, (sections_no_header _ Hno).
  cbn [List.filter List.map]. unfold pathsSeen.
  replace (List.filter isFileHeaderLine (split fullDiff)) with (@nil string);
    [reflexivity|].
  symmetry. induction Hno as [|l ls Hl Hls IH]; simpl; [reflexivity|].
  rewrite Hl. exact IH.
Qed.

Lemma extract_without_headers_witness :
  Forall (fun l => isFileHeaderLine l = false) (split EmptyString)
  /\ extractFileFromDiff EmptyString "src/a.ts" = noChangesMessage "src/a.ts" 0.
Proof.
  assert (H : Forall (fun l => isFileHeaderLine l = false) (split EmptyString))
    by (repeat constructor).
  split; [exact H|]. exact (extract_without_headers EmptyString "src/a.ts" H).
Defined.

End ExtractorLaws.

(** ** Laws of the diff fetcher *)

Module FetcherLaws.

Import Fetcher.

(** Every answer of [/diff/{spec}] is an error or an empty text. *)
Definition noDiffAnywhere (world : nat -> Upstream) : Prop :=
  forall (n : nat) (spec data : string), diffOf (world n) spec = Ok data -> data = EmptyString.

Section Chain.

Variable world : nat -> Upstream.

Lemma tryCommitDiffs_calls (prTitle : string) (commits : list Commit) :
  forall calls : nat,
    (calls <= snd (tryCommitDiffs world prTitle commits calls)
     <= calls + List.length commits)%nat.
Proof.
  induction commits as [|c commits IH]; intros calls; cbn [tryCommitDiffs]; [cbn; lia|].
  unfold clientGet.
  pose proof (IH (S calls)) as H.
  destruct (diffOf (world calls) (hash c)) as [data|status msg]; [|cbn; lia].
  destruct (nonEmpty data); [|cbn; lia].
  destruct (isEmergencyContactTitle prTitle); [|cbn; lia].
  match goal with |- context [if ?b then _ else _] => destruct b end; cbn; lia.
Qed.

Lemma commitFallback_calls (pr : PullRequest) (calls : nat) :
  (calls < snd (commitFallback world pr calls) <= calls + 4)%nat.
Proof.
  unfold commitFallback, clientGet.
  destruct (pullRequestCommits (world calls)) as [commits|status msg]; [|cbn; lia].
  pose proof (tryCommitDiffs_calls (toLowerCase (title pr)) (firstn 3 commits) (S calls)) as H.
  pose proof (firstn_le_length 3 commits) as Hlen.
  rewrite length_firstn in H. lia.
Qed.

Lemma branchCompareFallback_calls (pr : PullRequest) (calls : nat) :
  snd (branchCompareFallback world pr calls) = S calls.
Proof.
  unfold branchCompareFallback, clientGet.
  destruct (diffOf (world calls) _); reflexivity.
Qed.

Lemma commitRangeFallback_calls (pr : PullRequest) (calls : nat) :
  (calls <= snd (commitRangeFallback world pr calls) <= S calls)%nat.
Proof.
  unfold commitRangeFallback, clientGet.
  destruct (source_commit pr) as [src|], (destination_commit pr) as [dst|]; cbn; try lia.
  destruct (nonEmpty src && nonEmpty dst); [|cbn; lia].
  destruct (diffOf (world calls) _); cbn; lia.
Qed.

(** The 404 branch: it throws only when the metadata cannot be read, and
    makes at most seven GETs. *)
Lemma fallbackAfter404_total (workspace repo_slug : string) (pr_id : Z) (calls : nat) :
  (calls < snd (fallbackAfter404 world workspace repo_slug pr_id calls) <= calls + 7)%nat
  /\ (forall pr, pullRequest (world calls) = Ok pr ->
      exists text, fst (fallbackAfter404 world workspace repo_slug pr_id calls)
                   = Returned text).
Proof.
  unfold fallbackAfter404, clientGet.
  destruct (pullRequest (world calls)) as [pr|status msg];
    [|split; [cbn; lia | intros ? [=]]].
  pose proof (commitFallback_calls pr (S calls)) as H1.
  destruct (commitFallback world pr (S calls)) as [[d1|] c1]; cbn [snd] in H1;
    [split; [cbn; lia | intros; eexists; reflexivity]|].
  pose proof (branchCompareFallback_calls pr c1) as H2.
  destruct (branchCompareFallback world pr c1) as [[d2|] c2]; cbn [snd] in H2;
    [split; [cbn; lia | intros; eexists; reflexivity]|].
  pose proof (commitRangeFallback_calls pr c2) as H3.
  destruct (commitRangeFallback world pr c2) as [[d3|] c3]; cbn [snd] in H3;
    (split; [cbn; lia | intros; eexists; reflexivity]).
Qed.

Lemma directFetch_calls (calls : nat) :
  (calls < snd (directFetch world calls) <= calls + 2)%nat.
Proof.
  unfold directFetch, clientGet.
  destruct (pullRequestDiff (world calls)); [|cbn; lia].
  destruct (pullRequest (world (S calls))); [|cbn; lia].
  match goal with |- context [if ?b then _ else _] => destruct b end; cbn; lia.
Qed.

Lemma tryCommitDiffs_none (prTitle : string) (commits : list Commit) :
  noDiffAnywhere world ->
  forall calls, fst (tryCommitDiffs world prTitle commits calls) = None.
Proof.
  intros Hno. induction commits as [|c commits IH]; intros calls; [reflexivity|].
  cbn [tryCommitDiffs]. unfold clientGet.
  destruct (diffOf (world calls) (hash c)) as [data|status msg] eqn:E; [|apply IH].
  rewrite (Hno _ _ _ E). cbn [nonEmpty]. apply IH.
Qed.

(** A commit diff accepted for a pull request of the emergency-contact
    domain is not empty and holds no keyword of the learning domain. *)
Lemma tryCommitDiffs_on_topic (prTitle : string) (commits : list Commit) :
  isEmergencyContactTitle prTitle = true ->
  forall calls data calls',
    tryCommitDiffs world prTitle commits calls = (Some data, calls') ->
    nonEmpty data = true /\ hasLearningContent (toLowerCase data) = false.
Proof.
  intros Ht. induction commits as [|c commits IH]; intros calls data calls';
    cbn [tryCommitDiffs]; [discriminate|].
  unfold clientGet.
  destruct (diffOf (world calls) (hash c)) as [d|status msg]; [|apply IH].
  destruct (nonEmpty d) eqn:En; [|apply IH]. rewrite Ht.
  match goal with |- context [if ?b then _ else _] => destruct b eqn:Eb end;
    [|apply IH].
  intros [= <- <-]. apply andb_true_iff in Eb as [_ Hb].
  apply negb_true_iff in Hb. auto.
Qed.

(** After a 404 of the direct endpoint the result is that of the 404 branch. *)
Lemma getPullRequestDiff_not_found (workspace repo_slug : string) (pr_id : Z)
    (calls : nat) (msg : string) :
  pullRequestDiff (world calls) = Err (Some 404) msg ->
  getPullRequestDiff world workspace repo_slug pr_id calls
  = fallbackAfter404 world workspace repo_slug pr_id (S calls).
Proof.
  intros Hd. unfold getPullRequestDiff, directFetch, clientGet. rewrite Hd. reflexivity.
Qed.

End Chain.

(** X18. A failure of the direct diff endpoint other than a 404 is raised
    at once, wrapped for the operation, after that one GET: no fallback is
    tried. *)
Theorem direct_failure_raises :
  forall (world : nat -> Upstream) (workspace repo_slug : string) (pr_id : Z)
         (calls : nat) (status : option Z) (msg : string),
    pullRequestDiff (world calls) = Err status msg ->
    status <> Some 404 ->
    getPullRequestDiff world workspace repo_slug pr_id calls
    = (Threw (EnhancedMcpError "Get pull request diff" (AxiosError status msg)), S calls).
Proof.
  intros world workspace repo_slug pr_id calls status msg Hd Hne.
  unfold getPullRequestDiff, directFetch, clientGet. rewrite Hd. cbn.
  destruct status as [st|]; [|reflexivity].
  destruct (Z.eqb_spec st 404) as [->|]; [congruence | reflexivity].
Qed.

Lemma direct_failure_raises_witness :
  pullRequestDiff (downUpstream) = Err (Some 503) "Service Unavailable"
  /\ Some 503 <> Some 404
  /\ getPullRequestDiff (fun _ => downUpstream) "team" "app" 7 0
     = (Threw (EnhancedMcpError "Get pull request diff"
                 (AxiosError (Some 503) "Service Unavailable")), 1%nat).
Proof.
  assert (Hne : Some 503 <> Some 404) by discriminate.
  split; [reflexivity|]. split; [exact Hne|].
  exact (direct_failure_raises (fun _ => downUpstream) "team" "app" 7 0%nat
           (Some 503) "Service Unavailable" eq_refl Hne).
Defined.

(** X19. [getPullRequestDiff] makes at least one and at most nine GETs,
    whatever the upstream answers. *)
Theorem fetch_calls_bounded :
  forall (world : nat -> Upstream) (workspace repo_slug : string) (pr_id : Z)
         (calls : nat),
    (calls < snd (getPullRequestDiff world workspace repo_slug pr_id calls)
     <= calls + 9)%nat.
Proof.
  intros world workspace repo_slug pr_id calls. unfold getPullRequestDiff.
  pose proof (directFetch_calls world calls) as Hd.
  destruct (directFetch world calls) as [[data|error] c1]; cbn [snd] in Hd; [cbn; lia|].
  destruct (responseStatus error) as [st|]; [|cbn; lia].
  destruct (st =? 404); [|cbn; lia].
  pose proof (proj1 (fallbackAfter404_total world workspace repo_slug pr_id c1)) as Hf.
  lia.
Qed.

(** X20. After a 404 of the direct diff endpoint, if the metadata of the
    pull request can be read, [getPullRequestDiff] returns a text and does
    not throw, whatever the other endpoints answer. *)
Theorem not_found_never_throws :
  forall (world : nat -> Upstream) (workspace repo_slug : string) (pr_id : Z)
         (calls : nat) (msg : string) (pr : PullRequest),
    pullRequestDiff (world calls) = Err (Some 404) msg ->
    pullRequest (world (S calls)) = Ok pr ->
    exists text,
      fst (getPullRequestDiff world workspace repo_slug pr_id calls) = Returned text.
Proof.
  intros world workspace repo_slug pr_id calls msg pr Hd Hp.
  rewrite (getPullRequestDiff_not_found world workspace repo_slug pr_id calls msg Hd).
  exact (proj2 (fallbackAfter404_total world workspace repo_slug pr_id (S calls)) pr Hp).
Qed.

(** The direct endpoint answers 404, every other endpoint answers. *)
Definition hiddenUpstream : Upstream :=
  {| pullRequestDiff := Err (Some 404) "Not Found";
     pullRequest := Ok plainPR;
     pullRequestCommits := Ok [ {| hash := "c0ffee"; message := "add table" |};
                                {| hash := "decade"; message := "fix table" |} ];
     pullRequestDiffStat := Err (Some 404) "Not Found";
     diffOf := fun _ => Ok contactDiff |}.

(** The direct endpoint answers 404 and no diff can be read anywhere. *)
Definition lockedUpstream : Upstream :=
  {| pullRequestDiff := Err (Some 404) "Not Found";
     pullRequest := Ok plainPR;
     pullRequestCommits := Ok [ {| hash := "c0ffee"; message := "add table" |} ];
     pullRequestDiffStat := Err (Some 404) "Not Found";
     diffOf := fun _ => Err (Some 403) "Forbidden" |}.

Lemma not_found_never_throws_witness :
  pullRequestDiff lockedUpstream = Err (Some 404) "Not Found"
  /\ pullRequest lockedUpstream = Ok plainPR
  /\ exists text,
       fst (getPullRequestDiff (fun _ => lockedUpstream) "team" "app" 7 0) = Returned text.
Proof.
  split; [reflexivity|]. split; [reflexivity|].
  exact (not_found_never_throws (fun _ => lockedUpstream) "team" "app" 7 0%nat
           "Not Found" plainPR eq_refl eq_refl).
Defined.

(** X21. After a 404 of the direct diff endpoint, for a pull request whose
    title names neither domain keyword, the diff of the first listed commit
    is returned when it is not empty, after four GETs: the other commits,
    the branch comparison and the commit range are not asked for. *)
Theorem first_commit_diff_returned :
  forall (world : nat -> Upstream) (workspace repo_slug : string) (pr_id : Z)
         (calls : nat) (msg : string) (pr : PullRequest)
         (commit : Commit) (others : list Commit) (data : string),
    pullRequestDiff (world calls) = Err (Some 404) msg ->
    pullRequest (world (S calls)) = Ok pr ->
    isEmergencyContactTitle (toLowerCase (title pr)) = false ->
    pullRequestCommits (world (S (S calls))) = Ok (commit :: others) ->
    diffOf (world (S (S (S calls)))) (hash commit) = Ok data ->
    nonEmpty data = true ->
    getPullRequestDiff world workspace repo_slug pr_id calls
    = (Returned data, S (S (S (S calls)))).
Proof.
  intros world workspace repo_slug pr_id calls msg pr commit others data
         Hd Hp Ht Hc Hdiff Hne.
  rewrite (getPullRequestDiff_not_found world workspace repo_slug pr_id calls msg Hd).
  unfold fallbackAfter404, clientGet. rewrite Hp.
  unfold commitFallback, clientGet. rewrite Hc.
  cbn [firstn tryCommitDiffs]. unfold clientGet. rewrite Hdiff, Hne, Ht. reflexivity.
Qed.

Lemma first_commit_diff_returned_witness :
  pullRequestDiff hiddenUpstream = Err (Some 404) "Not Found"
  /\ pullRequest hiddenUpstream = Ok plainPR
  /\ isEmergencyContactTitle (toLowerCase (title plainPR)) = false
  /\ nonEmpty contactDiff = true
  /\ getPullRequestDiff (fun _ => hiddenUpstream) "team" "app" 7 0
     = (Returned contactDiff, 4%nat).
Proof.
  repeat (split; [reflexivity|]).
  exact (first_commit_diff_returned (fun _ => hiddenUpstream) "team" "app" 7 0%nat
           "Not Found" plainPR {| hash := "c0ffee"; message := "add table" |}
           [ {| hash := "decade"; message := "fix table" |} ] contactDiff
           eq_refl eq_refl eq_refl eq_refl eq_refl eq_refl).
Defined.

(** X22. After a 404 of the direct diff endpoint, when the metadata can be
    read and no diff endpoint gives a non-empty text, the result is the
    access-denied report for the pull request, returned and not thrown. *)
Theorem access_denied_report_returned :
  forall (world : nat -> Upstream) (workspace repo_slug : string) (pr_id : Z)
         (calls : nat) (msg : string) (pr : PullRequest),
    pullRequestDiff (world calls) = Err (Some 404) msg ->
    pullRequest (world (S calls)) = Ok pr ->
    noDiffAnywhere world ->
    fst (getPullRequestDiff world workspace repo_slug pr_id calls)
    = Returned (accessDeniedReport workspace repo_slug pr_id pr).
Proof.
  intros world workspace repo_slug pr_id calls msg pr Hd Hp Hno.
  rewrite (getPullRequestDiff_not_found world workspace repo_slug pr_id calls msg Hd).
  unfold fallbackAfter404, clientGet. rewrite Hp.
  assert (H1 : fst (commitFallback world pr (S (S calls))) = None).
  { unfold commitFallback, clientGet.
    destruct (pullRequestCommits (world (S (S calls)))); [|reflexivity].
    by apply tryCommitDiffs_none. }
  destruct (commitFallback world pr (S (S calls))) as [o1 c1]. cbn in H1. subst o1.
  assert (H2 : fst (branchCompareFallback world pr c1) = None).
  { unfold branchCompareFallback, clientGet.
    destruct (diffOf (world c1) _) as [d|] eqn:E; [|reflexivity].
    rewrite (Hno _ _ _ E). reflexivity. }
  destruct (branchCompareFallback world pr c1) as [o2 c2]. cbn in H2. subst o2.
  assert (H3 : fst (commitRangeFallback world pr c2) = None).
  { unfold commitRangeFallback, clientGet.
    destruct (source_commit pr) as [src|], (destination_commit pr) as [dst|];
      try reflexivity.
    destruct (nonEmpty src && nonEmpty dst); [|reflexivity].
    destruct (diffOf (world c2) _) as [d|] eqn:E; [|reflexivity].
    rewrite (Hno _ _ _ E). reflexivity. }
  destruct (commitRangeFallback world pr c2) as [o3 c3]. cbn in H3. subst o3.
  reflexivity.
Qed.

Lemma access_denied_report_returned_witness :
  pullRequestDiff lockedUpstream = Err (Some 404) "Not Found"
  /\ pullRequest lockedUpstream = Ok plainPR
  /\ noDiffAnywhere (fun _ => lockedUpstream)
  /\ fst (getPullRequestDiff (fun _ => lockedUpstream) "team" "app" 7 0)
     = Returned (accessDeniedReport "team" "app" 7 plainPR).
Proof.
  assert (Hno : noDiffAnywhere (fun _ => lockedUpstream))
    by (intros n spec data; discriminate).
  split; [reflexivity|]. split; [reflexivity|]. split; [exact Hno|].
  exact (access_denied_report_returned (fun _ => lockedUpstream) "team" "app" 7 0%nat
           "Not Found" plainPR eq_refl eq_refl Hno).
Defined.

(** X23. For a pull request whose title names the emergency-contact
    domain, a diff that the commit fallback returns is not empty and holds
    none of the learning-domain keywords. *)
Theorem commit_fallback_on_topic :
  forall (world : nat -> Upstream) (pr : PullRequest) (calls calls' : nat)
         (data : string),
    isEmergencyContactTitle (toLowerCase (title pr)) = true ->
    commitFallback world pr calls = (Some data, calls') ->
    nonEmpty data = true /\ hasLearningContent (toLowerCase data) = false.
Proof.
  intros world pr calls calls' data Ht. unfold commitFallback, clientGet.
  destruct (pullRequestCommits (world calls)) as [commits|]; [|discriminate].
  by apply tryCommitDiffs_on_topic.
Qed.

Lemma commit_fallback_on_topic_witness :
  isEmergencyContactTitle (toLowerCase (title emergencyPR)) = true
  /\ commitFallback (fun _ => mismatchUpstream) emergencyPR 2 = (Some contactDiff, 4%nat)
  /\ hasLearningContent (toLowerCase contactDiff) = false.
Proof.
  assert (Hc : commitFallback (fun _ => mismatchUpstream) emergencyPR 2
               = (Some contactDiff, 4%nat)) by (vm_compute; reflexivity).
  split; [reflexivity|]. split; [exact Hc|].
  exact (proj2 (commit_fallback_on_topic (fun _ => mismatchUpstream) emergencyPR
                  2%nat 4%nat contactDiff eq_refl Hc)).
Defined.

(** X24. When the diffstat endpoint fails, [getPullRequestDiffStat] falls
    back on the diff: if [getPullRequestDiff] returns a text whose file
    header lines all match the pattern of the parser, the result holds one
    record per header line with the counts of its section; if it throws,
    the error raised is the one of the diffstat endpoint, not the later
    one. *)
Theorem diffstat_fallback :
  forall (world : nat -> Upstream) (workspace repo_slug : string) (pr_id : Z)
         (calls : nat) (status : option Z) (msg : string),
    pullRequestDiffStat (world calls) = Err status msg ->
    (forall diffText calls',
        getPullRequestDiff world workspace repo_slug pr_id (S calls)
        = (Returned diffText, calls') ->
        Parser.headersMatch (split diffText) ->
        exists stats,
          getPullRequestDiffStat world workspace repo_slug pr_id calls
          = (Returned stats, calls')
          /\ Parser.counts stats = Parser.expectedCounts (split diffText)
          /\ List.length stats = ParserLaws.headerCount (split diffText))
    /\ (forall later calls',
           getPullRequestDiff world workspace repo_slug pr_id (S calls)
           = (Threw later, calls') ->
           getPullRequestDiffStat world workspace repo_slug pr_id calls
           = (Threw (EnhancedMcpError "Get pull request diff stats"
                       (AxiosError status msg)), calls')).
Proof.
  intros world workspace repo_slug pr_id calls status msg Hs.
  unfold getPullRequestDiffStat, clientGet. rewrite Hs. split.
  - intros diffText calls' -> Hm. exists (Parser.parseDiffForFileStats diffText).
    split; [reflexivity|].
    split; [by apply Parser.parse_counts_when_headers_match|].
    rewrite (ParserLaws.parse_sections_eq diffText Hm), <- ParserLaws.sections_length.
    apply ParserLaws.omap_length_total, ParserLaws.sectionRecord_defined, Hm.
  - intros later calls' ->. reflexivity.
Qed.

(** The diffstat endpoint is hidden, the diff can be read. *)
Definition statHiddenUpstream : Upstream :=
  {| pullRequestDiff := Ok contactDiff;
     pullRequest := Ok plainPR;
     pullRequestCommits := Ok [];
     pullRequestDiffStat := Err (Some 404) "Not Found";
     diffOf := fun _ => Err (Some 404) "Not Found" |}.

Lemma diffstat_fallback_witness :
  pullRequestDiffStat statHiddenUpstream = Err (Some 404) "Not Found"
  /\ getPullRequestDiff (fun _ => statHiddenUpstream) "team" "app" 7 1
     = (Returned contactDiff, 3%nat)
  /\ Parser.headersMatch (split contactDiff)
  /\ exists stats,
       getPullRequestDiffStat (fun _ => statHiddenUpstream) "team" "app" 7 0
       = (Returned stats, 3%nat)
       /\ Parser.counts stats = Parser.expectedCounts (split contactDiff)
       /\ List.length stats = ParserLaws.headerCount (split contactDiff).
Proof.
  assert (Hget : getPullRequestDiff (fun _ => statHiddenUpstream) "team" "app" 7 1
                 = (Returned contactDiff, 3%nat)) by (vm_compute; reflexivity).
  assert (Hm : Parser.headersMatch (split contactDiff)).
  { vm_compute. repeat (constructor; [intros; discriminate|]). constructor. }
  split; [reflexivity|]. split; [exact Hget|]. split; [exact Hm|].
  exact (proj1 (diffstat_fallback (fun _ => statHiddenUpstream) "team" "app" 7 0%nat
                  (Some 404) "Not Found" eq_refl) contactDiff 3%nat Hget Hm).
Defined.

End FetcherLaws.

(** ** The cached and the branch-probing reads of the client *)

Module Client.

Import Fetcher.

(** [CacheTTL.PULL_REQUESTS] *)
Definition PULL_REQUESTS : Z := 60000.

(** [CacheKeys.pullRequest(workspace, repo_slug, pr_id)] *)
Definition pullRequestKey (workspace repo_slug : string) (pr_id : Z) : string :=
  String.append "pr:" (String.append workspace (String.append ":"
    (String.append repo_slug (String.append ":" (showZ pr_id))))).

(** [getPullRequest], on the entries of the cache that hold pull requests.
    [tGet] is the time of the read of the cache, [tSet] the time of the
    write after the GET; the result is the outcome, the cache and the
    number of GETs. *)
Definition getPullRequest (world : nat -> Upstream) (workspace repo_slug : string)
    (pr_id : Z) (tGet tSet : Z)
    (cache : gmap string (Cache.CacheEntry PullRequest)) (calls : nat)
    : Result PullRequest * gmap string (Cache.CacheEntry PullRequest) * nat :=
  let cacheKey := pullRequestKey workspace repo_slug pr_id in
  match Cache.get tGet cacheKey cache with
  | (Some cached, cache') => (Returned cached, cache', calls)
  | (None, cache') =>
      match clientGet world pullRequest calls with
      | (Returned pr, calls') =>
          (Returned pr, Cache.set tSet cacheKey pr PULL_REQUESTS cache', calls')
      | (Threw error, calls') =>
          (Threw (handleBitbucketError error "Get pull request"), cache', calls')
      end
  end.

Definition emptyCache : gmap string (Cache.CacheEntry PullRequest) := ∅.

(** X25. [getPullRequest] reads through the cache: after a miss answered by
    the upstream, a second call within 60 s of the write returns the same
    pull request without a GET and leaves the cache as it is, whatever the
    upstream would answer by then; a call later than that asks the upstream
    again. *)
Theorem getPullRequest_read_through :
  forall (world later : nat -> Upstream) (workspace repo_slug : string) (pr_id : Z)
         (t1 t2 t3 t4 : Z) (cache : gmap string (Cache.CacheEntry PullRequest))
         (calls : nat) (pr : PullRequest),
    fst (Cache.get t1 (pullRequestKey workspace repo_slug pr_id) cache) = None ->
    pullRequest (world calls) = Ok pr ->
    exists cache1,
      getPullRequest world workspace repo_slug pr_id t1 t2 cache calls
      = (Returned pr, cache1, S calls)
      /\ (t3 - t2 <= PULL_REQUESTS ->
          getPullRequest later workspace repo_slug pr_id t3 t4 cache1 (S calls)
          = (Returned pr, cache1, S calls))
      /\ (PULL_REQUESTS < t3 - t2 ->
          snd (getPullRequest later workspace repo_slug pr_id t3 t4 cache1 (S calls))
          = S (S calls)).
Proof.
  intros world later workspace repo_slug pr_id t1 t2 t3 t4 cache calls pr Hmiss Hp.
  unfold getPullRequest at 1.
  destruct (Cache.get t1 (pullRequestKey workspace repo_slug pr_id) cache)
    as [o cache'] eqn:Hg.
  cbn [fst] in Hmiss. subst o. unfold clientGet. rewrite Hp.
  eexists. split; [reflexivity|]. unfold getPullRequest, Cache.get, Cache.set.
  rewrite lookup_insert_eq. unfold Cache.expired. cbn [Cache.ttl Cache.timestamp Cache.data].
  split.
  - intros Hfresh.
    replace (PULL_REQUESTS <? t3 - t2) with false by (symmetry; apply Z.ltb_ge; lia).
    reflexivity.
  - intros Hstale.
    replace (PULL_REQUESTS <? t3 - t2) with true by (symmetry; apply Z.ltb_lt; lia).
    unfold clientGet. destruct (pullRequest (later (S calls))); reflexivity.
Qed.

Lemma getPullRequest_read_through_witness :
  fst (Cache.get 1000 (pullRequestKey "team" "app" 7) emptyCache) = None
  /\ pullRequest upUpstream = Ok plainPR
  /\ exists cache1,
       getPullRequest (fun _ => upUpstream) "team" "app" 7 1000 1200 emptyCache 0
       = (Returned plainPR, cache1, 1%nat)
       /\ (30000 - 1200 <= PULL_REQUESTS ->
           getPullRequest (fun _ => downUpstream) "team" "app" 7 30000 30100 cache1 1
           = (Returned plainPR, cache1, 1%nat))
       /\ (PULL_REQUESTS < 30000 - 1200 ->
           snd (getPullRequest (fun _ => downUpstream) "team" "app" 7 30000 30100 cache1 1)
           = 2%nat).
Proof.
  split; [reflexivity|]. split; [reflexivity|].
  exact (getPullRequest_read_through (fun _ => upUpstream) (fun _ => downUpstream)
           "team" "app" 7 1000 1200 30000 30100 emptyCache 0%nat plainPR eq_refl eq_refl).
Defined.

(** X26. A failed read is not cached: when the cache has no fresh entry and
    the upstream fails, [getPullRequest] raises the error wrapped for the
    operation and leaves no entry for the pull request. *)
Theorem getPullRequest_failure_not_cached :
  forall (world : nat -> Upstream) (workspace repo_slug : string) (pr_id : Z)
         (t1 t2 : Z) (cache : gmap string (Cache.CacheEntry PullRequest))
         (calls : nat) (status : option Z) (msg : string),
    fst (Cache.get t1 (pullRequestKey workspace repo_slug pr_id) cache) = None ->
    pullRequest (world calls) = Err status msg ->
    exists cache1,
      getPullRequest world workspace repo_slug pr_id t1 t2 cache calls
      = (Threw (EnhancedMcpError "Get pull request" (AxiosError status msg)),
         cache1, S calls)
      /\ cache1 !! pullRequestKey workspace repo_slug pr_id = None
      /\ (forall other, other <> pullRequestKey workspace repo_slug pr_id ->
                        cache1 !! other = cache !! other).
Proof.
  intros world workspace repo_slug pr_id t1 t2 cache calls status msg Hmiss Hp.
  unfold getPullRequest, clientGet. rewrite Hp.
  unfold Cache.get in *.
  destruct (cache !! pullRequestKey workspace repo_slug pr_id) as [e|] eqn:El.
  - destruct (Cache.expired t1 e); [|discriminate].
    eexists. split; [reflexivity|]. split; [apply lookup_delete_eq|].
    intros other Hne. by apply lookup_delete_ne.
  - eexists. split; [reflexivity|]. split; [exact El | reflexivity].
Qed.

Lemma getPullRequest_failure_not_cached_witness :
  fst (Cache.get 1000 (pullRequestKey "team" "app" 7) emptyCache) = None
  /\ pullRequest downUpstream = Err (Some 503) "Service Unavailable"
  /\ exists cache1,
       getPullRequest (fun _ => downUpstream) "team" "app" 7 1000 1200 emptyCache 0
       = (Threw (EnhancedMcpError "Get pull request"
                   (AxiosError (Some 503) "Service Unavailable")), cache1, 1%nat)
       /\ cache1 !! pullRequestKey "team" "app" 7 = None
       /\ (forall other, other <> pullRequestKey "team" "app" 7 ->
                         cache1 !! other = emptyCache !! other).
Proof.
  split; [reflexivity|]. split; [reflexivity|].
  exact (getPullRequest_failure_not_cached (fun _ => downUpstream) "team" "app" 7
           1000 1200 emptyCache 0%nat (Some 503) "Service Unavailable" eq_refl eq_refl).
Defined.

(** *** [getFileContent] *)

Definition commonBranches : list string := ["master"; "develop"; "HEAD"].

Definition fileNotFoundMessage (path branch : string) : string :=
  String.append "File '" (String.append path (String.append "' not found on branch '"
    (String.append branch
       "' or common branches (master, develop, HEAD). Please check the file path and branch name."))).

Section FileContent.

(** [sources n branch path] answers the GET number [n] when it asks for
    [/src/{branch}/{path}]. *)
Variable sources : nat -> string -> string -> HttpResult string.

(** The loop over the other common branches: the first that answers. *)
Fixpoint tryBranches (branches : list string) (path : string) (calls : nat)
    : option string * nat :=
  match branches with
  | [] => (None, calls)
  | altBranch :: rest =>
      match sources calls altBranch path with
      | Ok data => (Some data, S calls)
      | Err _ _ => tryBranches rest path (S calls)
      end
  end.

Definition getFileContent (path branch : string) (calls : nat) : Result string * nat :=
  match sources calls branch path with
  | Ok data => (Returned data, S calls)
  | Err status msg =>
      match status with
      | Some 404 =>
          match tryBranches
                  (List.filter (fun altBranch => negb (String.eqb altBranch branch))
                               commonBranches)
                  path (S calls) with
          | (Some data, calls') => (Returned data, calls')
          | (None, calls') => (Threw (PlainError (fileNotFoundMessage path branch)), calls')
          end
      | _ => (Threw (handleBitbucketError (AxiosError status msg) "Get file content"),
              S calls)
      end
  end.

Lemma tryBranches_spec (branches : list string) (path : string) :
  forall calls : nat,
    (calls <= snd (tryBranches branches path calls) <= calls + List.length branches)%nat
    /\ (forall data,
           fst (tryBranches branches path calls) = Some data ->
           exists n b, (calls <= n < snd (tryBranches branches path calls))%nat
                       /\ In b branches /\ sources n b path = Ok data)
    /\ (fst (tryBranches branches path calls) = None ->
        snd (tryBranches branches path calls) = (calls + List.length branches)%nat).
Proof.
  induction branches as [|b branches IH]; intros calls; cbn [tryBranches].
  - cbn. split; [lia|]. split; [discriminate | intros; lia].
  - destruct (sources calls b path) as [data|status msg] eqn:E.
    + cbn. split; [lia|]. split; [|discriminate].
      intros d [= <-]. exists calls, b. split; [lia|]. auto.
    + destruct (IH (S calls)) as (Hb & Hs & Hn). cbn [List.length]. split; [lia|].
      split.
      * intros d Hd. destruct (Hs d Hd) as (n & b' & Hr & Hin & Hok).
        exists n, b'. split; [lia|]. split; [by right | exact Hok].
      * intros Hnone. rewrite (Hn Hnone). lia.
Qed.

End FileContent.

(** X27. [getFileContent] makes at most four GETs; a content it returns is
    what the upstream answered for the requested branch or for one of
    [master], [develop], [HEAD] during the call; and the requested branch is
    not asked a second time when it is one of those three. *)
Theorem getFileContent_probes :
  forall (sources : nat -> string -> string -> HttpResult string)
         (path branch : string) (calls : nat),
    (calls < snd (getFileContent sources path branch calls) <= calls + 4)%nat
    /\ (In branch commonBranches ->
        (snd (getFileContent sources path branch calls) <= calls + 3)%nat)
    /\ (forall data,
           fst (getFileContent sources path branch calls) = Returned data ->
           exists n b,
             (calls <= n < snd (getFileContent sources path branch calls))%nat
             /\ In b (branch :: commonBranches)
             /\ sources n b path = Ok data).
Proof.
  intros sources path branch calls. unfold getFileContent.
  set (others := List.filter (fun altBranch => negb (String.eqb altBranch branch))
                             commonBranches).
  assert (Hlen : (List.length others <= 3)%nat).
  { unfold others, commonBranches. cbn [List.filter].
    repeat match goal with |- context [if ?b then _ else _] => destruct b end;
      cbn; lia. }
  assert (Hlen2 : In branch commonBranches -> (List.length others <= 2)%nat).
  { unfold others, commonBranches.
    intros [<-|[<-|[<-|[]]]]; cbn [List.filter]; rewrite ?String.eqb_refl;
      cbn [negb];
      repeat match goal with |- context [if ?b then _ else _] => destruct b end;
      cbn; lia. }
  assert (Hsub : forall b, In b others -> In b commonBranches)
    by (intros b Hb; unfold others in Hb; apply filter_In in Hb as [Hb _]; exact Hb).
  destruct (sources calls branch path) as [data|status msg] eqn:E.
  - cbn [fst snd]. split; [lia|]. split; [intros; lia|].
    intros d [= <-]. exists calls, branch. split; [lia|]. split; [by left | exact E].
  - assert (Hother : forall r : Result string * nat,
               r = (Threw (handleBitbucketError (AxiosError status msg) "Get file content"),
                    S calls) ->
               (calls < snd r <= calls + 4)%nat
               /\ (In branch commonBranches -> (snd r <= calls + 3)%nat)
               /\ (forall d, fst r = Returned d ->
                   exists n b, (calls <= n < snd r)%nat
                               /\ In b (branch :: commonBranches)
                               /\ sources n b path = Ok d)).
    { intros r ->. cbn [fst snd]. split; [lia|]. split; [intros; lia | discriminate]. }
    destruct status as [st|]; [|by apply Hother].
    destruct (Z.eq_dec st 404) as [->|Hne].
    + destruct (tryBranches_spec sources others path (S calls)) as (Hb & Hs & _).
      destruct (tryBranches sources others path (S calls)) as [[d|] c] eqn:Et;
        cbn [fst snd] in *.
      * split; [lia|]. split; [intros Hin; specialize (Hlen2 Hin); lia|].
        intros d' [= <-]. destruct (Hs d eq_refl) as (n & b & Hr & Hin & Hok).
        exists n, b. split; [lia|]. split; [right; by apply Hsub | exact Hok].
      * split; [lia|]. split; [intros Hin; specialize (Hlen2 Hin); lia | discriminate].
    + destruct st as [|p|p]; try (by apply Hother).
      repeat (destruct p as [p|p|]; try (by apply Hother)).
Qed.

(** X28. When the requested branch and the other common branches all
    answer 404, [getFileContent] throws the plain not-found error that
    names the file and the branch, after asking each of them once. *)
Theorem getFileContent_not_found :
  forall (sources : nat -> string -> string -> HttpResult string)
         (path branch : string) (calls : nat),
    (forall n b, exists msg, sources n b path = Err (Some 404) msg) ->
    getFileContent sources path branch calls
    = (Threw (PlainError (fileNotFoundMessage path branch)),
       (S calls
        + List.length (List.filter (fun altBranch => negb (String.eqb altBranch branch))
                                   commonBranches))%nat).
Proof.
  intros sources path branch calls Hall. unfold getFileContent.
  destruct (Hall calls branch) as (msg & ->).
  set (others := List.filter (fun altBranch => negb (String.eqb altBranch branch))
                             commonBranches).
  assert (Hnone : forall bs c, tryBranches sources bs path c
                               = (None, (c + List.length bs)%nat)).
  { induction bs as [|b bs IH]; intros c; cbn [tryBranches List.length].
    - f_equal. lia.
    - destruct (Hall c b) as (m & ->). rewrite IH. f_equal. lia. }
  rewrite Hnone. reflexivity.
Qed.

Lemma getFileContent_not_found_witness :
  (forall (n : nat) (b : string),
      exists msg, (fun (_ : nat) (_ _ : string) => Err (A := string) (Some 404) "Not Found")
                    n b "README.md" = Err (Some 404) msg)
  /\ getFileContent (fun _ _ _ => Err (Some 404) "Not Found") "README.md" "master" 0
     = (Threw (PlainError (fileNotFoundMessage "README.md" "master")), 3%nat).
Proof.
  assert (H : forall (n : nat) (b : string),
             exists msg, (fun (_ : nat) (_ _ : string) =>
                            Err (A := string) (Some 404) "Not Found")
                           n b "README.md" = Err (Some 404) msg)
    by (intros; eexists; reflexivity).
  split; [exact H|].
  exact (getFileContent_not_found (fun _ _ _ => Err (Some 404) "Not Found")
           "README.md" "master" 0%nat H).
Defined.

(** *** [searchCode] *)

(** An entry of a source listing, and a search result: the entry with how
    it matched and on which branch. *)
Record SourceFile := {
  file_name : option string;
  file_path_of : option string
}.

Inductive MatchType := filename | path.

Record CodeSearchResult := {
  file : SourceFile;
  match_type : MatchType;
  branch : string
}.

Definition searchNotAccessible (repo_slug : string) : string :=
  String.append "Source code not accessible for repository '"
    (String.append repo_slug
       "'. This could be because: 1) The repository is empty, 2) Source code permissions are not granted to the API token, or 3) The repository has restricted access settings.").

(** [field?.toLowerCase().includes(query.toLowerCase())], falsy when the
    field is missing. *)
Definition fieldMatches (field : option string) (query : string) : bool :=
  match field with
  | Some text => includes (toLowerCase text) (toLowerCase query)
  | None => false
  end.

(** The inner loop over the files of one listing. *)
Definition matchingFiles (files : list SourceFile) (query onBranch : string)
    : list CodeSearchResult :=
  omap (fun f =>
          let nameMatch := fieldMatches (file_name f) query in
          let pathMatch := fieldMatches (file_path_of f) query in
          if nameMatch || pathMatch
          then Some {| file := f;
                       match_type := if nameMatch then filename else path;
                       branch := onBranch |}
          else None)
       files.

(** The branches to try: the three fixed names, then the other branches of
    the repository. *)
Definition branchesToTry (branchNames : list string) : list string :=
  ["main"; "master"; "develop"]
    ++ List.filter (fun name => negb (existsb (String.eqb name) ["main"; "master"; "develop"]))
                   branchNames.

Section Search.

(** [listings n branch] answers the GET number [n] when it asks for the
    listing [/src/{branch}]. *)
Variable listings : nat -> string -> HttpResult (list SourceFile).

(** The loop over [tryBranches.slice(0, 3)]. *)
Fixpoint searchBranches (branches : list string) (query : string) (calls : nat)
    : list CodeSearchResult * nat :=
  match branches with
  | [] => ([], calls)
  | onBranch :: rest =>
      match listings calls onBranch with
      | Ok files =>
          match matchingFiles files query onBranch with
          | [] => searchBranches rest query (S calls)
          | found => (found, S calls)
          end
      | Err _ _ => searchBranches rest query (S calls)
      end
  end.

(** [searchCode]; [branches] is the outcome of [this.getBranches(...)] and
    [calls] the number of GETs made once it is known. *)
Definition searchCode (repo_slug query : string) (branches : Result (list string))
    (calls : nat) : Result (list CodeSearchResult) * nat :=
  match branches with
  | Returned branchNames =>
      match searchBranches (firstn 3 (branchesToTry branchNames)) query calls with
      | (found, calls') => (Returned found, calls')
      end
  | Threw error =>
      match responseStatus error with
      | Some 404 => (Threw (PlainError (searchNotAccessible repo_slug)), calls)
      | _ => (Threw (handleBitbucketError error "Search code"), calls)
      end
  end.

Lemma searchBranches_spec (branches : list string) (query : string) :
  forall calls : nat,
    (calls <= snd (searchBranches branches query calls) <= calls + List.length branches)%nat
    /\ Forall (fun r => In (branch r) branches
                        /\ (fieldMatches (file_name (file r)) query
                            || fieldMatches (file_path_of (file r)) query) = true)
              (fst (searchBranches branches query calls)).
Proof.
  induction branches as [|b branches IH]; intros calls; cbn [searchBranches].
  - cbn. split; [lia | constructor].
  - destruct (IH (S calls)) as [Hc Hr].
    assert (Hrest : (calls <= snd (searchBranches branches query (S calls))
                     <= calls + List.length (b :: branches))%nat
                    /\ Forall (fun r => In (branch r) (b :: branches)
                                        /\ (fieldMatches (file_name (file r)) query
                                            || fieldMatches (file_path_of (file r)) query)
                                           = true)
                              (fst (searchBranches branches query (S calls)))).
    { split; [cbn [List.length]; lia|].
      eapply List.Forall_impl; [|exact Hr]. intros r [Hin Hm]. split; [by right | exact Hm]. }
    destruct (listings calls b) as [files|status msg]; [|exact Hrest].
    destruct (matchingFiles files query b) as [|r rs] eqn:Em; [exact Hrest|].
    split; [cbn; lia|]. cbn [fst]. rewrite <- Em. clear.
    unfold matchingFiles. induction files as [|f files IHf]; [constructor|].
    change (omap ?g (f :: files)) with (match g f with Some y => y :: omap g files
                                                  | None => omap g files end).
    cbv beta.
    destruct (fieldMatches (file_name f) query || fieldMatches (file_path_of f) query)
      eqn:E; [|exact IHf].
    constructor; [|exact IHf]. cbn. split; [by left | exact E].
Qed.

End Search.

(** X29. [searchCode] looks at the branches [main], [master] and [develop]
    only: the branches the repository really has do not change what it
    requests or returns.  It makes at most three GETs, and every result is
    a file of one of those three listings whose lower-cased name or path
    includes the lower-cased query. *)
Theorem searchCode_fixed_branches :
  forall (listings : nat -> string -> HttpResult (list SourceFile))
         (repo_slug query : string) (branchNames : list string) (calls : nat),
    searchCode listings repo_slug query (Returned branchNames) calls
    = searchCode listings repo_slug query (Returned []) calls
    /\ (calls <= snd (searchCode listings repo_slug query (Returned branchNames) calls)
        <= calls + 3)%nat
    /\ (forall found,
           fst (searchCode listings repo_slug query (Returned branchNames) calls)
           = Returned found ->
           Forall (fun r => In (branch r) ["main"; "master"; "develop"]
                            /\ (fieldMatches (file_name (file r)) query
                                || fieldMatches (file_path_of (file r)) query) = true)
                  found).
Proof.
  intros listings repo_slug query branchNames calls. unfold searchCode.
  change (firstn 3 (branchesToTry branchNames)) with ["main"; "master"; "develop"].
  change (firstn 3 (branchesToTry [])) with ["main"; "master"; "develop"].
  destruct (searchBranches_spec listings ["main"; "master"; "develop"] query calls)
    as [Hc Hr].
  destruct (searchBranches listings ["main"; "master"; "develop"] query calls)
    as [found calls'].
  cbn [fst snd List.length] in *. split; [reflexivity|]. split; [lia|].
  intros f [= <-]. exact Hr.
Qed.

End Client.
